(** * Readable URLs: a shallow embedding of
      [openlibrary/core/processors/readableurls.py]

    The development follows the source file top to bottom:

    - [Py]      the operations of Python's [str] that the processor uses;
    - [Re]      the fragment of [re] needed by [ReadableUrlProcessor.patterns]
                (literals, character classes under a greedy [+], sequencing),
                with the priorities of Python's backtracking matcher;
    - [Urllib]  [urllib.parse.quote], [quote_plus], [urlparse] and [geturl],
                as CPython 3.11 has them (3.11.4 and later), with the
                [ValueError] that [urlsplit] raises on the brackets of a
                network location;
    - [OsPath]  [os.path.splitext];
    - [Web]     the helpers of web.py ([lstrips], [listget], [safestr], ...);
    - then [encode_url_path], [_get_object], [get_readable_path] and the
      processor's [__call__], written against an explicit request context.

    A Python [str] is modelled as a list of characters; a character is a code
    point below 256 (the Latin-1 block), which is closed under every operation
    of the processor.  The character classes [\w], [\d] and the white space
    of [str.strip] are Python's classes restricted to that block.

    The object store is a function from keys to records.  The request
    context [web.ctx] is threaded through the code as the state of a small
    state monad; it also records, as a ghost field, the keys handed to
    [site.get].  [raise web.seeother(...)], [raise web.redirect(...)] and
    the [ValueError] that [encode_url_path] lets through are the left
    summand of the result of [__call__]; [encode_url_path] itself returns
    [None] when it raises.

    What the file imports from elsewhere in the repository or receives from
    its callers is a parameter: [helpers.urlsafe], the exclusion policy
    [is_exclusion], the wrapped handler and [render.notfound].  So is
    [_check_bracketed_host] of [urllib.parse], which validates the host
    found between brackets with the [ipaddress] module; before CPython had
    that check it is the constant [true].  The diagnostic [print]s of
    [__call__] and its unused list [V2_TYPES] are left out.

    After the embedding come the notions used to state the properties, the
    lemmas on strings, on the fallback lookup, on resolution and on pattern
    matching, and the properties themselves, numbered C1 to C10.  Further
    properties of the same functions, numbered X1 to X23, follow: what
    [encode_url_path] does to a path, how many lookups [_get_object] makes
    and what it keeps, what [match] returns, which requests the processor
    redirects and what the handler receives.  Each of them is instantiated
    at the end of the file. *)

From Stdlib Require Import Ascii String.
From Stdlib Require Import List Bool Arith Lia.
Import ListNotations.
Open Scope string_scope.
Open Scope list_scope.
Open Scope nat_scope.

(** ** Python strings *)

Definition str := list ascii.

Definition s2l (s : string) : list ascii := list_ascii_of_string s.
Coercion s2l : string >-> list.

Module Py.

Definition code (c : ascii) : nat := nat_of_ascii c.

Definition between (lo hi : nat) (c : ascii) : bool :=
  (lo <=? code c) && (code c <=? hi).

Fixpoint str_eqb (a b : str) : bool :=
  match a, b with
  | [], [] => true
  | x :: a', y :: b' => Ascii.eqb x y && str_eqb a' b'
  | _, _ => false
  end.

(** [bool(s)] for a string: the empty string is falsy. *)
Definition truthy (s : str) : bool :=
  match s with [] => false | _ :: _ => true end.

(** [s.startswith(p)] *)
Fixpoint startswith (s p : str) {struct p} : bool :=
  match p, s with
  | [], _ => true
  | x :: p', y :: s' => Ascii.eqb x y && startswith s' p'
  | _ :: _, [] => false
  end.

(** [s.endswith(p)] *)
Definition endswith (s p : str) : bool := startswith (rev s) (rev p).

(** [s.endswith((p1, ..., pn))] *)
Definition endswith_any (s : str) (ps : list str) : bool :=
  existsb (endswith s) ps.

(** [c in s] *)
Definition contains (c : ascii) (s : str) : bool := existsb (Ascii.eqb c) s.

(** [s.rstrip(c)] for a one-character argument. *)
Fixpoint rstrip (c : ascii) (s : str) : str :=
  match s with
  | [] => []
  | x :: s' =>
      match rstrip c s' with
      | [] => if Ascii.eqb x c then [] else [x]
      | r => x :: r
      end
  end.

(** White space of [str.strip()] among the code points below 256. *)
Definition isspace (c : ascii) : bool :=
  between 9 13 c || between 28 32 c
  || (code c =? 133) || (code c =? 160).

Fixpoint lstrip_by (f : ascii -> bool) (s : str) : str :=
  match s with
  | [] => []
  | x :: s' => if f x then lstrip_by f s' else s
  end.

Definition rstrip_by (f : ascii -> bool) (s : str) : str :=
  rev (lstrip_by f (rev s)).

(** [s.strip()] *)
Definition strip (s : str) : str := rstrip_by isspace (lstrip_by isspace s).

(** [s.partition(c)] as a pair: the text before the first [c] and, when
    there is one, the text after it. *)
Fixpoint cut (c : ascii) (s : str) : str * option str :=
  match s with
  | [] => ([], None)
  | x :: s' =>
      if Ascii.eqb x c then ([], Some s')
      else let '(a, r) := cut c s' in (x :: a, r)
  end.

(** [s.split(c, n)]: at most [n] splits, so at most [n + 1] parts. *)
Fixpoint splitn (c : ascii) (n : nat) (s : str) : list str :=
  match n with
  | 0 => [s]
  | S n' =>
      match cut c s with
      | (a, None) => [a]
      | (a, Some r) => a :: splitn c n' r
      end
  end.

(** [s.split(c)] *)
Fixpoint split (c : ascii) (s : str) : list str :=
  match s with
  | [] => [[]]
  | x :: s' =>
      if Ascii.eqb x c then [] :: split c s'
      else match split c s' with
           | h :: t => (x :: h) :: t
           | [] => [[x]]
           end
  end.

(** [c.join(parts)] *)
Fixpoint join (c : ascii) (parts : list str) : str :=
  match parts with
  | [] => []
  | [p] => p
  | p :: ps => p ++ c :: join c ps
  end.

(** The text before and after the last [c] of [s] ([s.rfind(c)]). *)
Fixpoint rcut (c : ascii) (s : str) : option (str * str) :=
  match s with
  | [] => None
  | x :: s' =>
      match rcut c s' with
      | Some (b, a) => Some (x :: b, a)
      | None => if Ascii.eqb x c then Some ([], s') else None
      end
  end.

(** [s.split(c)[-1]] *)
Definition last_segment (c : ascii) (s : str) : str :=
  match rcut c s with
  | Some (_, a) => a
  | None => s
  end.

(** [s.replace(a, b)] for one-character arguments. *)
Definition replace (a b : ascii) (s : str) : str :=
  map (fun x => if Ascii.eqb x a then b else x) s.

Definition lower_char (c : ascii) : ascii :=
  if between 65 90 c then ascii_of_nat (code c + 32) else c.

End Py.

(** ** Regular expressions

    [match_re r s] lists, in the order in which Python's backtracking matcher
    tries them, the remainders of [s] after each way of matching [r] at the
    start of [s].  [re.match] keeps the first one. *)

Module Re.

Inductive re : Type :=
| Lit (l : str)                 (* a literal run of characters *)
| Plus (cls : ascii -> bool)    (* [cls+], greedy *)
| Seq (r1 r2 : re).

(** [cls+] from the longest run down to a single character. *)
Fixpoint plus_results (cls : ascii -> bool) (s : str) : list str :=
  match s with
  | [] => []
  | x :: s' => if cls x then plus_results cls s' ++ [s'] else []
  end.

Fixpoint match_re (r : re) (s : str) : list str :=
  match r with
  | Lit l => if Py.startswith s l then [skipn (length l) s] else []
  | Plus cls => plus_results cls s
  | Seq r1 r2 => flat_map (match_re r2) (match_re r1 s)
  end.

(** [m = re.compile('^' + pat).match(s)]: [None], or [m.group()]. *)
Definition re_match (r : re) (s : str) : option str :=
  match match_re r s with
  | [] => None
  | rem :: _ => Some (firstn (length s - length rem) s)
  end.

(** [\d] *)
Definition digit (c : ascii) : bool := Py.between 48 57 c.

(** [\w] on [str] patterns: alphanumeric code points and the underscore. *)
Definition word (c : ascii) : bool :=
  Py.between 48 57 c || Py.between 65 90 c || Py.between 97 122 c
  || (Py.code c =? 95)
  || (Py.code c =? 170) || (Py.code c =? 178) || (Py.code c =? 179)
  || (Py.code c =? 181) || (Py.code c =? 185) || (Py.code c =? 186)
  || Py.between 188 190 c
  || Py.between 192 214 c || Py.between 216 246 c || Py.between 248 255 c.

(** [[a-zA-Z0-9_\.-]] *)
Definition ia_char (c : ascii) : bool :=
  Py.between 97 122 c || Py.between 65 90 c || Py.between 48 57 c
  || (Py.code c =? 95) || (Py.code c =? 46) || (Py.code c =? 45).

(** [[/\w\-]] *)
Definition list_char (c : ascii) : bool :=
  (Py.code c =? 47) || word c || (Py.code c =? 45).

End Re.

Notation "r1 ;; r2" := (Re.Seq r1 r2) (at level 61, right associativity).

(** ** urllib.parse *)

Module Urllib.

Definition hexdigit (n : nat) : ascii :=
  if n <? 10 then ascii_of_nat (48 + n) else ascii_of_nat (55 + n).

(** ['%{:02X}'.format(b)] *)
Definition pct (b : nat) : str :=
  ["%"%char; hexdigit (b / 16); hexdigit (b mod 16)].

(** The UTF-8 encoding of a code point below 256. *)
Definition utf8 (c : ascii) : list nat :=
  let n := Py.code c in
  if n <? 128 then [n] else [192 + n / 64; 128 + n mod 64].

(** [_ALWAYS_SAFE]: letters, digits and [_.-~]. *)
Definition always_safe (c : ascii) : bool :=
  Py.between 65 90 c || Py.between 97 122 c || Py.between 48 57 c
  || (Py.code c =? 95) || (Py.code c =? 46) || (Py.code c =? 45)
  || (Py.code c =? 126).

Definition quote_char (safe : ascii -> bool) (c : ascii) : str :=
  if (Py.code c <? 128) && (always_safe c || safe c) then [c]
  else flat_map pct (utf8 c).

Definition quote_with (safe : ascii -> bool) (s : str) : str :=
  flat_map (quote_char safe) s.

(** [urllib.parse.quote(s)], with its default [safe='/']. *)
Definition quote (s : str) : str := quote_with (Ascii.eqb "/") s.

(** [urllib.parse.quote_plus(s)], with its default [safe='']. *)
Definition quote_plus (s : str) : str :=
  if Py.contains " " s
  then Py.replace " " "+" (quote_with (Ascii.eqb " ") s)
  else quote_with (fun _ => false) s.

Record ParseResult : Type := mkParseResult
  { scheme : str; netloc : str; path : str;
    params : str; query : str; fragment : str }.

Definition scheme_char (c : ascii) : bool :=
  Py.between 97 122 c || Py.between 65 90 c || Py.between 48 57 c
  || (Py.code c =? 43) || (Py.code c =? 45) || (Py.code c =? 46).

Definition ascii_alpha (c : ascii) : bool :=
  Py.between 97 122 c || Py.between 65 90 c.

Definition uses_params : list str :=
  [] :: map s2l
    [ "ftp"; "hdl"; "prospero"; "http"; "imap"; "https"; "shttp";
      "rtsp"; "rtspu"; "sip"; "sips"; "mms"; "sftp"; "tel" ].

Definition uses_netloc : list str :=
  [] :: map s2l
    [ "ftp"; "http"; "gopher"; "nntp"; "telnet"; "imap"; "wais"; "file";
      "mms"; "https"; "shttp"; "snews"; "prospero"; "rtsp"; "rtspu";
      "rsync"; "svn"; "svn+ssh"; "sftp"; "nfs"; "git"; "git+ssh"; "ws";
      "wss" ].

Definition mem (s : str) (l : list str) : bool := existsb (Py.str_eqb s) l.

Definition netloc_end (c : ascii) : bool :=
  Ascii.eqb c "/" || Ascii.eqb c "?" || Ascii.eqb c "#".

Fixpoint span (f : ascii -> bool) (s : str) : str * str :=
  match s with
  | [] => ([], [])
  | x :: s' => if f x then let '(a, b) := span f s' in (x :: a, b)
               else ([], s)
  end.

Section Parse.

(** [_check_bracketed_host(host)]: whether the host found between brackets
    is accepted, that is, whether the call returns instead of raising
    [ValueError].  It rests on the [ipaddress] module and on a pattern for
    the IPvFuture form, which are not embedded. *)
Variable check_bracketed_host : str -> bool.

(** The checks of [urlsplit] on the network location: a bracket without
    its counterpart raises [ValueError]; with both, the text between the
    first opening bracket and the next closing one goes to
    [_check_bracketed_host].  ([_checknetloc] raises for no code point
    below 256: none of them has one of [/?#@:] in its NFKC form.) *)
Definition netloc_accepted (netloc : str) : bool :=
  let opening := Py.contains "[" netloc in
  let closing := Py.contains "]" netloc in
  if opening && closing then
    match Py.cut "[" netloc with
    | (_, Some after) => check_bracketed_host (fst (Py.cut "]" after))
    | (_, None) => true
    end
  else negb (opening || closing).

(** [urlsplit(url)] as (scheme, netloc, path, query, fragment); [None]
    when it raises [ValueError]. *)
Definition urlsplit (url : str) : option (str * str * str * str * str) :=
  let url := Py.lstrip_by (fun c => Py.code c <=? 32) url in
  let url := filter (fun c => negb ((Py.code c =? 9) || (Py.code c =? 10)
                                    || (Py.code c =? 13))) url in
  let '(scheme, url) :=
    match Py.cut ":" url with
    | (c :: before, Some after) =>
        if ascii_alpha c && forallb scheme_char (c :: before)
        then (map Py.lower_char (c :: before), after)
        else ([], url)
    | _ => ([], url)
    end in
  let '(netloc, url) :=
    if Py.startswith url "//"
    then span (fun c => negb (netloc_end c)) (skipn 2 url)
    else ([], url) in
  if netloc_accepted netloc then
    let '(url, fragment) :=
      match Py.cut "#" url with
      | (a, Some f) => (a, f)
      | (a, None) => (a, [])
      end in
    let '(url, query) :=
      match Py.cut "?" url with
      | (a, Some q) => (a, q)
      | (a, None) => (a, [])
      end in
    Some (scheme, netloc, url, query, fragment)
  else None.

Definition _splitparams (url : str) : str * str :=
  match Py.rcut "/" url with
  | Some (dir, base) =>
      match Py.cut ";" base with
      | (b, Some p) => (dir ++ "/"%char :: b, p)
      | (_, None) => (url, [])
      end
  | None =>
      match Py.cut ";" url with
      | (b, Some p) => (b, p)
      | (b, None) => (b, [])
      end
  end.

(** [urlparse(url)]; [None] when [urlsplit] raises. *)
Definition urlparse (url : str) : option ParseResult :=
  match urlsplit url with
  | Some (scheme, netloc, url, query, fragment) =>
      let '(url, params) :=
        if mem scheme uses_params && Py.contains ";" url
        then _splitparams url else (url, []) in
      Some (mkParseResult scheme netloc url params query fragment)
  | None => None
  end.

End Parse.

(** [result._replace(path=p)] *)
Definition replace_path (r : ParseResult) (p : str) : ParseResult :=
  mkParseResult (scheme r) (netloc r) p (params r) (query r) (fragment r).

(** [result.geturl()], that is [urlunparse(result)]. *)
Definition geturl (r : ParseResult) : str :=
  let url := path r in
  let url := if Py.truthy (params r) then url ++ ";"%char :: params r
             else url in
  let url :=
    if Py.truthy (netloc r)
       || (Py.truthy (scheme r) && mem (scheme r) uses_netloc
           && negb (Py.startswith url "//"))
    then
      let url := if Py.truthy url && negb (Py.startswith url "/")
                 then "/"%char :: url else url in
      "//" ++ netloc r ++ url
    else url in
  let url := if Py.truthy (scheme r) then scheme r ++ ":"%char :: url
             else url in
  let url := if Py.truthy (query r) then url ++ "?"%char :: query r
             else url in
  if Py.truthy (fragment r) then url ++ "#"%char :: fragment r else url.

End Urllib.

(** ** os.path *)

Module OsPath.

(** [os.path.splitext(p)]: the extension starts at the last dot of the
    last component, unless only dots precede it there. *)
Definition splitext (p : str) : str * str :=
  let '(dir, base) :=
    match Py.rcut "/" p with
    | Some (b, a) => (b ++ ["/"%char], a)
    | None => ([], p)
    end in
  match Py.rcut "." base with
  | Some (stem, e) =>
      if forallb (Ascii.eqb ".") stem then (p, [])
      else (dir ++ stem, "."%char :: e)
  | None => (p, [])
  end.

End OsPath.

(** ** web.py helpers *)

Module Web.

(** [web.lstrips(text, remove)] *)
Definition lstrips (text remove : str) : str :=
  if Py.startswith text remove then skipn (length remove) text else text.

(** [web.listget(l, n, default)] *)
Definition listget (l : list str) (n : nat) (default : str) : str :=
  nth n l default.

(** [web.safestr] and [web.safeunicode] leave a [str] as it is. *)
Definition safestr (s : str) : str := s.
Definition safeunicode (s : str) : str := s.

End Web.

(** ** The source file *)

(** [encode_url_path(url)]; [None] when [urlparse] raises [ValueError].
    [check_bracketed_host] stands for [_check_bracketed_host] of
    [urllib.parse]. *)
Definition encode_url_path (check_bracketed_host : str -> bool) (url : str)
    : option str :=
  match Urllib.urlparse check_bracketed_host url with
  | Some result =>
      let correct_path :=
        Py.join "/" (map Urllib.quote (Py.split "/" (Urllib.path result))) in
      let result := Urllib.replace_path result correct_path in
      Some (Urllib.geturl result)
  | None => None
  end.

(** A record of the object store: [thing.key], [thing.type.key] and
    [thing.get(field)]. *)
Record Thing : Type := mkThing
  { thing_key : str;
    thing_type_key : str;
    thing_get : str -> option str }.

(** [site.get(key)] *)
Definition Site := str -> option Thing.

(** The request context [web.ctx].  [ctx_lookups] is a ghost field: the keys
    handed to [site.get] so far, oldest first. *)
Record Ctx : Type := mkCtx
  { ctx_path : str;
    ctx_query : str;
    ctx_method : str;
    ctx_encoding : option str;
    ctx_exclude : bool;
    ctx_readable_path : option str;
    ctx_fullpath : option str;
    ctx_status : option str;
    ctx_lookups : list str }.

Definition log_lookup (k : str) (c : Ctx) : Ctx :=
  mkCtx (ctx_path c) (ctx_query c) (ctx_method c) (ctx_encoding c)
        (ctx_exclude c) (ctx_readable_path c) (ctx_fullpath c)
        (ctx_status c) (ctx_lookups c ++ [k]).

Definition with_exclude (b : bool) (c : Ctx) : Ctx :=
  mkCtx (ctx_path c) (ctx_query c) (ctx_method c) (ctx_encoding c)
        b (ctx_readable_path c) (ctx_fullpath c)
        (ctx_status c) (ctx_lookups c).

Definition with_status (s : str) (c : Ctx) : Ctx :=
  mkCtx (ctx_path c) (ctx_query c) (ctx_method c) (ctx_encoding c)
        (ctx_exclude c) (ctx_readable_path c) (ctx_fullpath c)
        (Some s) (ctx_lookups c).

(** [web.ctx.readable_path = readable; web.ctx.path = real;
     web.ctx.fullpath = web.ctx.path + web.ctx.query] *)
Definition with_paths (readable real : str) (c : Ctx) : Ctx :=
  mkCtx real (ctx_query c) (ctx_method c) (ctx_encoding c)
        (ctx_exclude c) (Some readable) (Some (real ++ ctx_query c))
        (ctx_status c) (ctx_lookups c).

(** Computations that read and write the request context. *)
Definition M (A : Type) : Type := Ctx -> A * Ctx.

Definition ret {A} (a : A) : M A := fun c => (a, c).

Definition bind {A B} (m : M A) (k : A -> M B) : M B :=
  fun c => let '(a, c') := m c in k a c'.

Notation "x <- m ;;; k" := (bind m (fun x => k))
  (at level 62, m at next level, right associativity).
Notation "' pat <- m ;;; k" :=
  (bind m (fun x => match x with pat => k end))
  (at level 62, pat pattern, m at next level, right associativity).
Notation "m ;;; k" := (bind m (fun _ => k))
  (at level 62, right associativity).

Definition gets {A} (f : Ctx -> A) : M A := fun c => (f c, c).
Definition modify (f : Ctx -> Ctx) : M unit := fun c => (tt, f c).

Definition site_get (site : Site) (key : str) : M (option Thing) :=
  fun c => (site key, log_lookup key c).

Definition is_none {A} (o : option A) : bool :=
  match o with None => true | Some _ => false end.

(** [_get_object(site, key)].  The keys built by the three legacy rewrites
    are never empty, so [key and site.get(key)] is [site.get(key)]. *)
Definition _get_object (site : Site) (key : str) : M (option Thing) :=
  obj <- site_get site key ;;;
  ' (key, obj) <-
    (if is_none obj && Py.startswith key "/a/" then
       let key := "/authors/" ++ skipn (length "/a/") key in
       obj <- site_get site key ;;; ret (key, obj)
     else ret (key, obj)) ;;;
  ' (key, obj) <-
    (if is_none obj && Py.startswith key "/b/" then
       let key := "/books/" ++ skipn (length "/b/") key in
       obj <- site_get site key ;;; ret (key, obj)
     else ret (key, obj)) ;;;
  ' (key, obj) <-
    (if is_none obj && Py.startswith key "/user/" then
       let key := "/people/" ++ skipn (length "/user/") key in
       obj <- site_get site key ;;; ret (key, obj)
     else ret (key, obj)) ;;;
  let basename := Py.last_segment "/" key in
  obj <-
    (if is_none obj && Py.startswith basename "ia:" then
       site_get site ("/books/" ++ basename)
     else ret obj) ;;;
  obj <-
    (if is_none obj && Py.startswith basename "OL"
        && Py.endswith basename "W" then
       site_get site ("/works/" ++ basename)
     else ret obj) ;;;
  obj <-
    (if is_none obj && Py.startswith basename "OL"
        && Py.endswith basename "M" then
       site_get site ("/books/" ++ basename)
     else ret obj) ;;;
  obj <-
    (if is_none obj && Py.startswith basename "OL"
        && Py.endswith basename "A" then
       site_get site ("/authors/" ++ basename)
     else ret obj) ;;;
  ret obj.

(** One entry of [patterns]: (path_regex, type, property_name,
    default_value). *)
Definition Rule : Type := Re.re * str * str * str.

(** What the inner function [match] returns when a rule applies. *)
Record MatchResult : Type := mkMatch
  { m_type : str;
    m_property : str;
    m_default_title : str;
    m_prefix : str;
    m_middle : str;
    m_suffix : str }.

(** The inner function [match(path)] of [get_readable_path]; [None] stands
    for the tuple of six [None]s. *)
Fixpoint match_ (patterns : list Rule) (path : str) : option MatchResult :=
  match patterns with
  | [] => None
  | (pat, _type, _property, default_title) :: patterns' =>
      match Re.re_match pat path with
      | Some prefix =>
          let extra := Web.lstrips path prefix in
          let tokens := Py.splitn "/" 2 extra in
          let middle := Web.listget tokens 1 [] in
          let suffix := Web.listget tokens 2 [] in
          let suffix := if Py.truthy suffix then "/"%char :: suffix
                        else suffix in
          Some (mkMatch _type _property default_title prefix middle suffix)
      | None => match_ patterns' path
      end
  end.

(** [x or default] for an optional string. *)
Definition or_default (x : option str) (default : str) : str :=
  match x with
  | Some s => if Py.truthy s then s else default
  | None => default
  end.

Section Resolver.

(** [openlibrary.core.helpers.urlsafe], which is not part of the file. *)
Variable urlsafe : str -> str.

(** [is_exclusion]: imported from [booklending_utils] when that package
    is installed, the constant [False] of the file otherwise. *)
Variable is_exclusion : option Thing -> bool.

(** The slug of a record under a rule. *)
Definition slug (thing : Thing) (_property default_title : str) : str :=
  let title := or_default (thing_get thing _property) default_title in
  "/"%char :: Urllib.quote_plus (urlsafe (Py.strip title)).

(** [get_readable_path(site, path, patterns, encoding)] *)
Definition get_readable_path (site : Site) (path : str)
    (patterns : list Rule) (encoding : option str) : M (str * str) :=
  match match_ patterns path with
  | None =>
      let path := Web.safeunicode path in
      ret (path, path)
  | Some m =>
      if negb (is_none encoding)
         || Py.endswith_any path (map s2l [ ".json"; ".rdf"; ".yml" ])
      then
        let '(key, ext) := OsPath.splitext path in
        thing <- _get_object site key ;;;
        let path := match thing with
                    | Some t => thing_key t ++ ext
                    | None => path
                    end in
        let path := Web.safeunicode path in
        ret (path, path)
      else
        thing <- _get_object site (m_prefix m) ;;;
        let prefix := match thing with
                      | Some t => thing_key t
                      | None => m_prefix m
                      end in
        let middle :=
          match thing with
          | Some t =>
              if Py.str_eqb (thing_type_key t) (m_type m)
              then slug t (m_property m) (m_default_title m)
              else []
          | None => []
          end in
        (if is_exclusion thing then modify (with_exclude true)
         else ret tt) ;;;
        let prefix := Web.safeunicode prefix in
        let middle := Web.safeunicode middle in
        let suffix := Web.safeunicode (m_suffix m) in
        ret (prefix ++ suffix, prefix ++ middle ++ suffix)
  end.

(** What the wrapped handler and the templates produce. *)
Variable Out : Type.

(** [render.notfound(path)] *)
Variable render_notfound : str -> Out.

(** [_check_bracketed_host] of [urllib.parse], on which [urlparse] rests. *)
Variable check_bracketed_host : str -> bool.

(** What leaves the processor as an exception: the two redirects it
    raises, and the [ValueError] of [urlparse], which it does not catch. *)
Inductive Raised : Type :=
| SeeOther (url : str)     (* [raise web.seeother(url)] *)
| Redirect (url : str)     (* [raise web.redirect(url)] *)
| ValueError.              (* raised inside [encode_url_path] *)

(** [ReadableUrlProcessor.__call__(handler)], for the rule list
    [patterns] of the instance: either an exception is raised or a value
    is returned. *)
Definition __call__ (site : Site) (patterns : list Rule)
    (handler : M Out) : M (Raised + Out) :=
  path <- gets ctx_path ;;;
  (if Py.startswith path "/l/" then
     ret (inl (SeeOther ("/languages/" ++ skipn (length "/l/") path)))
   else
     legacy_user <-
       (if Py.startswith path "/user/" then
          obj <- site_get site path ;;; ret (is_none obj)
        else ret false) ;;;
     (if legacy_user : bool then
        ret (inl (SeeOther ("/people/" ++ skipn (length "/user/") path)))
      else
        encoding <- gets ctx_encoding ;;;
        get_readable_path site path patterns encoding ;;;
        let normalized_path := Py.rstrip "/" path in
        ' (real_path, readable_path) <-
          get_readable_path site normalized_path patterns encoding ;;;
        let readable_path :=
          if Py.endswith readable_path "/"
          then Py.rstrip "/" readable_path
          else readable_path in
        match encode_url_path check_bracketed_host readable_path with
        | None => ret (inl ValueError)
        | Some readable_path =>
            match encode_url_path check_bracketed_host real_path with
            | None => ret (inl ValueError)
            | Some real_path =>
                method <- gets ctx_method ;;;
                query <- gets ctx_query ;;;
                (if negb (Py.str_eqb readable_path path)
                    && negb (Py.str_eqb readable_path
                               (Urllib.quote (Web.safestr path)))
                    && Py.str_eqb method "GET"
                 then
                   ret (inl (Redirect (Web.safeunicode readable_path
                                       ++ Web.safeunicode query)))
                 else
                   modify (with_paths readable_path real_path) ;;;
                   out <- handler ;;;
                   exclude <- gets ctx_exclude ;;;
                   (if exclude : bool then
                      modify (with_status "404 Not Found") ;;;
                      path <- gets ctx_path ;;;
                      ret (inr (render_notfound path))
                    else
                      ret (inr out)))
            end
        end)).

End Resolver.

(** [ReadableUrlProcessor.patterns] *)
Definition patterns : list Rule :=
  [ (Re.Lit "/" ;; Re.Plus Re.word ;; Re.Lit "/OL" ;; Re.Plus Re.digit
       ;; Re.Lit "M",
     "/type/edition" : str, "title" : str, "untitled" : str);
    (Re.Lit "/" ;; Re.Plus Re.word ;; Re.Lit "/ia:" ;; Re.Plus Re.ia_char,
     "/type/edition" : str, "title" : str, "untitled" : str);
    (Re.Lit "/" ;; Re.Plus Re.word ;; Re.Lit "/OL" ;; Re.Plus Re.digit
       ;; Re.Lit "A",
     "/type/author" : str, "name" : str, "noname" : str);
    (Re.Lit "/" ;; Re.Plus Re.word ;; Re.Lit "/OL" ;; Re.Plus Re.digit
       ;; Re.Lit "W",
     "/type/work" : str, "title" : str, "untitled" : str);
    (Re.Lit "/" ;; Re.Plus Re.list_char ;; Re.Lit "/OL" ;; Re.Plus Re.digit
       ;; Re.Lit "L",
     "/type/list" : str, "name" : str, "unnamed" : str) ].

(** ** Notions used in the statements *)

(** The first record found under a list of keys tried in order. *)
Fixpoint first_found (site : Site) (keys : list str) : option Thing :=
  match keys with
  | [] => None
  | k :: keys' =>
      match site k with
      | Some t => Some t
      | None => first_found site keys'
      end
  end.

(** The keys actually looked up when a list of keys is tried in order and
    the search stops at the first record found. *)
Fixpoint tried (site : Site) (keys : list str) : list str :=
  match keys with
  | [] => []
  | k :: keys' =>
      match site k with
      | Some _ => [k]
      | None => k :: tried site keys'
      end
  end.

(** The context after the keys [ks] have been looked up, in order. *)
Definition log_all (ks : list str) (c : Ctx) : Ctx :=
  mkCtx (ctx_path c) (ctx_query c) (ctx_method c) (ctx_encoding c)
        (ctx_exclude c) (ctx_readable_path c) (ctx_fullpath c)
        (ctx_status c) (ctx_lookups c ++ ks).

(** The modern form of a key under a legacy prefix. *)
Definition legacy_candidates (key : str) : list str :=
  if Py.startswith key "/a/" then ["/authors/" ++ skipn 3 key]
  else if Py.startswith key "/b/" then ["/books/" ++ skipn 3 key]
  else if Py.startswith key "/user/" then ["/people/" ++ skipn 6 key]
  else [].

(** The keys derived from the last segment of a key, with the tests of the
    code: a prefix [ia:], or a prefix [OL] together with a final letter. *)
Definition basename_candidates (basename : str) : list str :=
  (if Py.startswith basename "ia:" then ["/books/" ++ basename] else [])
  ++ (if Py.startswith basename "OL" && Py.endswith basename "W"
      then ["/works/" ++ basename] else [])
  ++ (if Py.startswith basename "OL" && Py.endswith basename "M"
      then ["/books/" ++ basename] else [])
  ++ (if Py.startswith basename "OL" && Py.endswith basename "A"
      then ["/authors/" ++ basename] else []).

(** Every key [_get_object] may look up, in the order of the code. *)
Definition candidates (key : str) : list str :=
  key :: legacy_candidates key
      ++ basename_candidates (Py.last_segment "/" key).

(** [OL<digits><letter>], as the specification words the test on the last
    segment. *)
Definition olid (letter : ascii) (basename : str) : bool :=
  Py.startswith basename "OL"
  && match rev (skipn 2 basename) with
     | l :: d => Ascii.eqb l letter && Py.truthy d && forallb Re.digit d
     | [] => false
     end.

(** The candidate keys as the specification words them (section 4.2.1). *)
Definition spec_candidates (key : str) : list str :=
  let basename := Py.last_segment "/" key in
  key :: legacy_candidates key
      ++ (if Py.startswith basename "ia:" then ["/books/" ++ basename] else [])
      ++ (if olid "W" basename then ["/works/" ++ basename] else [])
      ++ (if olid "M" basename then ["/books/" ++ basename] else [])
      ++ (if olid "A" basename then ["/authors/" ++ basename] else []).

(** The four retries of [_get_object] on the last segment of the key, from
    the record [obj] found so far. *)
Definition basename_retries (site : Site) (basename : str)
    (obj : option Thing) : M (option Thing) :=
  obj <-
    (if is_none obj && Py.startswith basename "ia:" then
       site_get site ("/books/" ++ basename)
     else ret obj) ;;;
  obj <-
    (if is_none obj && Py.startswith basename "OL"
        && Py.endswith basename "W" then
       site_get site ("/works/" ++ basename)
     else ret obj) ;;;
  obj <-
    (if is_none obj && Py.startswith basename "OL"
        && Py.endswith basename "M" then
       site_get site ("/books/" ++ basename)
     else ret obj) ;;;
  obj <-
    (if is_none obj && Py.startswith basename "OL"
        && Py.endswith basename "A" then
       site_get site ("/authors/" ++ basename)
     else ret obj) ;;;
  ret obj.

(** The known structured-data extensions. *)
Definition known_exts : list str := map s2l [ ".json"; ".rdf"; ".yml" ].

(** [middle] and [suffix] as [match] derives them from the text that
    follows the matched prefix. *)
Definition tail_parts (extra : str) : str * str :=
  let tokens := Py.splitn "/" 2 extra in
  let suffix := Web.listget tokens 2 [] in
  (Web.listget tokens 1 [],
   if Py.truthy suffix then "/"%char :: suffix else suffix).

(** The prefix a rule-matching, extension-free resolution puts in front and
    the slug it inserts, from the record the fallback lookup returned. *)
Definition resolved_prefix (o : option Thing) (m : MatchResult) : str :=
  match o with
  | Some t => thing_key t
  | None => m_prefix m
  end.

Definition resolved_middle (urlsafe : str -> str) (o : option Thing)
    (m : MatchResult) : str :=
  match o with
  | Some t =>
      if Py.str_eqb (thing_type_key t) (m_type m)
      then slug urlsafe t (m_property m) (m_default_title m)
      else []
  | None => []
  end.

(** The readable path as the processor compares and installs it: the
    trailing slashes removed, then the path percent-encoded; [None] when
    the encoding raises. *)
Definition final_readable (check_bracketed_host : str -> bool)
    (readable : str) : option str :=
  encode_url_path check_bracketed_host
    (if Py.endswith readable "/" then Py.rstrip "/" readable else readable).

(** The target of the legacy redirect a request is answered with, if any. *)
Definition legacy_redirect (site : Site) (path : str) : option str :=
  if Py.startswith path "/l/" then Some ("/languages/" ++ skipn 3 path)
  else if Py.startswith path "/user/" && is_none (site path)
       then Some ("/people/" ++ skipn 6 path)
       else None.

(** The context once the legacy checks are done: the lookup of a [/user/]
    path is recorded. *)
Definition after_legacy (c : Ctx) : Ctx :=
  if Py.startswith (ctx_path c) "/l/" then c
  else if Py.startswith (ctx_path c) "/user/"
       then log_lookup (ctx_path c) c else c.

(** The redirect decision of the processor. *)
Definition must_redirect (readable path method : str) : bool :=
  negb (Py.str_eqb readable path)
  && negb (Py.str_eqb readable (Urllib.quote (Web.safestr path)))
  && Py.str_eqb method "GET".

Section Request.

Variable urlsafe : str -> str.
Variable is_exclusion : option Thing -> bool.
Variable check_bracketed_host : str -> bool.

(** The two resolutions of a request: of the path as received, then of
    the path without its trailing slashes. *)
Definition resolutions (site : Site) (pats : list Rule) (c : Ctx)
    : (str * str) * Ctx :=
  let c1 := snd (get_readable_path urlsafe is_exclusion site (ctx_path c)
                   pats (ctx_encoding c) (after_legacy c)) in
  get_readable_path urlsafe is_exclusion site
    (Py.rstrip "/" (ctx_path c)) pats (ctx_encoding c) c1.

(** The readable and the real path of a request, as compared with the
    request path and installed for the handler; [None] when their
    percent-encoding raises. *)
Definition request_readable (site : Site) (pats : list Rule) (c : Ctx)
    : option str :=
  final_readable check_bracketed_host (snd (fst (resolutions site pats c))).

Definition request_real (site : Site) (pats : list Rule) (c : Ctx)
    : option str :=
  encode_url_path check_bracketed_host (fst (fst (resolutions site pats c))).

(** The context in which the wrapped handler is invoked, when the
    processor gets that far. *)
Definition handler_ctx (site : Site) (pats : list Rule) (c : Ctx)
    : option Ctx :=
  match request_readable site pats c, request_real site pats c with
  | Some readable, Some real =>
      Some (with_paths readable real (snd (resolutions site pats c)))
  | _, _ => None
  end.

End Request.

(** What the processor answers once the handler has returned [r]: the
    not-found page with status 404 when the exclusion flag is up, the
    output of the handler otherwise. *)
Definition after_handler {Out : Type} (render_notfound : str -> Out)
    (r : Out * Ctx) : (Raised + Out) * Ctx :=
  if ctx_exclude (snd r)
  then (inr (render_notfound (ctx_path (snd r))),
        with_status "404 Not Found" (snd r))
  else (inr (fst r), snd r).

(** Whether the resolution of [path] raises the exclusion flag: a rule
    matches, the path goes through the slug branch, and the policy flags
    what the fallback lookup returned. *)
Definition raises_flag (is_exclusion : option Thing -> bool) (site : Site)
    (pats : list Rule) (enc : option str) (path : str) : bool :=
  match match_ pats path with
  | Some m =>
      negb (negb (is_none enc) || Py.endswith_any path known_exts)
      && is_exclusion (first_found site (candidates (m_prefix m)))
  | None => false
  end.

(** A request context before the processor runs. *)
Definition request (path query method : str) (encoding : option str) : Ctx :=
  mkCtx path query method encoding false None None None [].

(** The [is_exclusion] of the file, used when [booklending_utils] is not
    installed. *)
Definition is_exclusion_default (obj : option Thing) : bool := false.

(** A stand-in for [urlsafe] in the examples. *)
Definition urlsafe_id (s : str) : str := s.

(** A stand-in for [_check_bracketed_host] in the examples: every host
    between brackets is accepted. *)
Definition accept_host (host : str) : bool := true.

(** A record with one field. *)
Definition record (key type field value : str) : Thing :=
  mkThing key type
          (fun f => if Py.str_eqb f field then Some value else None).

(** A store given by its entries; a key may hold a record whose own key
    differs (a redirect). *)
Fixpoint store (entries : list (str * Thing)) : Site :=
  fun k =>
    match entries with
    | [] => None
    | (k', t) :: entries' =>
        if Py.str_eqb k k' then Some t else store entries' k
    end.

Definition empty_store : Site := store [].

(** A handler that answers with the path it is asked for, and a rendering
    of the not-found page, for the examples. *)
Definition page_handler : M str := gets ctx_path.

Definition notfound_page (path : str) : str := "not found: " ++ path.

(** Handlers that change the exclusion flag before they answer. *)
Definition clearing_handler : M str :=
  modify (with_exclude false) ;;; gets ctx_path.

Definition flagging_handler : M str :=
  modify (with_exclude true) ;;; gets ctx_path.

(** An exclusion policy that flags every record. *)
Definition exclude_all (obj : option Thing) : bool := negb (is_none obj).

(** The stores of the examples. *)
Definition work_store : Site :=
  store [ ("/works/OLxW" : str,
           record "/works/OLxW" "/type/work" "title" "Emma") ].

Definition book_store : Site :=
  store [ ("/books/OL1M" : str,
           record "/books/OL1M" "/type/edition" "title" "Moby Dick") ].

Definition author_store : Site :=
  store [ ("/authors/OL1A" : str,
           record "/authors/OL1A" "/type/author" "name" "Jane Austen") ].

Definition odd_key_store : Site :=
  store [ ("/books/ia:x" : str,
           record "/books/ia:x/#" "/type/redirect" "location" "/books/OL1M") ].

(** A title with white space around it, and a record with no title. *)
Definition padded_store : Site :=
  store [ ("/books/OL1M" : str,
           record "/books/OL1M" "/type/edition" "title" "  Moby Dick ") ].

Definition untitled_store : Site :=
  store [ ("/books/OL1M" : str,
           record "/books/OL1M" "/type/edition" "subtitle" "A Novel") ].

(** A stand-in for [urlsafe] that writes an underscore for a space, as the
    end-to-end example of the specification shows the slug of a title with
    a space. *)
Definition urlsafe_underscore (s : str) : str := Py.replace " " "_" s.

(** Stores for the limits of idempotence: a record held under a key that
    is not its own, a list whose name reads as a list identifier, and an
    item of the archive. *)
Definition moved_store : Site :=
  store [ ("/books/OL1M" : str,
           record "/books/OL2M" "/type/edition" "title" "Emma") ].

Definition list_store : Site :=
  store [ ("/people/x/lists/OL1L" : str,
           record "/people/x/lists/OL1L" "/type/list" "name" "OL5L");
          ("/people/x/lists/OL1L/OL5L" : str,
           record "/people/x/lists/OL1L/OL5L" "/type/list" "name" "best") ].

Definition archive_store : Site :=
  store [ ("/books/ia:foo" : str,
           record "/books/ia:foo" "/type/edition" "title" "Foo") ].

(** The first rule whose pattern matches and the text left after the
    match. *)
Fixpoint first_rule (pats : list Rule) (path : str) : option (Rule * str) :=
  match pats with
  | [] => None
  | rule :: pats' =>
      match Re.match_re (fst (fst (fst rule))) path with
      | rem :: _ => Some (rule, rem)
      | [] => first_rule pats' path
      end
  end.

(** What [match] returns for a rule and the text left after its match. *)
Definition match_of (path : str) (found : Rule * str) : MatchResult :=
  let '(_, _type, _property, default_title, rem) := found in
  mkMatch _type _property default_title
          (firstn (length path - length rem) path)
          (fst (tail_parts rem)) (snd (tail_parts rem)).

(** Whether a pattern can match the empty text, and whether a match of it
    can end with the character [c]. *)
Fixpoint nullable (r : Re.re) : bool :=
  match r with
  | Re.Lit l => negb (Py.truthy l)
  | Re.Plus _ => false
  | Re.Seq r1 r2 => nullable r1 && nullable r2
  end.

Fixpoint can_end (r : Re.re) (c : ascii) : bool :=
  match r with
  | Re.Lit l => match rev l with x :: _ => Ascii.eqb x c | [] => false end
  | Re.Plus cls => cls c
  | Re.Seq r1 r2 => can_end r2 c || (nullable r2 && can_end r1 c)
  end.

(** The key a resolution hands to the fallback lookup, when a rule
    matches: the path without its extension in the extension branch, the
    matched prefix otherwise. *)
Definition lookup_key (pats : list Rule) (enc : option str) (path : str)
    : option str :=
  match match_ pats path with
  | Some m =>
      Some (if negb (is_none enc) || Py.endswith_any path known_exts
            then fst (OsPath.splitext path)
            else m_prefix m)
  | None => None
  end.

(** What follows the record's key in the real path: the extension in the
    extension branch, the suffix otherwise. *)
Definition real_tail (pats : list Rule) (enc : option str) (path : str)
    : str :=
  match match_ pats path with
  | Some m =>
      if negb (is_none enc) || Py.endswith_any path known_exts
      then snd (OsPath.splitext path)
      else m_suffix m
  | None => []
  end.

(** The legacy first segments and their modern forms. *)
Definition legacy_prefixes : list (str * str) :=
  [ ("a" : str, "authors" : str);
    ("b" : str, "books" : str);
    ("user" : str, "people" : str) ].

(** A first segment: a non-empty run of word characters. *)
Definition is_name (w : str) : bool := Py.truthy w && forallb Re.word w.

(** The shape shared by the patterns: a slash, a first run of characters
    among which are the word characters, a slash, and the rest. *)
Definition segment_rule (pat : Re.re) : Prop :=
  exists cls l rest,
    pat = Re.Lit "/" ;; Re.Plus cls ;; Re.Lit ("/"%char :: l) ;; rest
    /\ forall x, Re.word x = true -> cls x = true.

(** A store in which every record is held under its own key. *)
Definition canonical (site : Site) : Prop :=
  forall k t, site k = Some t -> thing_key t = k.

(** The identifiers of the edition, author and work rules, with the
    position of their rule in [patterns]: [OL], digits and the letter of the
    rule, or [ia:] and characters of an archive identifier. *)
Definition run_of (cls : ascii -> bool) (s : str) : Prop :=
  s <> [] /\ forall x, In x s -> cls x = true.

Inductive identifies : nat -> str -> Prop :=
| olid_M (d : str) :
    run_of Re.digit d -> identifies 0 ("OL" ++ d ++ ["M"%char])
| ia_id (i : str) : run_of Re.ia_char i -> identifies 1 ("ia:" ++ i)
| olid_A (d : str) :
    run_of Re.digit d -> identifies 2 ("OL" ++ d ++ ["A"%char])
| olid_W (d : str) :
    run_of Re.digit d -> identifies 3 ("OL" ++ d ++ ["W"%char]).

(** The patterns of the edition, author and work rules, and of the archive
    identifiers, as they stand in [patterns]. *)
Definition olid_pattern (letter : ascii) : Re.re :=
  Re.Lit "/" ;; Re.Plus Re.word ;; Re.Lit "/OL" ;; Re.Plus Re.digit
    ;; Re.Lit [letter].

Definition ia_pattern : Re.re :=
  Re.Lit "/" ;; Re.Plus Re.word ;; Re.Lit "/ia:" ;; Re.Plus Re.ia_char.

(** A text that does not start with a character of the class. *)
Definition stops (cls : ascii -> bool) (t : str) : Prop :=
  match t with
  | [] => True
  | y :: _ => cls y = false
  end.

(** A suffix is empty or a slash followed by something. *)
Definition suffix_form (suffix : str) : Prop :=
  suffix = [] \/ exists s x, suffix = "/"%char :: x :: s.

(** ** Notions used in the further properties *)

(** A character that [quote] leaves as it is: an unreserved character or
    the slash. *)
Definition path_safe (c : ascii) : bool :=
  (Py.code c <? 128) && (Urllib.always_safe c || Ascii.eqb "/" c).

(** A character of a percent-encoded path. *)
Definition url_char (c : ascii) : bool := path_safe c || Ascii.eqb c "%".

(** The characters that end the path of a URL ([?], [#], and [;] for the
    parameters of its last segment), and those [urlsplit] removes. *)
Definition url_special (c : ascii) : bool :=
  Ascii.eqb c "?" || Ascii.eqb c "#" || Ascii.eqb c ";"
  || (Py.code c =? 9) || (Py.code c =? 10) || (Py.code c =? 13).

(** An absolute path and nothing else: it starts with one slash and has no
    query, fragment or parameters. *)
Definition plain_path (p : str) : bool :=
  Py.startswith p "/" && negb (Py.startswith p "//")
  && forallb (fun c => negb (url_special c)) p.

(** A query string as [urlsplit] keeps it. *)
Definition plain_query (q : str) : bool :=
  forallb (fun c => negb (Ascii.eqb c "#" || (Py.code c =? 9)
                          || (Py.code c =? 10) || (Py.code c =? 13))) q.

(** The directory under which [_get_object] retries a last segment: the
    first of its four tests that applies. *)
Definition home_dir (basename : str) : option str :=
  if Py.startswith basename "ia:" then Some ("/books/" : str)
  else if Py.startswith basename "OL" && Py.endswith basename "W"
       then Some ("/works/" : str)
  else if Py.startswith basename "OL" && Py.endswith basename "M"
       then Some ("/books/" : str)
  else if Py.startswith basename "OL" && Py.endswith basename "A"
       then Some ("/authors/" : str)
  else None.

(** The pattern of a rule. *)
Definition rule_pattern (rule : Rule) : Re.re := fst (fst (fst rule)).

(** A path made of a first segment and an identifier. *)
Definition id_path (w id : str) : str := "/" ++ w ++ "/" ++ id.

(** The number of slashes of a text. *)
Definition slashes (s : str) : nat := count_occ ascii_dec s "/"%char.

(** The title of a record under a rule, as it goes into the slug. *)
Definition slug_text (urlsafe : str -> str) (thing : Thing)
    (_property default_title : str) : str :=
  Urllib.quote_plus
    (urlsafe (Py.strip (or_default (thing_get thing _property)
                                   default_title))).

(** A character of the result of [quote_plus]: unreserved, a percent sign
    or a plus sign. *)
Definition slug_char (c : ascii) : bool :=
  ((Py.code c <? 128) && Urllib.always_safe c)
  || Ascii.eqb c "%" || Ascii.eqb c "+".

(** ** The doctests of [encode_url_path] that stay in the Latin-1 block *)

Example encode_url_path_empty : encode_url_path accept_host [] = Some [].
Proof. reflexivity. Qed.

Example encode_url_path_root :
  encode_url_path accept_host "/" = Some ("/" : str).
Proof. reflexivity. Qed.

Example encode_url_path_query :
  encode_url_path accept_host "/books/OL10M/a b/edit?mode=add-work"
  = Some ("/books/OL10M/a%20b/edit?mode=add-work" : str).
Proof. reflexivity. Qed.

(** A bracket without its counterpart in the network location: [urlparse]
    raises, whatever [_check_bracketed_host] accepts. *)
Example encode_url_path_raises (check : str -> bool) :
  encode_url_path check "//[x" = None
  /\ encode_url_path check "//x]/a" = None.
Proof. split; reflexivity. Qed.

(** With both brackets, the text between them is what
    [_check_bracketed_host] is asked about. *)
Example encode_url_path_bracketed :
  let check := fun host : str => Py.str_eqb host "::1" in
  encode_url_path check "//[::1]:80/a b" = Some ("//[::1]:80/a%20b" : str)
  /\ encode_url_path check "//[::2]:80/a b" = None.
Proof. split; reflexivity. Qed.

(** ** Strings: basic facts *)

Lemma str_eqb_refl (a : str) : Py.str_eqb a a = true.
Proof.
  induction a as [|x a IH]; simpl; [reflexivity|].
  now rewrite Ascii.eqb_refl, IH.
Qed.

Lemma str_eqb_eq (a b : str) : Py.str_eqb a b = true <-> a = b.
Proof.
  split.
  - revert b; induction a as [|x a IH]; intros [|y b]; simpl;
      try discriminate; [reflexivity|].
    intros H; apply andb_prop in H as [H1 H2].
    apply Ascii.eqb_eq in H1; subst; f_equal; auto.
  - intros ->; apply str_eqb_refl.
Qed.

Lemma str_eqb_neq (a b : str) : Py.str_eqb a b = false <-> a <> b.
Proof.
  split.
  - intros H E; apply str_eqb_eq in E; congruence.
  - intros H; destruct (Py.str_eqb a b) eqn:E; [|reflexivity].
    apply str_eqb_eq in E; contradiction.
Qed.

Lemma str_eqb_spec (a b : str) : reflect (a = b) (Py.str_eqb a b).
Proof.
  destruct (Py.str_eqb a b) eqn:E; constructor.
  - now apply str_eqb_eq.
  - now apply str_eqb_neq.
Qed.

Lemma startswith_app (p t : str) : Py.startswith (p ++ t) p = true.
Proof.
  induction p as [|x p IH]; simpl; [reflexivity|].
  now rewrite Ascii.eqb_refl.
Qed.

Lemma startswith_inv (s p : str) :
  Py.startswith s p = true -> s = p ++ skipn (length p) s.
Proof.
  revert s; induction p as [|x p IH]; intros s H; [reflexivity|].
  destruct s as [|y s]; simpl in H; [discriminate|].
  apply andb_prop in H as [H1 H2].
  apply Ascii.eqb_eq in H1; subst; simpl; f_equal; auto.
Qed.

Lemma skipn_app_exact (p t : str) : skipn (length p) (p ++ t) = t.
Proof. induction p; simpl; auto. Qed.

Lemma endswith_app (t p : str) : Py.endswith (t ++ p) p = true.
Proof. unfold Py.endswith; rewrite rev_app_distr; apply startswith_app. Qed.

Lemma endswith_inv (s p : str) :
  Py.endswith s p = true -> exists t, s = t ++ p.
Proof.
  unfold Py.endswith; intros H; apply startswith_inv in H.
  exists (rev (skipn (length (rev p)) (rev s))).
  rewrite <- (rev_involutive p) at 2.
  rewrite <- rev_app_distr, <- H; symmetry; apply rev_involutive.
Qed.

Lemma rcut_app_sep (c : ascii) (a b : str) :
  Py.rcut c (a ++ c :: b) =
  match Py.rcut c b with
  | Some (b1, b2) => Some (a ++ c :: b1, b2)
  | None => Some (a, b)
  end.
Proof.
  induction a as [|x a IH]; simpl.
  - destruct (Py.rcut c b) as [[b1 b2]|]; [reflexivity|].
    now rewrite Ascii.eqb_refl.
  - rewrite IH; destruct (Py.rcut c b) as [[b1 b2]|]; reflexivity.
Qed.

Lemma last_segment_app_sep (c : ascii) (a b : str) :
  Py.last_segment c (a ++ c :: b) = Py.last_segment c b.
Proof.
  unfold Py.last_segment; rewrite rcut_app_sep.
  destruct (Py.rcut c b) as [[b1 b2]|]; reflexivity.
Qed.

Lemma rcut_some (c : ascii) (s b a : str) :
  Py.rcut c s = Some (b, a) -> s = b ++ c :: a.
Proof.
  revert b a; induction s as [|x s IH]; intros b a; simpl; [discriminate|].
  destruct (Py.rcut c s) as [[b1 a1]|] eqn:E.
  - intros [= <- <-]; now rewrite (IH _ _ eq_refl).
  - destruct (Ascii.eqb x c) eqn:Ex; [|discriminate].
    intros [= <- <-]; apply Ascii.eqb_eq in Ex; now subst.
Qed.

Lemma rcut_none (c : ascii) (s : str) : Py.rcut c s = None <-> ~ In c s.
Proof.
  induction s as [|x s IH]; simpl; [tauto|].
  destruct (Py.rcut c s) as [[b a]|] eqn:E.
  - split; [discriminate|]; intros H; exfalso; apply H; right.
    apply rcut_some in E as ->; apply in_or_app; right; left; reflexivity.
  - destruct (Ascii.eqb x c) eqn:Ex.
    + apply Ascii.eqb_eq in Ex; subst; split; [discriminate|].
      intros H; exfalso; apply H; left; reflexivity.
    + apply Ascii.eqb_neq in Ex; split; [|reflexivity].
      intros _ [H|H]; [congruence|]; revert H; now apply IH.
Qed.

(** ** The request context *)

Lemma log_all_nil (c : Ctx) : log_all [] c = c.
Proof. destruct c; unfold log_all; simpl; now rewrite app_nil_r. Qed.

Lemma log_lookup_all (k : str) (c : Ctx) : log_lookup k c = log_all [k] c.
Proof. reflexivity. Qed.

Lemma log_all_app (a b : list str) (c : Ctx) :
  log_all b (log_all a c) = log_all (a ++ b) c.
Proof. unfold log_all; simpl; now rewrite app_assoc. Qed.

(** ** The fallback lookup *)

Lemma bind_run {A B} (m : M A) (k : A -> M B) (c : Ctx) :
  bind m k c = k (fst (m c)) (snd (m c)).
Proof. unfold bind; destruct (m c); reflexivity. Qed.

Lemma first_found_app (site : Site) (a b : list str) :
  first_found site (a ++ b) =
  match first_found site a with
  | Some t => Some t
  | None => first_found site b
  end.
Proof.
  induction a as [|k a IH]; simpl; [reflexivity|].
  destruct (site k); auto.
Qed.

Lemma tried_app (site : Site) (a b : list str) :
  tried site (a ++ b) =
  match first_found site a with
  | Some _ => tried site a
  | None => tried site a ++ tried site b
  end.
Proof.
  induction a as [|k a IH]; simpl; [reflexivity|].
  destruct (site k); [reflexivity|].
  rewrite IH; destruct (first_found site a); reflexivity.
Qed.

Lemma first_found_in (site : Site) (ks : list str) (t : Thing) :
  first_found site ks = Some t -> exists k, In k ks /\ site k = Some t.
Proof.
  induction ks as [|k ks IH]; simpl; [discriminate|].
  destruct (site k) eqn:E.
  - intros [= <-]; eauto.
  - intros H; destruct (IH H) as (k' & Hin & Hk); eauto.
Qed.

Lemma first_found_none (site : Site) (ks : list str) :
  first_found site ks = None <-> forall k, In k ks -> site k = None.
Proof.
  induction ks as [|k ks IH]; simpl.
  - split; [intros _ k []|reflexivity].
  - destruct (site k) eqn:E.
    + split; [discriminate|]. intros H; rewrite <- E; apply H; now left.
    + rewrite IH; split.
      * intros H k' [<-|Hin]; auto.
      * intros H k' Hin; apply H; now right.
Qed.

Lemma last_segment_legacy (old new key : str) :
  Py.startswith key (old ++ ["/"%char]) = true ->
  Py.last_segment "/"
    ((new ++ ["/"%char]) ++ skipn (length (old ++ ["/"%char])) key)
  = Py.last_segment "/" key.
Proof.
  intros H; apply startswith_inv in H.
  rewrite H at 2.
  rewrite <- !app_assoc; simpl.
  now rewrite !last_segment_app_sep.
Qed.

Lemma get_object_unfold (site : Site) (key : str) :
  _get_object site key =
  (obj <- site_get site key ;;;
   ' (key, obj) <-
     (if is_none obj && Py.startswith key "/a/" then
        let key := "/authors/" ++ skipn (length "/a/") key in
        obj <- site_get site key ;;; ret (key, obj)
      else ret (key, obj)) ;;;
   ' (key, obj) <-
     (if is_none obj && Py.startswith key "/b/" then
        let key := "/books/" ++ skipn (length "/b/") key in
        obj <- site_get site key ;;; ret (key, obj)
      else ret (key, obj)) ;;;
   ' (key, obj) <-
     (if is_none obj && Py.startswith key "/user/" then
        let key := "/people/" ++ skipn (length "/user/") key in
        obj <- site_get site key ;;; ret (key, obj)
      else ret (key, obj)) ;;;
   basename_retries site (Py.last_segment "/" key) obj).
Proof. reflexivity. Qed.

(** One conditional retry extends the list of keys tried so far. *)
Lemma retry_run (site : Site) (cond : bool) (k : str) (ks : list str)
    (c : Ctx) :
  (if is_none (first_found site ks) && cond
   then site_get site k else ret (first_found site ks))
    (log_all (tried site ks) c) =
  (first_found site (ks ++ if cond then [k] else []),
   log_all (tried site (ks ++ if cond then [k] else [])) c).
Proof.
  rewrite first_found_app, tried_app.
  destruct (first_found site ks) as [t|]; simpl; [reflexivity|].
  destruct cond; simpl; unfold site_get, ret.
  - rewrite log_lookup_all, log_all_app.
    destruct (site k); reflexivity.
  - now rewrite app_nil_r.
Qed.

Lemma retry_run2 (site : Site) (c1 c2 : bool) (k : str) (ks : list str)
    (c : Ctx) :
  (if is_none (first_found site ks) && c1 && c2
   then site_get site k else ret (first_found site ks))
    (log_all (tried site ks) c) =
  (first_found site (ks ++ if c1 && c2 then [k] else []),
   log_all (tried site (ks ++ if c1 && c2 then [k] else [])) c).
Proof. rewrite <- andb_assoc; apply retry_run. Qed.

Lemma basename_retries_run (site : Site) (basename : str) (ks : list str)
    (c : Ctx) :
  basename_retries site basename (first_found site ks)
    (log_all (tried site ks) c) =
  (first_found site (ks ++ basename_candidates basename),
   log_all (tried site (ks ++ basename_candidates basename)) c).
Proof.
  unfold basename_retries, basename_candidates.
  rewrite bind_run, retry_run; cbn [fst snd].
  rewrite bind_run, retry_run2; cbn [fst snd].
  rewrite bind_run, retry_run2; cbn [fst snd].
  rewrite bind_run, retry_run2; cbn [fst snd].
  unfold ret; now rewrite <- !app_assoc.
Qed.

Ltac reduce_lit_prefix :=
  match goal with
  | |- context [Py.startswith (s2l ?lit ++ ?x) ?p] =>
      let v := eval cbn in (Py.startswith (s2l lit ++ x) p) in
      change (Py.startswith (s2l lit ++ x) p) with v
  end.

Ltac run_m :=
  repeat first
    [ rewrite bind_run
    | progress cbn [site_get ret fst snd is_none andb]
    | progress reduce_lit_prefix
    | rewrite andb_false_r ].

Lemma basename_retries_from (site : Site) (basename : str)
    (ks : list str) (c c1 : Ctx) (obj : option Thing) :
  obj = first_found site ks ->
  c1 = log_all (tried site ks) c ->
  basename_retries site basename obj c1 =
  (first_found site (ks ++ basename_candidates basename),
   log_all (tried site (ks ++ basename_candidates basename)) c).
Proof. intros -> ->; apply basename_retries_run. Qed.

Lemma found_second (site : Site) (k1 k2 : str) (c : Ctx) :
  site k1 = None ->
  site k2 = first_found site [k1; k2]
  /\ log_lookup k2 (log_lookup k1 c) = log_all (tried site [k1; k2]) c.
Proof.
  intros E; simpl; rewrite E; destruct (site k2); split; try reflexivity;
    unfold log_lookup, log_all; simpl; now rewrite <- app_assoc.
Qed.

Lemma get_object_run (site : Site) (key : str) (c : Ctx) :
  _get_object site key c =
  (first_found site (candidates key),
   log_all (tried site (candidates key)) c).
Proof.
  assert (La : Py.startswith key "/a/" = true ->
               Py.last_segment "/" ("/authors/" ++ skipn (length "/a/") key)
               = Py.last_segment "/" key)
    by exact (@last_segment_legacy "/a" "/authors" key).
  assert (Lb : Py.startswith key "/b/" = true ->
               Py.last_segment "/" ("/books/" ++ skipn (length "/b/") key)
               = Py.last_segment "/" key)
    by exact (@last_segment_legacy "/b" "/books" key).
  assert (Lu : Py.startswith key "/user/" = true ->
               Py.last_segment "/" ("/people/" ++ skipn (length "/user/") key)
               = Py.last_segment "/" key)
    by exact (@last_segment_legacy "/user" "/people" key).
  rewrite get_object_unfold.
  unfold candidates, legacy_candidates.
  rewrite bind_run; cbn [site_get fst snd].
  destruct (site key) as [t|] eqn:E0.
  - run_m.
    rewrite (@basename_retries_from site _ [key] c (log_lookup key c) (Some t))
      by (simpl; now rewrite E0).
    simpl; now rewrite E0.
  - cbn [is_none andb].
    destruct (Py.startswith key "/a/") eqn:Ea;
      [|destruct (Py.startswith key "/b/") eqn:Eb;
        [|destruct (Py.startswith key "/user/") eqn:Eu]];
      repeat (progress
                (run_m;
                 repeat match goal with
                        | H : Py.startswith key _ = _ |- _ => rewrite H
                        end));
      rewrite ?(La eq_refl), ?(Lb eq_refl), ?(Lu eq_refl).
    + destruct (@found_second site key ("/authors/" ++ skipn 3 key) c E0) as [F1 F2].
      exact (@basename_retries_from site _ [key; "/authors/" ++ skipn 3 key]
               c _ _ F1 F2).
    + destruct (@found_second site key ("/books/" ++ skipn 3 key) c E0) as [F1 F2].
      exact (@basename_retries_from site _ [key; "/books/" ++ skipn 3 key]
               c _ _ F1 F2).
    + destruct (@found_second site key ("/people/" ++ skipn 6 key) c E0) as [F1 F2].
      exact (@basename_retries_from site _ [key; "/people/" ++ skipn 6 key]
               c _ _ F1 F2).
    + apply (@basename_retries_from site _ [key] c); simpl; now rewrite E0.
Qed.

(** ** Resolution *)

Section ResolverFacts.

Variable urlsafe : str -> str.
Variable is_exclusion : option Thing -> bool.

Local Abbreviation resolve := (get_readable_path urlsafe is_exclusion).

Lemma resolve_no_match (site : Site) (path : str) (pats : list Rule)
    (enc : option str) (c : Ctx) :
  match_ pats path = None ->
  resolve site path pats enc c = ((path, path), c).
Proof. unfold get_readable_path; now intros ->. Qed.

Lemma resolve_ext (site : Site) (path : str) (pats : list Rule)
    (enc : option str) (c : Ctx) (m : MatchResult) :
  match_ pats path = Some m ->
  negb (is_none enc) || Py.endswith_any path known_exts = true ->
  resolve site path pats enc c =
  (let o := first_found site (candidates (fst (OsPath.splitext path))) in
   let p := match o with
            | Some t => thing_key t ++ snd (OsPath.splitext path)
            | None => path
            end in
   (p, p),
   log_all (tried site (candidates (fst (OsPath.splitext path)))) c).
Proof.
  unfold get_readable_path; intros -> H.
  change (map s2l [".json"; ".rdf"; ".yml"]) with known_exts.
  rewrite H; destruct (OsPath.splitext path) as [key ext]; simpl.
  unfold bind; rewrite get_object_run; reflexivity.
Qed.

Lemma resolve_slug (site : Site) (path : str) (pats : list Rule)
    (enc : option str) (c : Ctx) (m : MatchResult) :
  match_ pats path = Some m ->
  negb (is_none enc) || Py.endswith_any path known_exts = false ->
  resolve site path pats enc c =
  (let o := first_found site (candidates (m_prefix m)) in
   (resolved_prefix o m ++ m_suffix m,
    resolved_prefix o m ++ resolved_middle urlsafe o m ++ m_suffix m),
   let c' := log_all (tried site (candidates (m_prefix m))) c in
   if is_exclusion (first_found site (candidates (m_prefix m)))
   then with_exclude true c' else c').
Proof.
  unfold get_readable_path; intros -> H.
  change (map s2l [".json"; ".rdf"; ".yml"]) with known_exts.
  rewrite H; unfold bind; rewrite get_object_run.
  unfold resolved_prefix, resolved_middle, Web.safeunicode.
  destruct (is_exclusion _); reflexivity.
Qed.

(** The paths returned by a resolution do not depend on the request
    context it starts from. *)
Lemma resolve_value (site : Site) (path : str) (pats : list Rule)
    (enc : option str) (c c' : Ctx) :
  fst (resolve site path pats enc c) = fst (resolve site path pats enc c').
Proof.
  destruct (match_ pats path) as [m|] eqn:Em.
  - destruct (negb (is_none enc) || Py.endswith_any path known_exts) eqn:Eb.
    + now rewrite !(resolve_ext site path pats enc _ m Em Eb).
    + now rewrite !(resolve_slug site path pats enc _ m Em Eb).
  - now rewrite !resolve_no_match.
Qed.

End ResolverFacts.

(** ** The processor *)

Section ProcessorFacts.

Variable urlsafe : str -> str.
Variable is_exclusion : option Thing -> bool.
Variable Out : Type.
Variable render_notfound : str -> Out.
Variable check_bracketed_host : str -> bool.

Local Abbreviation resolve := (get_readable_path urlsafe is_exclusion).
Local Abbreviation call :=
  (__call__ urlsafe is_exclusion Out render_notfound check_bracketed_host).
Local Abbreviation readable_of :=
  (request_readable urlsafe is_exclusion check_bracketed_host).
Local Abbreviation real_of :=
  (request_real urlsafe is_exclusion check_bracketed_host).

(** A resolution only records lookups and may raise the exclusion flag. *)
Lemma resolve_ctx (site : Site) (path : str) (pats : list Rule)
    (enc : option str) (c : Ctx) :
  exists ks b,
    snd (resolve site path pats enc c) =
    log_all ks (if b : bool then with_exclude true c else c).
Proof.
  destruct (match_ pats path) as [m|] eqn:Em.
  - destruct (negb (is_none enc) || Py.endswith_any path known_exts) eqn:Eb.
    + rewrite (resolve_ext _ _ site path pats enc c m Em Eb).
      now eexists _, false.
    + rewrite (resolve_slug _ _ site path pats enc c m Em Eb).
      cbn [snd]; destruct (is_exclusion _); [now eexists _, true|].
      now eexists _, false.
  - rewrite resolve_no_match by assumption.
    exists [], false; now rewrite log_all_nil.
Qed.

Lemma resolve_keeps (site : Site) (path : str) (pats : list Rule)
    (enc : option str) (c : Ctx) :
  let c' := snd (resolve site path pats enc c) in
  ctx_path c' = ctx_path c /\ ctx_query c' = ctx_query c
  /\ ctx_method c' = ctx_method c /\ ctx_encoding c' = ctx_encoding c.
Proof.
  destruct (resolve_ctx site path pats enc c) as (ks & b & E).
  cbv zeta; rewrite E; destruct b; auto.
Qed.

Lemma after_legacy_keeps (c : Ctx) :
  ctx_path (after_legacy c) = ctx_path c
  /\ ctx_query (after_legacy c) = ctx_query c
  /\ ctx_method (after_legacy c) = ctx_method c
  /\ ctx_encoding (after_legacy c) = ctx_encoding c.
Proof.
  unfold after_legacy.
  destruct (Py.startswith (ctx_path c) "/l/"); auto.
  destruct (Py.startswith (ctx_path c) "/user/"); auto.
Qed.

(** The processor, step by step. *)
Lemma call_run (site : Site) (pats : list Rule) (handler : M Out)
    (c : Ctx) :
  call site pats handler c =
  match legacy_redirect site (ctx_path c) with
  | Some url => (inl (SeeOther url), after_legacy c)
  | None =>
      let c' := snd (resolutions urlsafe is_exclusion site pats c) in
      match readable_of site pats c, real_of site pats c with
      | Some readable, Some real =>
          if must_redirect readable (ctx_path c) (ctx_method c)
          then (inl (Redirect (readable ++ ctx_query c)), c')
          else after_handler render_notfound
                 (handler (with_paths readable real c'))
      | _, _ => (inl ValueError, c')
      end
  end.
Proof.
  unfold __call__, legacy_redirect.
  rewrite bind_run; cbn [gets fst snd].
  destruct (Py.startswith (ctx_path c) "/l/") eqn:El;
    [unfold after_legacy; now rewrite El|].
  rewrite bind_run.
  assert (Guard :
      (if Py.startswith (ctx_path c) "/user/"
       then obj <- site_get site (ctx_path c) ;;; ret (is_none obj)
       else ret false) c =
      (Py.startswith (ctx_path c) "/user/" && is_none (site (ctx_path c)),
       after_legacy c)).
  { unfold after_legacy; rewrite El.
    destruct (Py.startswith (ctx_path c) "/user/"); reflexivity. }
  rewrite Guard; cbn [fst snd]; clear Guard.
  destruct (Py.startswith (ctx_path c) "/user/"
            && is_none (site (ctx_path c))); [reflexivity|].
  unfold request_readable, request_real, resolutions.
  destruct (after_legacy_keeps c) as (Kp & Kq & Km & Ke).
  set (c1 := after_legacy c) in *.
  rewrite bind_run; cbn [gets fst snd]; rewrite Ke.
  rewrite bind_run.
  destruct (resolve_keeps site (ctx_path c) pats (ctx_encoding c) c1)
    as (Kp1 & Kq1 & Km1 & Ke1).
  set (c2 := snd (resolve site (ctx_path c) pats (ctx_encoding c) c1)) in *.
  rewrite bind_run.
  destruct (resolve_keeps site (Py.rstrip "/" (ctx_path c)) pats
              (ctx_encoding c) c2) as (Kp2 & Kq2 & Km2 & Ke2).
  destruct (resolve site (Py.rstrip "/" (ctx_path c)) pats
              (ctx_encoding c) c2) as [[real readable] c3].
  cbn [fst snd] in *; cbv zeta; unfold final_readable.
  destruct (encode_url_path check_bracketed_host
              (if Py.endswith readable "/"
               then Py.rstrip "/" readable else readable))
    as [readable'|]; [|reflexivity].
  destruct (encode_url_path check_bracketed_host real) as [real'|];
    [|reflexivity].
  rewrite !bind_run; cbn [gets fst snd].
  rewrite Km2, Km1, Km, Kq2, Kq1, Kq.
  unfold must_redirect, Web.safeunicode.
  match goal with |- context [if ?b then ret _ else _] => destruct b end;
    [reflexivity|].
  rewrite !bind_run; cbn [modify gets fst snd].
  unfold after_handler.
  destruct (handler _) as [out c4]; cbn [fst snd].
  destruct (ctx_exclude c4); [|reflexivity].
  rewrite !bind_run; reflexivity.
Qed.

(** The context handed to the handler is the one after the two
    resolutions, with the two encoded paths installed. *)
Lemma handler_ctx_some (site : Site) (pats : list Rule) (c d : Ctx) :
  handler_ctx urlsafe is_exclusion check_bracketed_host site pats c = Some d
  <-> exists readable real,
        readable_of site pats c = Some readable
        /\ real_of site pats c = Some real
        /\ d = with_paths readable real
                 (snd (resolutions urlsafe is_exclusion site pats c)).
Proof.
  unfold handler_ctx.
  destruct (readable_of site pats c) as [readable|];
    [destruct (real_of site pats c) as [real|]|].
  - split; [intros [= <-]; now exists readable, real|].
    intros (r1 & r2 & [= <-] & [= <-] & ->); reflexivity.
  - split; [discriminate|]; intros (r1 & r2 & _ & H & _); discriminate.
  - split; [discriminate|]; intros (r1 & r2 & H & _); discriminate.
Qed.

End ProcessorFacts.

(** ** Percent-encoding and extensions *)

Lemma all_ascii (P : ascii -> Prop) :
  (forall b0 b1 b2 b3 b4 b5 b6 b7, P (Ascii b0 b1 b2 b3 b4 b5 b6 b7)) ->
  forall c, P c.
Proof. intros H [b0 b1 b2 b3 b4 b5 b6 b7]; apply H. Qed.

Ltac by_cases_on_char c :=
  pattern c; apply all_ascii;
  intros [] [] [] [] [] [] [] []; vm_compute; try reflexivity;
  try discriminate; auto.

Lemma quote_char_plus_no_slash (c : ascii) :
  forallb (fun x => negb (Ascii.eqb x "/"))
          (Urllib.quote_char (Ascii.eqb " ") c) = true
  /\ forallb (fun x => negb (Ascii.eqb x "/"))
             (Urllib.quote_char (fun _ => false) c) = true.
Proof. by_cases_on_char c. Qed.

Lemma no_slash_flat_map (f : ascii -> str) (s : str) :
  (forall c, forallb (fun x => negb (Ascii.eqb x "/")) (f c) = true) ->
  forallb (fun x => negb (Ascii.eqb x "/")) (flat_map f s) = true.
Proof.
  intros H; induction s as [|c s IH]; simpl; [reflexivity|].
  now rewrite forallb_app, H, IH.
Qed.

(** A slug never contains a slash: it is a single path segment. *)
Lemma quote_plus_no_slash (s : str) : ~ In "/"%char (Urllib.quote_plus s).
Proof.
  assert (H : forallb (fun x => negb (Ascii.eqb x "/"))
                      (Urllib.quote_plus s) = true).
  { unfold Urllib.quote_plus, Urllib.quote_with, Py.replace.
    destruct (Py.contains " " s).
    - rewrite forallb_forall; intros x Hx.
      apply in_map_iff in Hx as (y & <- & Hy).
      assert (Hs : forallb (fun x => negb (Ascii.eqb x "/"))
                     (flat_map (Urllib.quote_char (Ascii.eqb " ")) s) = true)
        by (apply no_slash_flat_map; intros c; apply quote_char_plus_no_slash).
      rewrite forallb_forall in Hs; specialize (Hs y Hy).
      destruct (Ascii.eqb y " "); [reflexivity|assumption].
    - apply no_slash_flat_map; intros c; apply quote_char_plus_no_slash. }
  rewrite forallb_forall in H; intros Hin; specialize (H _ Hin).
  now rewrite Ascii.eqb_refl in H.
Qed.

(** [quote] keeps a final slash. *)
Lemma quote_keeps_final_slash (s : str) :
  Py.endswith s "/" = true -> Py.endswith (Urllib.quote s) "/" = true.
Proof.
  intros H; apply endswith_inv in H as [t ->].
  unfold Urllib.quote, Urllib.quote_with; rewrite flat_map_app.
  apply endswith_app.
Qed.

Lemma rcut_app_notin (c : ascii) (s e : str) :
  ~ In c e ->
  Py.rcut c (s ++ e) =
  match Py.rcut c s with
  | Some (b, a) => Some (b, a ++ e)
  | None => None
  end.
Proof.
  intros He; induction s as [|x s IH]; simpl.
  - now apply rcut_none.
  - rewrite IH; destruct (Py.rcut c s) as [[b a]|]; [reflexivity|].
    destruct (Ascii.eqb x c); reflexivity.
Qed.

(** Splitting off the extension and putting it back gives the path. *)
Lemma splitext_recombine (p : str) :
  fst (OsPath.splitext p) ++ snd (OsPath.splitext p) = p.
Proof.
  unfold OsPath.splitext.
  destruct (Py.rcut "/" p) as [[b a]|] eqn:Ep.
  - apply rcut_some in Ep; subst p.
    destruct (Py.rcut "." a) as [[stem e]|] eqn:Ea; simpl;
      [|now rewrite app_nil_r].
    apply rcut_some in Ea; subst a.
    destruct (forallb _ stem); simpl; [now rewrite app_nil_r|].
    now rewrite <- !app_assoc.
  - destruct (Py.rcut "." p) as [[stem e]|] eqn:Ea; simpl;
      [|now rewrite app_nil_r].
    apply rcut_some in Ea; subst p.
    destruct (forallb _ stem); simpl; [now rewrite app_nil_r|reflexivity].
Qed.

(** A known extension is the one split off, provided the last segment has
    some character other than a dot in front of it. *)
Lemma splitext_known (stem e : str) :
  In e known_exts ->
  forallb (Ascii.eqb ".") (Py.last_segment "/" stem) = false ->
  OsPath.splitext (stem ++ e) = (stem, e).
Proof.
  intros He Hd.
  assert (Hs : exists e', e = "."%char :: e' /\ ~ In "/"%char e
                          /\ ~ In "."%char e').
  { simpl in He; destruct He as [<-|[<-|[<-|[]]]];
      (eexists; split; [reflexivity|]; split; simpl; intuition discriminate).
  }
  destruct Hs as (e' & -> & Hslash & Hdot).
  unfold OsPath.splitext, Py.last_segment in *.
  rewrite rcut_app_notin by assumption.
  destruct (Py.rcut "/" stem) as [[b a]|] eqn:Es.
  - rewrite rcut_app_sep.
    apply rcut_none in Hdot; rewrite Hdot, Hd.
    apply rcut_some in Es; subst stem; now rewrite <- app_assoc.
  - rewrite rcut_app_sep.
    apply rcut_none in Hdot; rewrite Hdot, Hd; reflexivity.
Qed.

(** The test of the specification on the last segment implies the test of
    the code. *)
Lemma olid_tested (letter : ascii) (basename : str) :
  olid letter basename = true ->
  Py.startswith basename "OL" && Py.endswith basename [letter] = true.
Proof.
  unfold olid; intros H; apply andb_prop in H as [H1 H2].
  rewrite H1; cbn [andb].
  pose proof (startswith_inv _ _ H1) as E.
  change (length "OL") with 2 in E.
  destruct (rev (skipn 2 basename)) as [|l d] eqn:R; [discriminate|].
  apply andb_prop in H2 as [H2 _]; apply andb_prop in H2 as [H2 _].
  apply Ascii.eqb_eq in H2; subst l.
  unfold Py.endswith; rewrite E, rev_app_distr, R; cbn.
  now rewrite Ascii.eqb_refl.
Qed.

Lemma spec_candidates_tried (key k : str) :
  In k (spec_candidates key) -> In k (candidates key).
Proof.
  unfold spec_candidates, candidates, basename_candidates.
  set (b := Py.last_segment "/" key).
  intros [<-|H]; [now left|right].
  apply in_app_or in H as [H|H]; apply in_or_app; [now left|right].
  apply in_app_or in H as [H|H]; apply in_or_app; [now left|right].
  apply in_app_or in H as [H|H]; apply in_or_app.
  { left; destruct (olid "W" b) eqn:E; [|destruct H].
    pose proof (olid_tested "W" b E) as T.
    change ["W"%char] with (s2l "W") in T; now rewrite T. }
  right.
  apply in_app_or in H as [H|H]; apply in_or_app.
  { left; destruct (olid "M" b) eqn:E; [|destruct H].
    pose proof (olid_tested "M" b E) as T.
    change ["M"%char] with (s2l "M") in T; now rewrite T. }
  right; destruct (olid "A" b) eqn:E; [|destruct H].
  pose proof (olid_tested "A" b E) as T.
  change ["A"%char] with (s2l "A") in T; now rewrite T.
Qed.

(** ** Matching *)

Lemma plus_results_suffix (f : ascii -> bool) (s rem : str) :
  In rem (Re.plus_results f s) ->
  exists pre x, s = (pre ++ [x]) ++ rem /\ f x = true.
Proof.
  revert rem; induction s as [|y s IH]; intros rem; simpl; [tauto|].
  destruct (f y) eqn:Ey; [|intros []].
  intros H; apply in_app_or in H as [H|[<-|[]]].
  - destruct (IH _ H) as (pre & x & -> & Hx).
    exists (y :: pre), x; split; [reflexivity|assumption].
  - exists [], y; split; [reflexivity|assumption].
Qed.

(** Every match leaves a suffix of the text; the text consumed is empty
    only for a nullable pattern and ends with a character the pattern can
    end with. *)
Lemma match_re_end (r : Re.re) (s rem : str) :
  In rem (Re.match_re r s) ->
  exists pre,
    s = pre ++ rem
    /\ match rev pre with
       | [] => nullable r = true
       | x :: _ => can_end r x = true
       end.
Proof.
  revert s rem; induction r as [l|f|r1 IH1 r2 IH2]; intros s rem; simpl.
  - destruct (Py.startswith s l) eqn:E; [|intros []].
    intros [<-|[]]; exists l; split; [now apply startswith_inv|].
    destruct (rev l) eqn:El; [|apply Ascii.eqb_refl].
    apply (f_equal (@rev ascii)) in El; rewrite rev_involutive in El.
    now subst l.
  - intros H; apply plus_results_suffix in H as (pre & x & -> & Hx).
    exists (pre ++ [x]); split; [reflexivity|].
    now rewrite rev_app_distr.
  - intros H; apply in_flat_map in H as (mid & H1 & H2).
    destruct (IH1 _ _ H1) as (pre1 & -> & E1).
    destruct (IH2 _ _ H2) as (pre2 & -> & E2).
    exists (pre1 ++ pre2); split; [now rewrite app_assoc|].
    rewrite rev_app_distr.
    destruct (rev pre2) as [|x2 t2]; simpl.
    + rewrite E2; destruct (rev pre1); [now rewrite E1|].
      now rewrite E1, orb_true_r.
    + now rewrite E2.
Qed.

Lemma match_re_suffix (r : Re.re) (s rem : str) :
  In rem (Re.match_re r s) -> exists pre, s = pre ++ rem.
Proof. intros H; destruct (match_re_end r s rem H) as (pre & E & _); eauto. Qed.

Lemma firstn_prefix (pre rem : str) :
  firstn (length (pre ++ rem) - length rem) (pre ++ rem) = pre.
Proof.
  rewrite length_app, Nat.add_sub.
  rewrite firstn_app, Nat.sub_diag, firstn_all; simpl; apply app_nil_r.
Qed.

Lemma lstrips_prefix (pre rem : str) : Web.lstrips (pre ++ rem) pre = rem.
Proof.
  unfold Web.lstrips; rewrite startswith_app; apply skipn_app_exact.
Qed.

Lemma first_rule_prefix (pats : list Rule) (path : str) (rule : Rule)
    (rem : str) :
  first_rule pats path = Some (rule, rem) ->
  exists pre, path = pre ++ rem.
Proof.
  induction pats as [|r0 pats IH]; simpl; [discriminate|].
  destruct (Re.match_re (fst (fst (fst r0))) path) as [|rem0 l] eqn:E; auto.
  intros [= <- <-]; apply (match_re_suffix (fst (fst (fst r0)))).
  rewrite E; now left.
Qed.

(** [match] is the first matching rule together with the decomposition of
    what follows the matched prefix. *)
Lemma match_first_rule (pats : list Rule) (path : str) :
  match_ pats path = option_map (match_of path) (first_rule pats path).
Proof.
  induction pats as [|[[[pat ty] prop] dflt] pats IH]; simpl; [reflexivity|].
  unfold Re.re_match.
  destruct (Re.match_re pat path) as [|rem l] eqn:E; [exact IH|].
  destruct (match_re_suffix pat path rem) as (pre & ->);
    [rewrite E; now left|].
  simpl; unfold tail_parts; rewrite firstn_prefix, lstrips_prefix.
  reflexivity.
Qed.

Lemma match_prefix (pats : list Rule) (path : str) (m : MatchResult) :
  match_ pats path = Some m ->
  exists rule rem,
    first_rule pats path = Some (rule, rem)
    /\ path = m_prefix m ++ rem
    /\ m = match_of path (rule, rem).
Proof.
  rewrite match_first_rule.
  destruct (first_rule pats path) as [[rule rem]|] eqn:E; [|discriminate].
  intros [= <-]; exists rule, rem; split; [reflexivity|].
  destruct (first_rule_prefix _ _ _ _ E) as (pre & ->).
  destruct rule as [[[pat ty] prop] dflt]; simpl.
  now rewrite firstn_prefix.
Qed.

(** ** One more character at the end of the text *)

Lemma startswith_snoc (s l : str) (c : ascii) :
  Py.startswith s l = true ->
  Py.startswith (s ++ [c]) l = true
  /\ skipn (length l) (s ++ [c]) = skipn (length l) s ++ [c].
Proof.
  revert s; induction l as [|x l IH]; intros s; simpl; [auto|].
  destruct s as [|y s]; [discriminate|]; simpl.
  intros H; apply andb_prop in H as [H1 H2].
  rewrite H1; simpl; now apply IH.
Qed.

Lemma startswith_only_snoc (s l : str) (c : ascii) :
  Py.startswith s l = false ->
  Py.startswith (s ++ [c]) l = true ->
  skipn (length l) (s ++ [c]) = [].
Proof.
  revert s; induction l as [|x l IH]; intros s; simpl; [discriminate|].
  destruct s as [|y s]; simpl.
  - intros _ H; apply andb_prop in H as [_ H].
    destruct l; [reflexivity|discriminate].
  - destruct (Ascii.eqb x y); simpl; [apply IH|discriminate].
Qed.

Lemma plus_results_snoc (f : ascii -> bool) (s : str) (c : ascii) :
  filter Py.truthy (Re.plus_results f (s ++ [c])) =
  map (fun rem => rem ++ [c]) (Re.plus_results f s).
Proof.
  induction s as [|x s IH]; simpl.
  - destruct (f c); reflexivity.
  - destruct (f x); [|reflexivity].
    rewrite filter_app, IH, map_app; simpl.
    now destruct s.
Qed.

Lemma match_re_nil (r : Re.re) : filter Py.truthy (Re.match_re r []) = [].
Proof.
  assert (H : forall rem, In rem (Re.match_re r []) -> rem = []).
  { intros rem H; apply match_re_suffix in H as (pre & E).
    symmetry in E; now apply app_eq_nil in E. }
  induction (Re.match_re r []) as [|x l IH]; [reflexivity|].
  simpl; rewrite (H x) by now left.
  apply IH; intros rem Hr; apply H; now right.
Qed.

Lemma filter_flat_map {A B} (p : B -> bool) (g : A -> list B) (l : list A) :
  filter p (flat_map g l) = flat_map (fun x => filter p (g x)) l.
Proof.
  induction l as [|x l IH]; simpl; [reflexivity|].
  now rewrite filter_app, IH.
Qed.

(** The matches on a text with one more character at its end are the
    matches on the text, in the same order, and possibly matches that
    consume everything. *)
Lemma match_re_snoc (r : Re.re) (s : str) (c : ascii) :
  filter Py.truthy (Re.match_re r (s ++ [c])) =
  map (fun rem => rem ++ [c]) (Re.match_re r s).
Proof.
  revert s; induction r as [l|f|r1 IH1 r2 IH2]; intros s; simpl.
  - destruct (Py.startswith s l) eqn:E.
    + destruct (startswith_snoc s l c E) as [-> ->]; simpl.
      now destruct (skipn (length l) s).
    + destruct (Py.startswith (s ++ [c]) l) eqn:E'; [|reflexivity].
      now rewrite (startswith_only_snoc s l c E E').
  - apply plus_results_snoc.
  - rewrite filter_flat_map.
    specialize (IH1 s).
    revert IH1; generalize (Re.match_re r1 (s ++ [c])) as L'.
    induction (Re.match_re r1 s) as [|t L IHL]; intros L'.
    + induction L' as [|x L' IHL']; simpl; [reflexivity|].
      destruct x; simpl; [|discriminate].
      intros H; rewrite match_re_nil; simpl; auto.
    + induction L' as [|x L' IHL']; simpl; [discriminate|].
      destruct x as [|y x]; simpl.
      * intros H; rewrite match_re_nil; simpl; auto.
      * intros [= E1 E2]; rewrite E1, IH2, map_app.
        f_equal; apply IHL; exact E2.
Qed.

Lemma match_re_snoc_exact (r : Re.re) (s : str) (c : ascii) :
  can_end r c = false ->
  Re.match_re r (s ++ [c]) = map (fun rem => rem ++ [c]) (Re.match_re r s).
Proof.
  intros Hc; rewrite <- match_re_snoc.
  symmetry; apply forallb_filter_id, forallb_forall.
  intros [|x rem] H; [|reflexivity].
  apply match_re_end in H as (pre & E & He).
  rewrite app_nil_r in E; subst pre.
  rewrite rev_app_distr in He; simpl in He; congruence.
Qed.

Lemma first_rule_snoc (pats : list Rule) (path : str) (c : ascii) :
  Forall (fun rule : Rule => can_end (fst (fst (fst rule))) c = false) pats ->
  first_rule pats (path ++ [c]) =
  option_map (fun found : Rule * str => (fst found, snd found ++ [c]))
             (first_rule pats path).
Proof.
  induction 1 as [|rule pats Hc _ IH]; simpl; [reflexivity|].
  rewrite (match_re_snoc_exact _ path c Hc).
  destruct (Re.match_re (fst (fst (fst rule))) path); simpl; auto.
Qed.

Lemma cut_inv (c : ascii) (s a r : str) :
  Py.cut c s = (a, Some r) -> s = a ++ c :: r.
Proof.
  revert a; induction s as [|x s IH]; intros a; simpl; [discriminate|].
  destruct (Ascii.eqb x c) eqn:E.
  - intros [= <- <-]; apply Ascii.eqb_eq in E; now subst.
  - destruct (Py.cut c s) as [a' r']; intros [= <- ->].
    simpl; f_equal; now apply IH.
Qed.

Lemma cut_snoc (c : ascii) (s : str) :
  Py.cut c (s ++ [c]) =
  match Py.cut c s with
  | (a, None) => (a, Some [])
  | (a, Some r) => (a, Some (r ++ [c]))
  end.
Proof.
  induction s as [|x s IH]; simpl; [now rewrite Ascii.eqb_refl|].
  destruct (Ascii.eqb x c); [reflexivity|].
  rewrite IH; destruct (Py.cut c s) as [a [r|]]; reflexivity.
Qed.

Lemma endswith_app_r (pre s p : str) :
  Py.endswith s p = true -> Py.endswith (pre ++ s) p = true.
Proof.
  intros H; apply endswith_inv in H as [t ->].
  rewrite app_assoc; apply endswith_app.
Qed.

(** With no suffix and no final slash, one more slash at the end changes
    neither the middle nor the suffix. *)
Lemma tail_parts_snoc (extra : str) :
  snd (tail_parts extra) = [] ->
  Py.endswith extra "/" = false ->
  tail_parts (extra ++ "/") = tail_parts extra.
Proof.
  unfold tail_parts, Web.listget; simpl.
  change (s2l "/") with ["/"%char].
  rewrite cut_snoc.
  destruct (Py.cut "/" extra) as [a [r|]] eqn:E1; [|reflexivity].
  rewrite cut_snoc.
  destruct (Py.cut "/" r) as [b [r2|]] eqn:E2; [|reflexivity].
  simpl; destruct r2; simpl; [|discriminate].
  intros _ H; exfalso.
  apply cut_inv in E1, E2; subst.
  assert (Py.endswith (a ++ "/"%char :: b ++ ["/"%char]) ["/"%char] = true);
    [|congruence].
  change (a ++ "/"%char :: b ++ ["/"%char])
    with (a ++ ("/"%char :: b) ++ ["/"%char]).
  rewrite app_assoc; apply endswith_app.
Qed.

Lemma patterns_no_final_slash :
  Forall (fun rule : Rule => can_end (fst (fst (fst rule))) "/" = false)
         patterns.
Proof. repeat constructor. Qed.

Lemma rstrip_snoc (c : ascii) (s : str) :
  Py.rstrip c (s ++ [c]) = Py.rstrip c s.
Proof.
  induction s as [|x s IH]; simpl; [now rewrite Ascii.eqb_refl|].
  now rewrite IH.
Qed.

Lemma endswith_any_slash (path : str) :
  Py.endswith_any (path ++ "/") known_exts = false.
Proof.
  unfold Py.endswith_any, Py.endswith, known_exts; simpl.
  change (s2l "/") with ["/"%char]; rewrite rev_app_distr; reflexivity.
Qed.

(** A rule-matching path with an empty suffix and no final slash is
    decomposed in the same way with one more slash at its end. *)
Lemma match_snoc_slash (pats : list Rule) (path : str) (m : MatchResult) :
  Forall (fun rule : Rule => can_end (fst (fst (fst rule))) "/" = false)
         pats ->
  match_ pats path = Some m ->
  m_suffix m = [] ->
  Py.endswith path "/" = false ->
  match_ pats (path ++ "/") = Some m.
Proof.
  intros Hp Hm Hs He.
  rewrite match_first_rule in Hm |- *.
  change (s2l "/") with ["/"%char].
  rewrite (first_rule_snoc pats path "/" Hp).
  destruct (first_rule pats path) as [[rule rem]|] eqn:Hr; [|discriminate].
  destruct (first_rule_prefix _ _ _ _ Hr) as (pre & ->).
  cbn [option_map fst snd] in *; injection Hm as <-; f_equal.
  destruct rule as [[[pat ty] prop] dflt]; cbn [match_of m_suffix] in *.
  assert (Hrem : Py.endswith rem "/" = false).
  { destruct (Py.endswith rem "/") eqn:E; [|reflexivity].
    now rewrite (endswith_app_r _ _ _ E) in He. }
  change ["/"%char] with (s2l "/").
  rewrite (tail_parts_snoc rem Hs Hrem).
  now rewrite <- app_assoc, !firstn_prefix.
Qed.

(** ** The first segment of a path *)


Lemma word_not_slash (x : ascii) : Re.word x = true -> x <> "/"%char.
Proof.
  intros H ->; vm_compute in H; discriminate.
Qed.

(** After a first segment of word characters, a pattern that goes on with
    a slash ignores how the segment is spelled. *)
Lemma first_segment_run (cls : ascii -> bool) (g : str -> list str)
    (w t : str) :
  w <> [] ->
  (forall x, In x w -> cls x = true) ->
  (forall x u, In x w -> g (x :: u) = []) ->
  flat_map g (Re.plus_results cls (w ++ t)) =
  flat_map g (Re.plus_results cls t) ++ g t.
Proof.
  intros Hw Hc Hg; induction w as [|x w IH]; [contradiction|].
  simpl; rewrite (Hc x) by now left.
  rewrite flat_map_app; simpl; rewrite app_nil_r.
  destruct w as [|y w]; [reflexivity|].
  rewrite IH.
  - simpl; rewrite (Hg y) by (right; now left).
    now rewrite app_nil_r.
  - discriminate.
  - intros z Hz; apply Hc; now right.
  - intros z u Hz; apply Hg; now right.
Qed.

Lemma lit_slash_rejects (l : str) (rest : Re.re) (x : ascii) (u : str) :
  x <> "/"%char ->
  Re.match_re (Re.Lit ("/"%char :: l) ;; rest) (x :: u) = [].
Proof.
  intros Hx; cbn [Re.match_re Py.startswith].
  destruct (Ascii.eqb_spec "/"%char x) as [E|_]; [congruence|reflexivity].
Qed.

Lemma is_name_inv (w : str) :
  is_name w = true -> w <> [] /\ forall x, In x w -> Re.word x = true.
Proof.
  unfold is_name; intros H; apply andb_prop in H as [H1 H2].
  split; [now destruct w|]; now apply forallb_forall.
Qed.

Lemma segment_match (cls : ascii -> bool) (l : str) (rest : Re.re)
    (w tl : str) :
  (forall x, Re.word x = true -> cls x = true) ->
  is_name w = true ->
  Re.match_re (Re.Lit "/" ;; Re.Plus cls ;; Re.Lit ("/"%char :: l) ;; rest)
              ("/" ++ w ++ "/" ++ tl) =
  flat_map (Re.match_re (Re.Lit ("/"%char :: l) ;; rest))
           (Re.plus_results cls ("/"%char :: tl))
  ++ Re.match_re (Re.Lit ("/"%char :: l) ;; rest) ("/"%char :: tl).
Proof.
  intros Hcls Hw.
  apply is_name_inv in Hw as [Hne Hword].
  change (Re.match_re (Re.Lit "/" ;; Re.Plus cls ;; Re.Lit ("/"%char :: l)
                         ;; rest) ("/" ++ w ++ "/" ++ tl))
    with (flat_map (Re.match_re (Re.Lit ("/"%char :: l) ;; rest))
                   (Re.plus_results cls (w ++ "/"%char :: tl)) ++ []).
  rewrite app_nil_r.
  apply first_segment_run; auto.
  intros x u Hx; apply lit_slash_rejects, word_not_slash; auto.
Qed.

(** The matches of a pattern are the same for two spellings of the first
    segment. *)
Lemma segment_swap (pat : Re.re) (w1 w2 tl : str) :
  segment_rule pat ->
  is_name w1 = true ->
  is_name w2 = true ->
  Re.match_re pat ("/" ++ w1 ++ "/" ++ tl)
  = Re.match_re pat ("/" ++ w2 ++ "/" ++ tl).
Proof.
  intros (cls & l & rest & -> & Hcls) H1 H2.
  now rewrite !segment_match.
Qed.

(** Each match leaves a part of what follows the first segment. *)
Lemma segment_rem (pat : Re.re) (w tl rem : str) :
  segment_rule pat ->
  is_name w = true ->
  In rem (Re.match_re pat ("/" ++ w ++ "/" ++ tl)) ->
  exists x, tl = x ++ rem.
Proof.
  intros (cls & l & rest & -> & Hcls) Hw.
  rewrite segment_match by assumption.
  assert (Hg : forall s rem,
             In rem (Re.match_re (Re.Lit ("/"%char :: l) ;; rest) s) ->
             exists y, s = ("/"%char :: y) ++ rem).
  { intros s r H; cbn [Re.match_re] in H.
    apply in_flat_map in H as (mid & H1 & H2).
    destruct (Py.startswith s ("/"%char :: l)) eqn:E; [|destruct H1].
    destruct H1 as [<-|[]].
    apply startswith_inv in E.
    apply match_re_suffix in H2 as (pre & E2).
    exists (l ++ pre); rewrite E at 1; rewrite E2.
    simpl; now rewrite app_assoc. }
  intros H; apply in_app_or in H as [H|H].
  - apply in_flat_map in H as (mid & H1 & H2).
    apply plus_results_suffix in H1 as (pre & x & E & _).
    apply Hg in H2 as (y & ->).
    destruct pre as [|p0 pre]; simpl in E; injection E as _ ->.
    + now exists ("/"%char :: y).
    + exists (pre ++ [x] ++ "/"%char :: y).
      now rewrite <- !app_assoc.
  - apply Hg in H as (y & E); injection E as ->; now exists y.
Qed.

Lemma patterns_segment_rules :
  Forall (fun rule : Rule => segment_rule (fst (fst (fst rule)))) patterns.
Proof.
  assert (Hl : forall x, Re.word x = true -> Re.list_char x = true).
  { intros x H; unfold Re.list_char; rewrite H.
    now rewrite orb_true_r. }
  repeat constructor; cbn [fst];
    (eexists _, _, _; split; [reflexivity|]; auto).
Qed.

Lemma first_rule_swap (pats : list Rule) (w1 w2 tl : str) :
  Forall (fun rule : Rule => segment_rule (fst (fst (fst rule)))) pats ->
  is_name w1 = true ->
  is_name w2 = true ->
  first_rule pats ("/" ++ w1 ++ "/" ++ tl)
  = first_rule pats ("/" ++ w2 ++ "/" ++ tl).
Proof.
  intros Hp H1 H2; induction Hp as [|rule pats Hr _ IH]; [reflexivity|].
  cbn [first_rule].
  rewrite (segment_swap _ w1 w2 tl Hr H1 H2), IH; reflexivity.
Qed.

Lemma first_rule_rem (pats : list Rule) (w tl : str) (rule : Rule)
    (rem : str) :
  Forall (fun rule : Rule => segment_rule (fst (fst (fst rule)))) pats ->
  is_name w = true ->
  first_rule pats ("/" ++ w ++ "/" ++ tl) = Some (rule, rem) ->
  exists x, tl = x ++ rem.
Proof.
  intros Hp Hw; induction Hp as [|r0 pats Hr _ IH]; [discriminate|].
  cbn [first_rule].
  destruct (Re.match_re (fst (fst (fst r0))) ("/" ++ w ++ "/" ++ tl))
    as [|rem0 l] eqn:E; [exact IH|].
  intros [= <- <-].
  apply (segment_rem (fst (fst (fst r0))) w tl rem0 Hr Hw).
  rewrite E; now left.
Qed.

Lemma match_of_app (pre rem : str) (pat : Re.re) (ty prop dflt : str) :
  match_of (pre ++ rem) (pat, ty, prop, dflt, rem) =
  mkMatch ty prop dflt pre (fst (tail_parts rem)) (snd (tail_parts rem)).
Proof. unfold match_of; now rewrite firstn_prefix. Qed.

(** Two paths that differ in the spelling of the first segment are
    decomposed alike: the same rule, the same middle and suffix, and
    prefixes that differ in the first segment only. *)
Lemma match_swap (pats : list Rule) (w1 w2 tl : str) (m1 : MatchResult) :
  Forall (fun rule : Rule => segment_rule (fst (fst (fst rule)))) pats ->
  is_name w1 = true ->
  is_name w2 = true ->
  match_ pats ("/" ++ w1 ++ "/" ++ tl) = Some m1 ->
  exists x,
    m_prefix m1 = "/" ++ w1 ++ "/" ++ x
    /\ match_ pats ("/" ++ w2 ++ "/" ++ tl)
       = Some (mkMatch (m_type m1) (m_property m1) (m_default_title m1)
                       ("/" ++ w2 ++ "/" ++ x) (m_middle m1) (m_suffix m1)).
Proof.
  intros Hp H1 H2; rewrite !match_first_rule.
  rewrite (first_rule_swap pats w1 w2 tl Hp H1 H2).
  destruct (first_rule pats ("/" ++ w2 ++ "/" ++ tl)) as [[rule rem]|] eqn:E;
    [|discriminate].
  destruct (first_rule_rem pats w2 tl rule rem Hp H2 E) as (x & ->).
  destruct rule as [[[pat ty] prop] dflt].
  assert (A : forall w : str,
             "/" ++ w ++ "/" ++ x ++ rem = ("/" ++ w ++ "/" ++ x) ++ rem)
    by (intros w; now rewrite <- !app_assoc).
  rewrite !A; unfold option_map; rewrite !match_of_app.
  intros Hm; injection Hm as <-.
  exists x; split; reflexivity.
Qed.

Lemma some_inj {A} (a b : A) : Some a = Some b -> a = b.
Proof. congruence. Qed.

Lemma startswith_before_sep (c : ascii) (s t p : str) :
  ~ In c p -> Py.startswith (s ++ c :: t) p = Py.startswith s p.
Proof.
  revert s; induction p as [|x p IH]; intros s Hp; [reflexivity|].
  destruct s as [|y s]; simpl.
  - destruct (Ascii.eqb_spec x c) as [->|_]; [|reflexivity].
    exfalso; apply Hp; now left.
  - rewrite IH; [reflexivity|]; intros H; apply Hp; now right.
Qed.

Lemma endswith_after_sep (a tl e : str) :
  ~ In "/"%char e ->
  Py.endswith (a ++ "/"%char :: tl) e = Py.endswith tl e.
Proof.
  intros He; unfold Py.endswith.
  rewrite rev_app_distr; simpl; rewrite <- app_assoc; simpl.
  apply startswith_before_sep; now rewrite <- in_rev.
Qed.

Lemma endswith_any_after_sep (a tl : str) :
  Py.endswith_any (a ++ "/"%char :: tl) known_exts
  = Py.endswith_any tl known_exts.
Proof.
  unfold Py.endswith_any, known_exts; cbn [map existsb].
  rewrite !endswith_after_sep; [reflexivity|..];
    simpl; intuition discriminate.
Qed.

Lemma splitext_after_sep (a tl : str) :
  OsPath.splitext (a ++ "/"%char :: tl) =
  (a ++ "/"%char :: fst (OsPath.splitext tl), snd (OsPath.splitext tl)).
Proof.
  unfold OsPath.splitext; rewrite rcut_app_sep.
  destruct (Py.rcut "/" tl) as [[b1 b2]|] eqn:E.
  - apply rcut_some in E; subst tl.
    destruct (Py.rcut "." b2) as [[stem e]|]; [|reflexivity].
    destruct (forallb (Ascii.eqb ".") stem); [reflexivity|].
    cbn [fst snd]; now rewrite <- !app_assoc.
  - destruct (Py.rcut "." tl) as [[stem e]|]; [|reflexivity].
    destruct (forallb (Ascii.eqb ".") stem); [reflexivity|].
    cbn [fst snd]; now rewrite <- app_assoc.
Qed.

Lemma legacy_names (old new : str) :
  In (old, new) legacy_prefixes ->
  is_name old = true /\ is_name new = true.
Proof.
  intros [[= <- <-]|[[= <- <-]|[[= <- <-]|[]]]]; split; reflexivity.
Qed.

Lemma path_regroup (w tl : str) :
  "/" ++ w ++ "/" ++ tl = ("/" ++ w) ++ "/"%char :: tl.
Proof. now rewrite <- app_assoc. Qed.

(** ** Identifiers *)

Lemma seq_inv (r1 r2 : Re.re) (s rem : str) :
  In rem (Re.match_re (r1 ;; r2) s) ->
  exists mid, In mid (Re.match_re r1 s) /\ In rem (Re.match_re r2 mid).
Proof. intros H; now apply in_flat_map in H. Qed.

Lemma lit_inv (l s rem : str) :
  In rem (Re.match_re (Re.Lit l) s) -> s = l ++ rem.
Proof.
  cbn [Re.match_re]; destruct (Py.startswith s l) eqn:E; [|intros []].
  intros [<-|[]]; now apply startswith_inv.
Qed.

Lemma plus_inv (cls : ascii -> bool) (s rem : str) :
  In rem (Re.match_re (Re.Plus cls) s) ->
  exists run, run_of cls run /\ s = run ++ rem.
Proof.
  cbn [Re.match_re]; revert rem; induction s as [|y s IH]; intros rem;
    simpl; [tauto|].
  destruct (cls y) eqn:Ey; [|intros []].
  intros H; apply in_app_or in H as [H|[<-|[]]].
  - destruct (IH _ H) as (run & [Hne Hr] & ->).
    exists (y :: run); split; [split; [discriminate|]|reflexivity].
    intros x [<-|Hx]; auto.
  - exists [y]; split; [split; [discriminate|]|reflexivity].
    intros x [<-|[]]; auto.
Qed.

Lemma lit_match (l t : str) : Re.match_re (Re.Lit l) (l ++ t) = [t].
Proof.
  cbn [Re.match_re]; now rewrite startswith_app, skipn_app_exact.
Qed.

Lemma seq_lit_match (l : str) (r : Re.re) (t : str) :
  Re.match_re (Re.Lit l ;; r) (l ++ t) = Re.match_re r t.
Proof.
  change (Re.match_re (Re.Lit l ;; r) (l ++ t))
    with (flat_map (Re.match_re r) (Re.match_re (Re.Lit l) (l ++ t))).
  rewrite lit_match; simpl; apply app_nil_r.
Qed.

Lemma lit_rejects (c x : ascii) (l u : str) :
  x <> c -> Re.match_re (Re.Lit (c :: l)) (x :: u) = [].
Proof.
  intros Hx; cbn [Re.match_re Py.startswith].
  destruct (Ascii.eqb_spec c x) as [E|_]; [congruence|reflexivity].
Qed.

Lemma seq_lit_rejects (c x : ascii) (l u : str) (r : Re.re) :
  x <> c -> Re.match_re (Re.Lit (c :: l) ;; r) (x :: u) = [].
Proof.
  intros Hx.
  change (Re.match_re (Re.Lit (c :: l) ;; r) (x :: u))
    with (flat_map (Re.match_re r) (Re.match_re (Re.Lit (c :: l)) (x :: u))).
  now rewrite lit_rejects.
Qed.

Lemma plus_results_stops (cls : ascii -> bool) (t : str) :
  stops cls t -> Re.plus_results cls t = [].
Proof. destruct t as [|y t]; simpl; [reflexivity|now intros ->]. Qed.

(** A run of the class followed by a text that stops it: the pattern after
    the run sees that text, when it rejects what starts in the class. *)
Lemma run_then (cls : ascii -> bool) (r : Re.re) (run t : str) :
  run_of cls run ->
  (forall x u, cls x = true -> Re.match_re r (x :: u) = []) ->
  stops cls t ->
  Re.match_re (Re.Plus cls ;; r) (run ++ t) = Re.match_re r t.
Proof.
  intros [Hne Hr] Hrej Ht.
  change (Re.match_re (Re.Plus cls ;; r) (run ++ t))
    with (flat_map (Re.match_re r) (Re.plus_results cls (run ++ t))).
  rewrite first_segment_run; auto.
  now rewrite plus_results_stops.
Qed.

(** At the end of a pattern, the first match of a run is the longest. *)
Lemma run_longest (cls : ascii -> bool) (run t : str) :
  run_of cls run ->
  stops cls t ->
  exists l, Re.match_re (Re.Plus cls) (run ++ t) = t :: l.
Proof.
  intros [Hne Hr] Ht; cbn [Re.match_re].
  induction run as [|x run IH]; [contradiction|].
  simpl; rewrite (Hr x) by now left.
  destruct run as [|y run].
  - simpl; rewrite plus_results_stops by assumption; now exists [].
  - destruct IH as (l & ->); [discriminate|intros z Hz; apply Hr; now right|].
    now eexists.
Qed.

Lemma olid_inv (letter : ascii) (s rem : str) :
  In rem (Re.match_re (olid_pattern letter) s) ->
  exists w d,
    run_of Re.word w /\ run_of Re.digit d
    /\ s = "/" ++ w ++ "/" ++ ("OL" ++ d ++ [letter]) ++ rem.
Proof.
  unfold olid_pattern; intros H.
  apply seq_inv in H as (m1 & H1 & H).
  apply seq_inv in H as (m2 & H2 & H).
  apply seq_inv in H as (m3 & H3 & H).
  apply seq_inv in H as (m4 & H4 & H).
  apply lit_inv in H1, H3, H.
  apply plus_inv in H2 as (w & Hw & E2), H4 as (d & Hd & E4).
  exists w, d; split; [assumption|]; split; [assumption|].
  subst; rewrite <- ?app_assoc; reflexivity.
Qed.

Lemma ia_inv (s rem : str) :
  In rem (Re.match_re ia_pattern s) ->
  exists w i,
    run_of Re.word w /\ run_of Re.ia_char i
    /\ s = "/" ++ w ++ "/" ++ ("ia:" ++ i) ++ rem.
Proof.
  unfold ia_pattern; intros H.
  apply seq_inv in H as (m1 & H1 & H).
  apply seq_inv in H as (m2 & H2 & H).
  apply seq_inv in H as (m3 & H3 & H).
  apply lit_inv in H1, H3.
  apply plus_inv in H2 as (w & Hw & E2), H as (i & Hi & E4).
  exists w, i; split; [assumption|]; split; [assumption|].
  subst; rewrite <- ?app_assoc; reflexivity.
Qed.

Lemma word_rejects_slash_lit (l : str) (r : Re.re) (x : ascii) (u : str) :
  Re.word x = true -> Re.match_re (Re.Lit ("/"%char :: l) ;; r) (x :: u) = [].
Proof. intros H; apply seq_lit_rejects; now apply word_not_slash. Qed.

Lemma olid_match (pat_letter letter : ascii) (w d t : str) :
  run_of Re.word w ->
  run_of Re.digit d ->
  Re.digit letter = false ->
  Re.digit pat_letter = false ->
  Re.match_re (olid_pattern pat_letter)
              ("/" ++ w ++ "/" ++ ("OL" ++ d ++ [letter]) ++ t)
  = if Ascii.eqb pat_letter letter then [t] else [].
Proof.
  intros Hw Hd Hl Hp; unfold olid_pattern.
  rewrite seq_lit_match.
  rewrite run_then; [|assumption|apply word_rejects_slash_lit|reflexivity].
  change ("/" ++ ("OL" ++ d ++ [letter]) ++ t)
    with ("/OL" ++ (d ++ [letter]) ++ t).
  rewrite seq_lit_match, <- app_assoc.
  rewrite run_then; [|assumption| |exact Hl].
  - cbn [Re.match_re Py.startswith app skipn length].
    now destruct (Ascii.eqb pat_letter letter).
  - intros x u Hx; apply lit_rejects; intros ->; congruence.
Qed.

Lemma olid_on_ia (pat_letter : ascii) (w z : str) :
  run_of Re.word w ->
  Re.match_re (olid_pattern pat_letter) ("/" ++ w ++ "/" ++ "ia:" ++ z) = [].
Proof.
  intros Hw; unfold olid_pattern.
  rewrite seq_lit_match.
  rewrite run_then; [|assumption|apply word_rejects_slash_lit|reflexivity].
  reflexivity.
Qed.

Lemma ia_on_olid (w z : str) :
  run_of Re.word w ->
  Re.match_re ia_pattern ("/" ++ w ++ "/" ++ "OL" ++ z) = [].
Proof.
  intros Hw; unfold ia_pattern.
  rewrite seq_lit_match.
  rewrite run_then; [|assumption|apply word_rejects_slash_lit|reflexivity].
  reflexivity.
Qed.

Lemma ia_match (w i t : str) :
  run_of Re.word w ->
  run_of Re.ia_char i ->
  stops Re.ia_char t ->
  exists l,
    Re.match_re ia_pattern ("/" ++ w ++ "/" ++ ("ia:" ++ i) ++ t) = t :: l.
Proof.
  intros Hw Hi Ht; unfold ia_pattern.
  rewrite seq_lit_match.
  rewrite run_then; [|assumption|apply word_rejects_slash_lit|reflexivity].
  change ("/" ++ ("ia:" ++ i) ++ t) with ("/ia:" ++ i ++ t).
  rewrite seq_lit_match.
  now apply run_longest.
Qed.

Lemma patterns_eq :
  patterns =
  [ (olid_pattern "M", "/type/edition" : str, "title" : str, "untitled" : str);
    (ia_pattern, "/type/edition" : str, "title" : str, "untitled" : str);
    (olid_pattern "A", "/type/author" : str, "name" : str, "noname" : str);
    (olid_pattern "W", "/type/work" : str, "title" : str, "untitled" : str);
    (Re.Lit "/" ;; Re.Plus Re.list_char ;; Re.Lit "/OL" ;; Re.Plus Re.digit
       ;; Re.Lit "L",
     "/type/list" : str, "name" : str, "unnamed" : str) ].
Proof. reflexivity. Qed.

(** A path matched by the edition, author or work rules starts with a
    first segment and an identifier of the rule. *)
Lemma first_rule_identifier (p : str) (rule : Rule) (rem : str) :
  first_rule patterns p = Some (rule, rem) ->
  snd (fst (fst rule)) <> ("/type/list" : str) ->
  exists n w id,
    nth_error patterns n = Some rule
    /\ identifies n id
    /\ run_of Re.word w
    /\ p = "/" ++ w ++ "/" ++ id ++ rem.
Proof.
  rewrite patterns_eq; cbn [first_rule fst].
  destruct (Re.match_re (olid_pattern "M") p) as [|r0 l0] eqn:E0.
  2:{ intros [= <- <-] _.
      destruct (olid_inv "M" p r0) as (w & d & Hw & Hd & ->);
        [rewrite E0; now left|].
      exists 0, w, ("OL" ++ d ++ ["M"%char]); split; [reflexivity|]; split; [now constructor|].
      split; [assumption|reflexivity]. }
  destruct (Re.match_re ia_pattern p) as [|r1 l1] eqn:E1.
  2:{ intros [= <- <-] _.
      destruct (ia_inv p r1) as (w & i & Hw & Hi & ->);
        [rewrite E1; now left|].
      exists 1, w, ("ia:" ++ i); split; [reflexivity|]; split; [now constructor|].
      split; [assumption|reflexivity]. }
  destruct (Re.match_re (olid_pattern "A") p) as [|r2 l2] eqn:E2.
  2:{ intros [= <- <-] _.
      destruct (olid_inv "A" p r2) as (w & d & Hw & Hd & ->);
        [rewrite E2; now left|].
      exists 2, w, ("OL" ++ d ++ ["A"%char]); split; [reflexivity|]; split; [now constructor|].
      split; [assumption|reflexivity]. }
  destruct (Re.match_re (olid_pattern "W") p) as [|r3 l3] eqn:E3.
  2:{ intros [= <- <-] _.
      destruct (olid_inv "W" p r3) as (w & d & Hw & Hd & ->);
        [rewrite E3; now left|].
      exists 3, w, ("OL" ++ d ++ ["W"%char]); split; [reflexivity|]; split; [now constructor|].
      split; [assumption|reflexivity]. }
  match goal with
  | |- context [Re.match_re ?r p] =>
      destruct (Re.match_re r p) as [|r4 l4]; [discriminate|]
  end.
  intros [= <- <-] H; now contradiction H.
Qed.

(** Conversely, after any first segment, an identifier followed by a slash
    is matched by its rule first, and the match ends with the identifier. *)
Lemma first_rule_of_identifier (n : nat) (id w t : str) (rule : Rule) :
  identifies n id ->
  run_of Re.word w ->
  nth_error patterns n = Some rule ->
  first_rule patterns ("/" ++ w ++ "/" ++ id ++ "/"%char :: t)
  = Some (rule, "/"%char :: t).
Proof.
  intros Hid Hw; rewrite patterns_eq.
  destruct Hid as [d Hd|i Hi|d Hd|d Hd]; cbn [nth_error]; intros [= <-];
    cbn [first_rule fst].
  - now rewrite olid_match.
  - rewrite (olid_on_ia "M" w (i ++ "/"%char :: t) Hw
             : Re.match_re (olid_pattern "M")
                 ("/" ++ w ++ "/" ++ ("ia:" ++ i) ++ "/"%char :: t) = []).
    destruct (ia_match w i ("/"%char :: t) Hw Hi eq_refl) as (l & ->).
    reflexivity.
  - rewrite (olid_match "M" "A" w d ("/"%char :: t)) by auto.
    cbn [Ascii.eqb Bool.eqb].
    rewrite (ia_on_olid w ((d ++ ["A"%char]) ++ "/"%char :: t) Hw
             : Re.match_re ia_pattern
                 ("/" ++ w ++ "/" ++ ("OL" ++ d ++ ["A"%char])
                      ++ "/"%char :: t) = []).
    now rewrite olid_match.
  - rewrite (olid_match "M" "W" w d ("/"%char :: t)) by auto.
    cbn [Ascii.eqb Bool.eqb].
    rewrite (ia_on_olid w ((d ++ ["W"%char]) ++ "/"%char :: t) Hw
             : Re.match_re ia_pattern
                 ("/" ++ w ++ "/" ++ ("OL" ++ d ++ ["W"%char])
                      ++ "/"%char :: t) = []).
    rewrite (olid_match "A" "W" w d ("/"%char :: t)) by auto.
    cbn [Ascii.eqb Bool.eqb].
    now rewrite olid_match.
Qed.

Lemma name_sep_unique (w v a b : str) :
  (forall x, In x w -> x <> "/"%char) ->
  (forall x, In x v -> x <> "/"%char) ->
  w ++ "/"%char :: a = v ++ "/"%char :: b ->
  w = v /\ a = b.
Proof.
  revert v; induction w as [|x w IH]; intros [|y v] Hw Hv; simpl.
  - intros [= ->]; auto.
  - intros [= <- _]; exfalso; apply (Hv "/"%char); [now left|reflexivity].
  - intros [= -> _]; exfalso; apply (Hw "/"%char); [now left|reflexivity].
  - intros [= -> E].
    destruct (IH v) as [-> ->]; auto.
    + intros z Hz; apply Hw; now right.
    + intros z Hz; apply Hv; now right.
Qed.

Lemma run_word_no_slash (w : str) :
  run_of Re.word w -> forall x, In x w -> x <> "/"%char.
Proof. intros [_ H] x Hx; apply word_not_slash; auto. Qed.

Lemma identifies_no_slash (n : nat) (id : str) :
  identifies n id -> ~ In "/"%char id.
Proof.
  assert (Hd : forall x, Re.digit x = true -> "/"%char <> x)
    by (intros x H <-; vm_compute in H; discriminate).
  assert (Hi : forall x, Re.ia_char x = true -> "/"%char <> x)
    by (intros x H <-; vm_compute in H; discriminate).
  intros [d [_ H]|i [_ H]|d [_ H]|d [_ H]] Hin;
    cbn [s2l list_ascii_of_string app] in Hin;
    repeat (destruct Hin as [Hin|Hin]; [discriminate|]);
    try (apply in_app_or in Hin as [Hin|[Hin|[]]]; [|discriminate]);
    solve [eapply Hd; eauto | eapply Hi; eauto].
Qed.

Lemma last_segment_identifier (n : nat) (w id : str) :
  identifies n id ->
  Py.last_segment "/" ("/" ++ w ++ "/" ++ id) = id.
Proof.
  intros Hid; rewrite path_regroup, last_segment_app_sep.
  unfold Py.last_segment.
  now rewrite (proj2 (rcut_none "/" id) (identifies_no_slash n id Hid)).
Qed.

Lemma run_of_literal (cls : ascii -> bool) (w : str) :
  Py.truthy w && forallb cls w = true -> run_of cls w.
Proof.
  intros H; apply andb_prop in H as [H1 H2]; split; [now destruct w|].
  now apply forallb_forall.
Qed.

(** Every key the fallback lookup tries for a first segment followed by an
    identifier is a first segment followed by that identifier. *)
Lemma candidates_identifier (n : nat) (w id k : str) :
  identifies n id ->
  run_of Re.word w ->
  In k (candidates ("/" ++ w ++ "/" ++ id)) ->
  exists w', run_of Re.word w' /\ k = "/" ++ w' ++ "/" ++ id.
Proof.
  intros Hid Hw; unfold candidates.
  rewrite (last_segment_identifier n w id Hid).
  assert (Hleg : forall old z : str,
             run_of Re.word old ->
             "/" ++ w ++ "/" ++ id = ("/" ++ old ++ "/") ++ z ->
             z = id).
  { intros old z Ho H.
    change ("/" ++ w ++ "/" ++ id) with ("/"%char :: w ++ "/"%char :: id) in H.
    change (("/" ++ old ++ "/") ++ z)
      with ("/"%char :: (old ++ ["/"%char]) ++ z) in H.
    rewrite <- app_assoc in H; injection H as H.
    destruct (name_sep_unique w old id z) as [_ ->]; auto;
      now apply run_word_no_slash. }
  intros [<-|Hin]; [now exists w|].
  apply in_app_or in Hin as [Hin|Hin].
  - unfold legacy_candidates in Hin.
    destruct (Py.startswith ("/" ++ w ++ "/" ++ id) "/a/") eqn:Ea.
    { destruct Hin as [<-|[]]; apply startswith_inv in Ea.
      rewrite (Hleg "a" (skipn 3 ("/" ++ w ++ "/" ++ id))
                 (run_of_literal Re.word "a" eq_refl) Ea).
      exists "authors"; split; [now apply run_of_literal|reflexivity]. }
    destruct (Py.startswith ("/" ++ w ++ "/" ++ id) "/b/") eqn:Eb.
    { destruct Hin as [<-|[]]; apply startswith_inv in Eb.
      rewrite (Hleg "b" (skipn 3 ("/" ++ w ++ "/" ++ id))
                 (run_of_literal Re.word "b" eq_refl) Eb).
      exists "books"; split; [now apply run_of_literal|reflexivity]. }
    destruct (Py.startswith ("/" ++ w ++ "/" ++ id) "/user/") eqn:Eu;
      [|destruct Hin].
    destruct Hin as [<-|[]]; apply startswith_inv in Eu.
    rewrite (Hleg "user" (skipn 6 ("/" ++ w ++ "/" ++ id))
               (run_of_literal Re.word "user" eq_refl) Eu).
    exists "people"; split; [now apply run_of_literal|reflexivity].
  - unfold basename_candidates in Hin.
    repeat (apply in_app_or in Hin as [Hin|Hin]);
      match type of Hin with
      | In _ (if ?b then _ else _) => destruct b; [|destruct Hin]
      end;
      destruct Hin as [<-|[]];
      [exists "books"|exists "works"|exists "books"|exists "authors"];
      (split; [now apply run_of_literal|reflexivity]).
Qed.

Lemma cut_notin (c : ascii) (q : str) :
  ~ In c q -> Py.cut c q = (q, None).
Proof.
  induction q as [|x q IH]; simpl; [reflexivity|]; intros H.
  destruct (Ascii.eqb_spec x c) as [->|_]; [exfalso; apply H; now left|].
  rewrite IH; [reflexivity|]; intros Hin; apply H; now right.
Qed.

Lemma cut_first (c : ascii) (q s : str) :
  ~ In c q -> Py.cut c (q ++ c :: s) = (q, Some s).
Proof.
  induction q as [|x q IH]; simpl; intros H;
    [now rewrite Ascii.eqb_refl|].
  destruct (Ascii.eqb_spec x c) as [->|_]; [exfalso; apply H; now left|].
  rewrite IH; [reflexivity|]; intros Hin; apply H; now right.
Qed.

Lemma tail_parts_suffix_form (extra : str) :
  suffix_form (snd (tail_parts extra)).
Proof.
  unfold tail_parts; cbn [snd].
  destruct (Web.listget (Py.splitn "/" 2 extra) 2 []) as [|x s];
    [now left|right; now exists s, x].
Qed.

(** What follows the record's key in a readable path with a slug is
    decomposed into the slug and the suffix. *)
Lemma tail_parts_slug (q suffix : str) :
  ~ In "/"%char q ->
  suffix_form suffix ->
  tail_parts ("/"%char :: q ++ suffix) = (q, suffix).
Proof.
  intros Hq [->|(s & x & ->)]; unfold tail_parts, Web.listget;
    cbn [Py.splitn Py.cut Ascii.eqb Bool.eqb].
  - rewrite app_nil_r, cut_notin by assumption; reflexivity.
  - rewrite cut_first by assumption; reflexivity.
Qed.

(** ** Candidate keys and bare identifiers *)

Lemma ia_not_olid (b : str) :
  Py.startswith b "ia:" = true -> Py.startswith b "OL" = false.
Proof. intros H; apply startswith_inv in H; rewrite H; reflexivity. Qed.

Lemma endswith_other (b : str) (x y : ascii) :
  Ascii.eqb y x = false ->
  Py.endswith b [x] = true -> Py.endswith b [y] = false.
Proof.
  intros Hxy H; apply endswith_inv in H as (t & ->).
  unfold Py.endswith; rewrite rev_app_distr; cbn [rev app Py.startswith].
  now rewrite Hxy.
Qed.

(** At most one of the four tests on the last segment applies. *)
Lemma basename_candidates_home (b : str) :
  basename_candidates b =
  match home_dir b with
  | Some d => [d ++ b]
  | None => []
  end.
Proof.
  unfold basename_candidates, home_dir.
  destruct (Py.startswith b "ia:") eqn:Ei.
  { rewrite (ia_not_olid b Ei); reflexivity. }
  destruct (Py.startswith b "OL"); [|reflexivity]; cbn [andb app].
  destruct (Py.endswith b "W") eqn:Ew.
  { rewrite (endswith_other b "W" "M" eq_refl Ew
             : Py.endswith b (s2l "M") = false).
    rewrite (endswith_other b "W" "A" eq_refl Ew
             : Py.endswith b (s2l "A") = false); reflexivity. }
  destruct (Py.endswith b "M") eqn:Em.
  { rewrite (endswith_other b "M" "A" eq_refl Em
             : Py.endswith b (s2l "A") = false); reflexivity. }
  destruct (Py.endswith b "A"); reflexivity.
Qed.

Lemma home_dir_cases (b d : str) :
  home_dir b = Some d ->
  d = ("/books/" : str) \/ d = ("/works/" : str) \/ d = ("/authors/" : str).
Proof.
  unfold home_dir.
  repeat match goal with
         | |- context [if ?x then _ else _] => destruct x
         end; intros [= <-]; auto.
Qed.

Lemma last_segment_plain (c : ascii) (s : str) :
  ~ In c s -> Py.last_segment c s = s.
Proof.
  intros H; unfold Py.last_segment.
  now rewrite (proj2 (rcut_none c s) H).
Qed.

Lemma last_segment_no_sep (c : ascii) (s : str) :
  ~ In c (Py.last_segment c s).
Proof.
  unfold Py.last_segment.
  destruct (Py.rcut c s) as [[b a]|] eqn:E; [|now apply rcut_none].
  revert b a E; induction s as [|x s IH]; intros b a; cbn [Py.rcut];
    [discriminate|].
  destruct (Py.rcut c s) as [[b1 a1]|] eqn:E1.
  - intros [= _ <-]; now apply (IH b1).
  - destruct (Ascii.eqb x c); [|discriminate].
    intros [= _ <-]; now apply rcut_none.
Qed.

Lemma home_key_segment (b d : str) :
  home_dir b = Some d -> ~ In "/"%char b ->
  Py.last_segment "/" (d ++ b) = b.
Proof.
  intros Hd Hb.
  destruct (home_dir_cases b d Hd) as [-> | [-> | ->]].
  - change ("/books/" ++ b) with ("/books" ++ "/"%char :: b).
    now rewrite last_segment_app_sep, last_segment_plain.
  - change ("/works/" ++ b) with ("/works" ++ "/"%char :: b).
    now rewrite last_segment_app_sep, last_segment_plain.
  - change ("/authors/" ++ b) with ("/authors" ++ "/"%char :: b).
    now rewrite last_segment_app_sep, last_segment_plain.
Qed.

Lemma legacy_candidates_segment (key k : str) :
  In k (legacy_candidates key) ->
  Py.last_segment "/" k = Py.last_segment "/" key.
Proof.
  unfold legacy_candidates.
  destruct (Py.startswith key "/a/") eqn:Ea.
  { intros [<-|[]]; exact (last_segment_legacy "/a" "/authors" key Ea). }
  destruct (Py.startswith key "/b/") eqn:Eb.
  { intros [<-|[]]; exact (last_segment_legacy "/b" "/books" key Eb). }
  destruct (Py.startswith key "/user/") eqn:Eu; [|intros []].
  intros [<-|[]]; exact (last_segment_legacy "/user" "/people" key Eu).
Qed.

Lemma candidates_segment (key k : str) :
  In k (candidates key) ->
  Py.last_segment "/" k = Py.last_segment "/" key.
Proof.
  unfold candidates; intros [<-|H]; [reflexivity|].
  apply in_app_or in H as [H|H]; [now apply legacy_candidates_segment|].
  rewrite basename_candidates_home in H.
  destruct (home_dir (Py.last_segment "/" key)) as [d|] eqn:Hd; [|destruct H].
  destruct H as [<-|[]].
  apply (home_key_segment _ d Hd), last_segment_no_sep.
Qed.

(** After any first segment, an identifier is matched by its rule first,
    and the match ends with the identifier, whatever follows it; after an
    archive identifier, what follows must not go on with a character of
    such identifiers. *)
Lemma first_rule_identifier_tail (n : nat) (id w t : str) (rule : Rule) :
  identifies n id ->
  run_of Re.word w ->
  nth_error patterns n = Some rule ->
  (n = 1 -> stops Re.ia_char t) ->
  first_rule patterns ("/" ++ w ++ "/" ++ id ++ t) = Some (rule, t).
Proof.
  intros Hid Hw; rewrite patterns_eq.
  destruct Hid as [d Hd|i Hi|d Hd|d Hd]; cbn [nth_error]; intros [= <-] Ht;
    cbn [first_rule fst].
  - now rewrite olid_match.
  - rewrite (olid_on_ia "M" w (i ++ t) Hw
             : Re.match_re (olid_pattern "M")
                 ("/" ++ w ++ "/" ++ ("ia:" ++ i) ++ t) = []).
    destruct (ia_match w i t Hw Hi (Ht eq_refl)) as (l & ->).
    reflexivity.
  - rewrite (olid_match "M" "A" w d t) by auto.
    cbn [Ascii.eqb Bool.eqb].
    rewrite (ia_on_olid w ((d ++ ["A"%char]) ++ t) Hw
             : Re.match_re ia_pattern
                 ("/" ++ w ++ "/" ++ ("OL" ++ d ++ ["A"%char]) ++ t) = []).
    now rewrite olid_match.
  - rewrite (olid_match "M" "W" w d t) by auto.
    cbn [Ascii.eqb Bool.eqb].
    rewrite (ia_on_olid w ((d ++ ["W"%char]) ++ t) Hw
             : Re.match_re ia_pattern
                 ("/" ++ w ++ "/" ++ ("OL" ++ d ++ ["W"%char]) ++ t) = []).
    rewrite (olid_match "A" "W" w d t) by auto.
    cbn [Ascii.eqb Bool.eqb].
    now rewrite olid_match.
Qed.

(** * The claims *)

(** ** Fallback lookup *)

(** C3, as the code has it.  [_get_object] looks up the key itself, then its
    modern form when the key has a legacy prefix ([/a/], [/b/], [/user/]),
    then the keys built from the last segment: under [/books/] when the
    segment starts with [ia:], under [/works/], [/books/], [/authors/] when
    it starts with [OL] and ends with [W], [M], [A] (whatever stands in
    between).  It returns the first record found, has looked up exactly the
    keys up to that one, in this order, and returns nothing only when every
    candidate fails.  The keys of the specification, which asks for digits
    between [OL] and the letter, are among these candidates. *)
Theorem C3_fallback_lookup_order (site : Site) (key : str) (c : Ctx) :
  _get_object site key c =
    (first_found site (candidates key),
     log_all (tried site (candidates key)) c)
  /\ (fst (_get_object site key c) = None <->
      forall k, In k (candidates key) -> site k = None)
  /\ (forall k, In k (spec_candidates key) -> In k (candidates key)).
Proof.
  rewrite get_object_run; split; [reflexivity|]; split.
  - cbn [fst]; apply first_found_none.
  - apply spec_candidates_tried.
Qed.

(** C3 as the claim words it fails: the last segment [OLxW] is not of the
    form [OL<digits>W], so the key itself is the only candidate of the
    claim and it is not in the store; the code still retries under
    [/works/] and returns the record found there. *)
Lemma C3_counterexample :
  spec_candidates "/books/OLxW" = [ "/books/OLxW" : str ]
  /\ first_found work_store (spec_candidates "/books/OLxW") = None
  /\ fst (_get_object work_store "/books/OLxW" (request "/" [] "GET" None))
     = work_store "/works/OLxW"
  /\ work_store "/works/OLxW" <> None
  /\ ctx_lookups
       (snd (_get_object work_store "/books/OLxW" (request "/" [] "GET" None)))
     = [ "/books/OLxW" : str; "/works/OLxW" : str ].
Proof. repeat split; try reflexivity; vm_compute; discriminate. Qed.

(** ** Resolution *)

(** With nothing but dots (or nothing at all) before a known extension in
    the last segment, [os.path.splitext] splits nothing off. *)
Lemma splitext_dots (stem e : str) :
  In e known_exts ->
  forallb (Ascii.eqb ".") (Py.last_segment "/" stem) = true ->
  OsPath.splitext (stem ++ e) = (stem ++ e, []).
Proof.
  intros He Hd.
  assert (Hs : exists e', e = "."%char :: e' /\ ~ In "/"%char e
                          /\ ~ In "."%char e').
  { simpl in He; destruct He as [<-|[<-|[<-|[]]]];
      (eexists; split; [reflexivity|]; split; simpl; intuition discriminate).
  }
  destruct Hs as (e' & -> & Hslash & Hdot).
  unfold OsPath.splitext, Py.last_segment in *.
  rewrite rcut_app_notin by assumption.
  destruct (Py.rcut "/" stem) as [[b a]|] eqn:Es.
  - rewrite rcut_app_sep.
    apply rcut_none in Hdot; now rewrite Hdot, Hd.
  - rewrite rcut_app_sep.
    apply rcut_none in Hdot; now rewrite Hdot, Hd.
Qed.

Section ResolutionClaims.

Variable urlsafe : str -> str.
Variable is_exclusion : option Thing -> bool.

Local Abbreviation resolve := (get_readable_path urlsafe is_exclusion).

(** C5.  A path that matches no rule is returned unchanged as both the
    real and the readable path, and the request context is left as it
    was: no key is looked up and the exclusion flag is not touched. *)
Theorem C5_no_rule_passthrough (site : Site) (path : str)
    (pats : list Rule) (enc : option str) (c : Ctx) :
  match_ pats path = None ->
  resolve site path pats enc c = ((path, path), c).
Proof. apply resolve_no_match. Qed.

(** C6, as the code has it.  For a rule-matching path that ends in a known
    extension, or when an encoding is requested, the path is split by
    [os.path.splitext] into a base key and an extension that together give
    the path back.  The base key goes through the fallback lookup: its
    candidate keys are tried in order, and both paths returned are the key
    of the first record found followed by the extension, or the path
    itself when there is none.  Nothing happens to the request context but
    these lookups.  The extension split off is the known extension the
    path ends with when the last segment has a character other than a dot
    in front of it; when it has not, nothing is split off and the whole
    path is the key looked up. *)
Theorem C6_structured_extension (site : Site) (path : str)
    (pats : list Rule) (enc : option str) (c : Ctx) (m : MatchResult) :
  match_ pats path = Some m ->
  enc <> None \/ Py.endswith_any path known_exts = true ->
  exists key ext,
    OsPath.splitext path = (key, ext)
    /\ key ++ ext = path
    /\ resolve site path pats enc c =
       (let p := match first_found site (candidates key) with
                 | Some t => thing_key t ++ ext
                 | None => path
                 end in (p, p),
        log_all (tried site (candidates key)) c)
    /\ (forall stem e,
          path = stem ++ e -> In e known_exts ->
          if forallb (Ascii.eqb ".") (Py.last_segment "/" stem)
          then key = path /\ ext = []
          else key = stem /\ ext = e).
Proof.
  intros Em Hb.
  assert (Eb : negb (is_none enc) || Py.endswith_any path known_exts = true).
  { destruct Hb as [Hb|Hb]; [destruct enc; [reflexivity|congruence]|].
    rewrite Hb; apply orb_true_r. }
  exists (fst (OsPath.splitext path)), (snd (OsPath.splitext path)).
  rewrite (resolve_ext _ _ site path pats enc c m Em Eb).
  split; [now destruct (OsPath.splitext path)|].
  split; [apply splitext_recombine|]; split; [reflexivity|].
  intros stem e -> He.
  destruct (forallb (Ascii.eqb ".") (Py.last_segment "/" stem)) eqn:Hd.
  - now rewrite splitext_dots.
  - now rewrite splitext_known.
Qed.

(** C2, as the code has it.  For a rule-matching path without a known
    extension and with no encoding requested, when the fallback lookup on
    the matched prefix finds a record of the rule's type, the real path is
    the record's key followed by the suffix, and the readable path is the
    real path with a slash and the slug put between the key and the
    suffix.  The slug is the title field of the record, or the rule's
    default title when the field is absent or empty, stripped of the white
    space around it, passed through [urlsafe], then plus-encoded; it holds
    no slash. *)
Theorem C2_slug_in_readable_only (site : Site) (path : str)
    (pats : list Rule) (c : Ctx) (m : MatchResult) (t : Thing) :
  match_ pats path = Some m ->
  Py.endswith_any path known_exts = false ->
  fst (_get_object site (m_prefix m) c) = Some t ->
  thing_type_key t = m_type m ->
  let title := match thing_get t (m_property m) with
               | Some (x :: s) => x :: s
               | _ => m_default_title m
               end in
  let slug := Urllib.quote_plus (urlsafe (Py.strip title)) in
  fst (resolve site path pats None c) =
    (thing_key t ++ m_suffix m,
     thing_key t ++ ("/"%char :: slug) ++ m_suffix m)
  /\ ~ In "/"%char slug
  /\ length (snd (fst (resolve site path pats None c)))
     = length (fst (fst (resolve site path pats None c)))
       + S (length slug).
Proof.
  intros Em Eb Ht Hty title slug0.
  assert (E : fst (resolve site path pats None c) =
              (thing_key t ++ m_suffix m,
               thing_key t ++ ("/"%char :: slug0) ++ m_suffix m)).
  { rewrite get_object_run in Ht; cbn [fst] in Ht.
    rewrite (resolve_slug _ _ site path pats None c m Em) by exact Eb.
    cbn [fst]; rewrite Ht; unfold resolved_prefix, resolved_middle.
    rewrite Hty, str_eqb_refl; unfold slug, or_default.
    subst slug0 title.
    destruct (thing_get t (m_property m)) as [[|x s]|]; reflexivity. }
  split; [exact E|]; split; [apply quote_plus_no_slash|].
  rewrite E; cbn [fst snd]; rewrite !length_app; cbn [length]; lia.
Qed.

End ResolutionClaims.

Lemma C5_witness :
  match_ patterns "/subjects/love" = None
  /\ get_readable_path urlsafe_id is_exclusion_default book_store
       "/subjects/love" patterns None (request "/subjects/love" [] "GET" None)
     = (("/subjects/love" : str, "/subjects/love" : str),
        request "/subjects/love" [] "GET" None).
Proof.
  split; [reflexivity|].
  apply (C5_no_rule_passthrough urlsafe_id is_exclusion_default); reflexivity.
Defined.

Lemma C6_witness :
  get_readable_path urlsafe_id is_exclusion_default book_store
    "/b/OL1M.json" patterns None (request "/b/OL1M.json" [] "GET" None)
  = (("/books/OL1M.json" : str, "/books/OL1M.json" : str),
     log_all [ "/b/OL1M" : str; "/books/OL1M" : str ]
             (request "/b/OL1M.json" [] "GET" None))
  /\ get_readable_path urlsafe_id is_exclusion_default book_store
       "/books/OL1M/edit" patterns (Some ("json" : str))
       (request "/books/OL1M/edit" [] "GET" (Some ("json" : str)))
     = (("/books/OL1M/edit" : str, "/books/OL1M/edit" : str),
        log_all [ "/books/OL1M/edit" : str ]
                (request "/books/OL1M/edit" [] "GET" (Some ("json" : str)))).
Proof.
  split.
  - destruct (C6_structured_extension urlsafe_id is_exclusion_default
                book_store "/b/OL1M.json" patterns None
                (request "/b/OL1M.json" [] "GET" None)
                (mkMatch "/type/edition" "title" "untitled" "/b/OL1M" [] [])
                eq_refl (or_intror eq_refl))
      as (key & ext & Hs & _ & Hr & _).
    injection Hs as <- <-; exact Hr.
  - destruct (C6_structured_extension urlsafe_id is_exclusion_default
                book_store "/books/OL1M/edit" patterns (Some ("json" : str))
                (request "/books/OL1M/edit" [] "GET" (Some ("json" : str)))
                (mkMatch "/type/edition" "title" "untitled" "/books/OL1M"
                         "edit" [])
                eq_refl ltac:(left; discriminate))
      as (key & ext & Hs & _ & Hr & _).
    injection Hs as <- <-; exact Hr.
Defined.

(** C6 as the claim words it fails when nothing but dots stands before the
    extension in the last segment: [/books/OL1M/.json] matches the edition
    rule and ends in [.json], yet [os.path.splitext] splits nothing off, so
    the extension is not stripped: the only key looked up is the whole
    path, and the key without the extension is never tried. *)
Lemma C6_counterexample :
  match_ patterns "/books/OL1M/.json"
  = Some (mkMatch "/type/edition" "title" "untitled" "/books/OL1M"
                  ".json" [])
  /\ Py.endswith_any "/books/OL1M/.json" known_exts = true
  /\ OsPath.splitext "/books/OL1M/.json" = ("/books/OL1M/.json" : str, [])
  /\ get_readable_path urlsafe_id is_exclusion_default book_store
       "/books/OL1M/.json" patterns None (request "/" [] "GET" None)
     = (("/books/OL1M/.json" : str, "/books/OL1M/.json" : str),
        log_all [ "/books/OL1M/.json" : str ] (request "/" [] "GET" None))
  /\ ~ In ("/books/OL1M/" : str)
       (ctx_lookups
          (snd (get_readable_path urlsafe_id is_exclusion_default book_store
                  "/books/OL1M/.json" patterns None
                  (request "/" [] "GET" None)))).
Proof.
  repeat split; try reflexivity.
  vm_compute; intros [H|[]]; discriminate H.
Qed.

Lemma C2_witness :
  fst (get_readable_path urlsafe_id is_exclusion_default padded_store
         "/b/OL1M/x/edit" patterns None
         (request "/b/OL1M/x/edit" [] "GET" None))
  = ("/books/OL1M/edit" : str, "/books/OL1M/Moby+Dick/edit" : str)
  /\ fst (get_readable_path urlsafe_underscore is_exclusion_default
            padded_store "/b/OL1M/x/edit" patterns None
            (request "/b/OL1M/x/edit" [] "GET" None))
     = ("/books/OL1M/edit" : str, "/books/OL1M/Moby_Dick/edit" : str)
  /\ fst (get_readable_path urlsafe_id is_exclusion_default untitled_store
            "/books/OL1M" patterns None
            (request "/books/OL1M" [] "GET" None))
     = ("/books/OL1M" : str, "/books/OL1M/untitled" : str).
Proof.
  split; [|split].
  - exact (proj1 (C2_slug_in_readable_only urlsafe_id is_exclusion_default
                    padded_store "/b/OL1M/x/edit" patterns
                    (request "/b/OL1M/x/edit" [] "GET" None)
                    (mkMatch "/type/edition" "title" "untitled" "/b/OL1M"
                             "x" "/edit")
                    (record "/books/OL1M" "/type/edition" "title"
                            "  Moby Dick ")
                    eq_refl eq_refl eq_refl eq_refl)).
  - exact (proj1 (C2_slug_in_readable_only urlsafe_underscore
                    is_exclusion_default
                    padded_store "/b/OL1M/x/edit" patterns
                    (request "/b/OL1M/x/edit" [] "GET" None)
                    (mkMatch "/type/edition" "title" "untitled" "/b/OL1M"
                             "x" "/edit")
                    (record "/books/OL1M" "/type/edition" "title"
                            "  Moby Dick ")
                    eq_refl eq_refl eq_refl eq_refl)).
  - exact (proj1 (C2_slug_in_readable_only urlsafe_id is_exclusion_default
                    untitled_store "/books/OL1M" patterns
                    (request "/books/OL1M" [] "GET" None)
                    (mkMatch "/type/edition" "title" "untitled"
                             "/books/OL1M" [] [])
                    (record "/books/OL1M" "/type/edition" "subtitle"
                            "A Novel")
                    eq_refl eq_refl eq_refl eq_refl)).
Defined.

(** C2 as the claim words it fails on two counts.  The slug is not kept
    out of the real path: the real path is the key and the suffix of the
    request, and the suffix may spell the slug, as in
    [/books/OL1M/x/Moby_Dick].  And the slug is not the plus-encoding of
    the stripped title: the title goes through [urlsafe] first, so that
    with a [urlsafe] that writes an underscore for a space the slug of
    [Moby Dick] is [Moby_Dick], where the derivation of the claim gives
    [Moby+Dick]. *)
Lemma C2_counterexample :
  let t := record "/books/OL1M" "/type/edition" "title" "Moby Dick" in
  let resolve :=
    get_readable_path urlsafe_underscore is_exclusion_default book_store in
  slug urlsafe_underscore t "title" "untitled" = ("/Moby_Dick" : str)
  /\ fst (resolve "/books/OL1M/x/Moby_Dick" patterns None
            (request "/" [] "GET" None))
     = ("/books/OL1M/Moby_Dick" : str,
        "/books/OL1M/Moby_Dick/Moby_Dick" : str)
  /\ fst (fst (resolve "/books/OL1M/x/Moby_Dick" patterns None
                 (request "/" [] "GET" None)))
     = "/books/OL1M" ++ slug urlsafe_underscore t "title" "untitled"
  /\ snd (fst (resolve "/books/OL1M" patterns None
                 (request "/" [] "GET" None)))
     = ("/books/OL1M/Moby_Dick" : str)
  /\ Urllib.quote_plus (Py.strip "Moby Dick") = ("Moby+Dick" : str)
  /\ snd (fst (resolve "/books/OL1M" patterns None
                 (request "/" [] "GET" None)))
     <> "/books/OL1M" ++ "/" ++ Urllib.quote_plus (Py.strip "Moby Dick").
Proof. repeat split; try reflexivity; vm_compute; discriminate. Qed.

(** ** The processor *)

Section ProcessorClaims.

Variable urlsafe : str -> str.
Variable is_exclusion : option Thing -> bool.
Variable Out : Type.
Variable render_notfound : str -> Out.
Variable check_bracketed_host : str -> bool.

Local Abbreviation resolve := (get_readable_path urlsafe is_exclusion).
Local Abbreviation call :=
  (__call__ urlsafe is_exclusion Out render_notfound check_bracketed_host).
Local Abbreviation readable_of :=
  (request_readable urlsafe is_exclusion check_bracketed_host).
Local Abbreviation real_of :=
  (request_real urlsafe is_exclusion check_bracketed_host).

(** The readable path of a request comes from resolving the request path
    without its trailing slashes. *)
Lemma request_readable_eq (site : Site) (pats : list Rule) (c : Ctx) :
  readable_of site pats c =
  final_readable check_bracketed_host
    (snd (fst (resolve site (Py.rstrip "/" (ctx_path c)) pats
                 (ctx_encoding c) c))).
Proof.
  unfold request_readable, resolutions; f_equal; f_equal.
  apply resolve_value.
Qed.

(** C1, as the code has it.  For a request that the two legacy checks
    ([/l/...], and [/user/...] with no record under that path) do not
    answer, the processor raises a redirect exactly when the
    percent-encoding of the readable and of the real path raises no
    [ValueError], the readable path differs from the request path, differs
    from the percent-encoded request path, and the method is GET; the
    redirect is then to the readable path followed by the query string.
    Whatever the request, a method other than GET never leads to that
    redirect.  When the percent-encoding raises, the [ValueError] leaves
    the processor, whatever the method. *)
Theorem C1_redirect_decision (site : Site) (pats : list Rule)
    (handler : M Out) (c : Ctx) :
  (legacy_redirect site (ctx_path c) = None ->
   forall url,
     fst (call site pats handler c) = inl (Redirect url)
     <-> exists readable real,
           readable_of site pats c = Some readable
           /\ real_of site pats c = Some real
           /\ url = readable ++ ctx_query c
           /\ readable <> ctx_path c
           /\ readable <> Urllib.quote (ctx_path c)
           /\ ctx_method c = "GET")
  /\ (ctx_method c <> "GET" ->
      forall url, fst (call site pats handler c) <> inl (Redirect url))
  /\ (legacy_redirect site (ctx_path c) = None ->
      readable_of site pats c = None \/ real_of site pats c = None ->
      fst (call site pats handler c) = inl ValueError).
Proof.
  rewrite call_run; split; [|split].
  - intros -> url; cbv zeta.
    destruct (readable_of site pats c) as [readable|];
      [destruct (real_of site pats c) as [real|]|].
    + unfold must_redirect, Web.safestr.
      destruct (str_eqb_spec readable (ctx_path c)) as [E1|E1];
      destruct (str_eqb_spec readable (Urllib.quote (ctx_path c)))
        as [E2|E2];
      destruct (str_eqb_spec (ctx_method c) "GET") as [E3|E3];
      cbn [negb andb fst];
      try (split; [unfold after_handler; destruct (ctx_exclude _);
                   discriminate
                  |intros (r1 & r2 & [= <-] & _ & _ & H1 & H2 & H3);
                   contradiction]).
      split.
      * intros [= <-]; exists readable, real; now repeat split.
      * intros (r1 & r2 & [= <-] & _ & -> & _); reflexivity.
    + split; [discriminate|intros (r1 & r2 & _ & H & _); discriminate].
    + split; [discriminate|intros (r1 & r2 & H & _); discriminate].
  - intros Hm url; apply str_eqb_neq in Hm.
    destruct (legacy_redirect site (ctx_path c)); [discriminate|].
    cbv zeta.
    destruct (readable_of site pats c) as [readable|];
      [destruct (real_of site pats c) as [real|]|]; try discriminate.
    unfold must_redirect; rewrite Hm, andb_false_r.
    unfold after_handler; destruct (ctx_exclude _); discriminate.
  - intros -> H; cbv zeta.
    destruct (readable_of site pats c) as [readable|];
      [destruct (real_of site pats c) as [real|]|]; try reflexivity.
    destruct H; discriminate.
Qed.

Lemma resolve_flag (site : Site) (path : str) (pats : list Rule)
    (enc : option str) (c : Ctx) :
  ctx_exclude (snd (resolve site path pats enc c)) =
  ctx_exclude c || raises_flag is_exclusion site pats enc path.
Proof.
  unfold raises_flag.
  destruct (match_ pats path) as [m|] eqn:Em.
  - destruct (negb (is_none enc) || Py.endswith_any path known_exts) eqn:Eb.
    + rewrite (resolve_ext _ _ site path pats enc c m Em Eb).
      cbn; now rewrite orb_false_r.
    + rewrite (resolve_slug _ _ site path pats enc c m Em Eb).
      cbn [snd negb andb]; destruct (is_exclusion _); cbn;
        [now rewrite orb_true_r|now rewrite orb_false_r].
  - rewrite resolve_no_match by assumption; cbn; now rewrite orb_false_r.
Qed.

Lemma resolutions_flag (site : Site) (pats : list Rule) (c : Ctx) :
  ctx_exclude (snd (resolutions urlsafe is_exclusion site pats c)) =
  ctx_exclude c
  || raises_flag is_exclusion site pats (ctx_encoding c) (ctx_path c)
  || raises_flag is_exclusion site pats (ctx_encoding c)
       (Py.rstrip "/" (ctx_path c)).
Proof.
  unfold resolutions.
  rewrite !resolve_flag; f_equal; f_equal.
  unfold after_legacy.
  destruct (Py.startswith (ctx_path c) "/l/"); [reflexivity|].
  destruct (Py.startswith (ctx_path c) "/user/"); reflexivity.
Qed.

Lemma handler_ctx_flag (site : Site) (pats : list Rule) (c d : Ctx) :
  handler_ctx urlsafe is_exclusion check_bracketed_host site pats c = Some d ->
  ctx_exclude d =
  ctx_exclude c
  || raises_flag is_exclusion site pats (ctx_encoding c) (ctx_path c)
  || raises_flag is_exclusion site pats (ctx_encoding c)
       (Py.rstrip "/" (ctx_path c)).
Proof.
  intros H; apply handler_ctx_some in H as (readable & real & _ & _ & ->).
  cbn [with_paths ctx_exclude]; apply resolutions_flag.
Qed.

(** C9, as the code has it.  Take a request for which no exception leaves
    the processor.  Then the wrapped handler has run, in a context whose
    exclusion flag is the flag of the incoming context or the one raised
    by either resolution of the request, that is, by the exclusion policy
    flagging the record resolved.  What the processor answers depends on
    the flag as it stands once the handler has returned: if it is set, the
    answer is the not-found page for the current path and the status of
    the response is 404, whatever the handler returned; if it is not, the
    answer is the output of the handler and the context is as the handler
    left it.  So for a handler that leaves the flag as it finds it, the
    flag raised during resolution decides. *)
Theorem C9_exclusion_overrides_handler (site : Site) (pats : list Rule)
    (handler : M Out) (c : Ctx) :
  (forall e, fst (call site pats handler c) <> inl e) ->
  exists d,
    handler_ctx urlsafe is_exclusion check_bracketed_host site pats c
    = Some d
    /\ ctx_exclude d =
       ctx_exclude c
       || raises_flag is_exclusion site pats (ctx_encoding c) (ctx_path c)
       || raises_flag is_exclusion site pats (ctx_encoding c)
            (Py.rstrip "/" (ctx_path c))
    /\ (ctx_exclude (snd (handler d)) = true ->
        fst (call site pats handler c)
        = inr (render_notfound (ctx_path (snd (handler d))))
        /\ ctx_status (snd (call site pats handler c))
           = Some ("404 Not Found" : str))
    /\ (ctx_exclude (snd (handler d)) = false ->
        call site pats handler c = (inr (fst (handler d)), snd (handler d)))
    /\ (ctx_exclude (snd (handler d)) = ctx_exclude d ->
        fst (call site pats handler c)
        = if ctx_exclude d
          then inr (render_notfound (ctx_path (snd (handler d))))
          else inr (fst (handler d))).
Proof.
  intros Hrun; revert Hrun; rewrite call_run.
  destruct (legacy_redirect site (ctx_path c)) as [url|];
    [intros H; now destruct (H (SeeOther url))|].
  cbv zeta.
  destruct (readable_of site pats c) as [readable|] eqn:Er;
    [destruct (real_of site pats c) as [real|] eqn:El|];
    try (intros H; now destruct (H ValueError)).
  destruct (must_redirect _ _ _);
    [intros H; exfalso; eapply H; reflexivity|].
  intros _.
  assert (Hd : handler_ctx urlsafe is_exclusion check_bracketed_host site
                 pats c
               = Some (with_paths readable real
                         (snd (resolutions urlsafe is_exclusion site
                                 pats c))))
    by (unfold handler_ctx; now rewrite Er, El).
  eexists; split; [exact Hd|]; split; [exact (handler_ctx_flag _ _ _ _ Hd)|].
  unfold after_handler.
  split; [|split].
  - intros ->; split; reflexivity.
  - intros ->; reflexivity.
  - intros E.
    destruct (ctx_exclude (snd (handler _))); rewrite <- E; reflexivity.
Qed.

(** C10, as the code has it.  The readable path compared with the raw
    request path is computed from the request path without its trailing
    slashes, then stripped of its own trailing slashes and
    percent-encoded.  For a GET request whose path ends in a slash, when
    that readable path does not end in a slash, an exception leaves the
    processor: the legacy redirect when a legacy check applies, the
    [ValueError] of [urlparse] when the percent-encoding of the readable
    or of the real path raises it, the redirect to the readable path
    followed by the query string otherwise.  A GET of the root path is
    redirected to the empty path followed by the query string. *)
Theorem C10_trailing_slash_redirect (site : Site) (pats : list Rule)
    (handler : M Out) (c : Ctx) :
  readable_of site pats c =
    final_readable check_bracketed_host
      (snd (fst (resolve site (Py.rstrip "/" (ctx_path c)) pats
                   (ctx_encoding c) c)))
  /\ (ctx_method c = "GET" ->
      Py.endswith (ctx_path c) "/" = true ->
      (forall readable, readable_of site pats c = Some readable ->
                        Py.endswith readable "/" = false) ->
      fst (call site pats handler c) =
      match legacy_redirect site (ctx_path c) with
      | Some url => inl (SeeOther url)
      | None =>
          match readable_of site pats c, real_of site pats c with
          | Some readable, Some _ =>
              inl (Redirect (readable ++ ctx_query c))
          | _, _ => inl ValueError
          end
      end)
  /\ (ctx_path c = "/" -> ctx_method c = "GET" ->
      call site patterns handler c = (inl (Redirect ([] ++ ctx_query c)), c)).
Proof.
  split; [apply request_readable_eq|]; split.
  - intros Hm Hp Hr; rewrite call_run.
    destruct (legacy_redirect site (ctx_path c)); [reflexivity|].
    cbv zeta.
    destruct (readable_of site pats c) as [readable|]; [|reflexivity].
    destruct (real_of site pats c) as [real|]; [|reflexivity].
    specialize (Hr readable eq_refl).
    unfold must_redirect, Web.safestr.
    rewrite Hm, str_eqb_refl, andb_true_r.
    destruct (str_eqb_spec readable (ctx_path c)) as [E|_]; [congruence|].
    destruct (str_eqb_spec readable (Urllib.quote (ctx_path c)))
      as [E|_]; [|reflexivity].
    apply quote_keeps_final_slash in Hp; congruence.
  - intros Hp Hm; rewrite call_run.
    unfold request_readable, request_real, resolutions, after_legacy;
      rewrite Hp, Hm.
    cbn [legacy_redirect Py.startswith s2l list_ascii_of_string
           Ascii.eqb Bool.eqb andb].
    change (Py.rstrip "/" "/") with (@nil ascii).
    rewrite !resolve_no_match by reflexivity.
    reflexivity.
Qed.

End ProcessorClaims.

Lemma C1_witness :
  legacy_redirect book_store "/books/OL1M" = None
  /\ fst (__call__ urlsafe_id is_exclusion_default str notfound_page
            accept_host book_store patterns page_handler
            (request "/books/OL1M" "?x=1" "GET" None))
     = inl (Redirect "/books/OL1M/Moby%2BDick?x=1")
  /\ (forall url,
        fst (__call__ urlsafe_id is_exclusion_default str notfound_page
               accept_host book_store patterns page_handler
               (request "/books/OL1M" "?x=1" "POST" None))
        <> inl (Redirect url))
  /\ fst (__call__ urlsafe_id is_exclusion_default str notfound_page
            accept_host book_store patterns page_handler
            (request "//[x" [] "POST" None))
     = inl ValueError.
Proof.
  split; [reflexivity|]; split; [|split].
  - apply (proj1 (C1_redirect_decision urlsafe_id is_exclusion_default str
                    notfound_page accept_host book_store patterns
                    page_handler
                    (request "/books/OL1M" "?x=1" "GET" None)) eq_refl).
    exists ("/books/OL1M/Moby%2BDick" : str), ("/books/OL1M" : str).
    repeat split; vm_compute; discriminate.
  - apply (proj1 (proj2 (C1_redirect_decision urlsafe_id
                           is_exclusion_default str
                           notfound_page accept_host book_store patterns
                           page_handler
                           (request "/books/OL1M" "?x=1" "POST" None)))).
    vm_compute; discriminate.
  - apply (proj2 (proj2 (C1_redirect_decision urlsafe_id
                           is_exclusion_default str
                           notfound_page accept_host book_store patterns
                           page_handler
                           (request "//[x" [] "POST" None))) eq_refl).
    left; reflexivity.
Defined.

(** C1 as the claim words it, for every request, fails on the legacy
    paths: a GET of [/l/eng/] meets the three conditions (its readable path
    is [/l/eng]) and is answered with the redirect to [/languages/eng/], not
    with a redirect to the readable path.  It also fails when the
    percent-encoding raises: a GET of [//[x/] is resolved to [//[x], which
    differs from the request path and from its percent-encoded form, and
    [urlparse] raises [ValueError] on it, whatever
    [_check_bracketed_host] accepts: no redirect is issued. *)
Lemma C1_counterexample :
  (let c := request "/l/eng/" [] "GET" None in
   let readable :=
     request_readable urlsafe_id is_exclusion_default accept_host
       empty_store patterns c in
   readable = Some ("/l/eng" : str)
   /\ readable <> Some (ctx_path c)
   /\ readable <> Some (Urllib.quote (ctx_path c))
   /\ ctx_method c = "GET"
   /\ fst (__call__ urlsafe_id is_exclusion_default str notfound_page
             accept_host empty_store patterns page_handler c)
      = inl (SeeOther "/languages/eng/")
   /\ fst (__call__ urlsafe_id is_exclusion_default str notfound_page
             accept_host empty_store patterns page_handler c)
      <> inl (Redirect ("/l/eng" ++ ctx_query c)))
  /\ (forall check : str -> bool,
        let c := request "//[x/" [] "GET" None in
        snd (fst (resolutions urlsafe_id is_exclusion_default empty_store
                    patterns c))
        = ("//[x" : str)
        /\ ("//[x" : str) <> ctx_path c
        /\ ("//[x" : str) <> Urllib.quote (ctx_path c)
        /\ ctx_method c = "GET"
        /\ request_readable urlsafe_id is_exclusion_default check
             empty_store patterns c = None
        /\ fst (__call__ urlsafe_id is_exclusion_default str notfound_page
                  check empty_store patterns page_handler c)
           = inl ValueError).
Proof.
  split; [repeat split; try reflexivity; vm_compute; discriminate|].
  intros check; repeat split; try reflexivity; vm_compute; discriminate.
Qed.

Lemma C9_witness :
  let c := request "/b/OL1M" "?x=1" "POST" None in
  (forall e, fst (__call__ urlsafe_id exclude_all str notfound_page
                    accept_host book_store patterns page_handler c)
             <> inl e)
  /\ handler_ctx urlsafe_id exclude_all accept_host book_store patterns c
     = Some (mkCtx "/books/OL1M" "?x=1" "POST" None true
                   (Some ("/books/OL1M/Moby%2BDick" : str))
                   (Some ("/books/OL1M?x=1" : str)) None
                   [ "/b/OL1M" : str; "/books/OL1M" : str;
                     "/b/OL1M" : str; "/books/OL1M" : str ])
  /\ fst (__call__ urlsafe_id exclude_all str notfound_page
            accept_host book_store patterns page_handler c)
     = inr (notfound_page "/books/OL1M")
  /\ ctx_status (snd (__call__ urlsafe_id exclude_all str notfound_page
                        accept_host book_store patterns page_handler c))
     = Some ("404 Not Found" : str)
  /\ __call__ urlsafe_id is_exclusion_default str notfound_page
       accept_host book_store patterns page_handler c
     = (inr ("/books/OL1M" : str),
        mkCtx "/books/OL1M" "?x=1" "POST" None false
              (Some ("/books/OL1M/Moby%2BDick" : str))
              (Some ("/books/OL1M?x=1" : str)) None
              [ "/b/OL1M" : str; "/books/OL1M" : str;
                "/b/OL1M" : str; "/books/OL1M" : str ]).
Proof.
  intros c.
  assert (H1 : forall e, fst (__call__ urlsafe_id exclude_all str
                                notfound_page accept_host book_store
                                patterns page_handler c) <> inl e)
    by (intros e; vm_compute; discriminate).
  assert (H2 : forall e, fst (__call__ urlsafe_id is_exclusion_default str
                                notfound_page accept_host book_store
                                patterns page_handler c) <> inl e)
    by (intros e; vm_compute; discriminate).
  split; [exact H1|].
  destruct (C9_exclusion_overrides_handler urlsafe_id exclude_all
              str notfound_page accept_host book_store patterns
              page_handler c H1)
    as (d & Hd & Hf & H404 & _).
  destruct (C9_exclusion_overrides_handler urlsafe_id is_exclusion_default
              str notfound_page accept_host book_store patterns
              page_handler c H2)
    as (d' & Hd' & _ & _ & Hout & _).
  vm_compute in Hd; injection Hd as <-.
  vm_compute in Hd'; injection Hd' as <-.
  split; [reflexivity|].
  destruct (H404 eq_refl) as [Ha Hb].
  split; [exact Ha|]; split; [exact Hb|].
  exact (Hout eq_refl).
Defined.

(** C9 as the claim words it fails for a handler that changes the flag:
    the processor reads the flag after the handler has returned.  The
    policy flags the record of [/books/OL1M] during resolution, the
    handler clears the flag, and the processor returns the output of the
    handler with no status set.  Conversely, with a policy that flags
    nothing, a handler that raises the flag has its output replaced by the
    not-found page. *)
Lemma C9_counterexample :
  let c := request "/b/OL1M" [] "POST" None in
  raises_flag exclude_all book_store patterns None "/b/OL1M" = true
  /\ option_map ctx_exclude
       (handler_ctx urlsafe_id exclude_all accept_host book_store patterns
          c)
     = Some true
  /\ fst (__call__ urlsafe_id exclude_all str notfound_page
            accept_host book_store patterns clearing_handler c)
     = inr ("/books/OL1M" : str)
  /\ ctx_status (snd (__call__ urlsafe_id exclude_all str notfound_page
                        accept_host book_store patterns clearing_handler
                        c))
     = None
  /\ raises_flag is_exclusion_default book_store patterns None "/b/OL1M"
     = false
  /\ option_map ctx_exclude
       (handler_ctx urlsafe_id is_exclusion_default accept_host book_store
          patterns c)
     = Some false
  /\ fst (__call__ urlsafe_id is_exclusion_default str notfound_page
            accept_host book_store patterns flagging_handler c)
     = inr (notfound_page "/books/OL1M").
Proof. repeat split. Qed.

Lemma C10_witness :
  let c := request "/books/OL1M/" "?x=1" "GET" None in
  ctx_method c = "GET"
  /\ Py.endswith (ctx_path c) "/" = true
  /\ request_readable urlsafe_id is_exclusion_default accept_host
       book_store patterns c = Some ("/books/OL1M/Moby%2BDick" : str)
  /\ fst (__call__ urlsafe_id is_exclusion_default str notfound_page
            accept_host book_store patterns page_handler c)
     = inl (Redirect "/books/OL1M/Moby%2BDick?x=1")
  /\ __call__ urlsafe_id is_exclusion_default str notfound_page
       accept_host book_store patterns page_handler
       (request "/" "?x=1" "GET" None)
     = (inl (Redirect "?x=1"), request "/" "?x=1" "GET" None)
  /\ fst (__call__ urlsafe_id is_exclusion_default str notfound_page
            accept_host book_store patterns page_handler
            (request "//[x/" [] "GET" None))
     = inl ValueError.
Proof.
  intros c.
  split; [reflexivity|]; split; [reflexivity|]; split; [reflexivity|];
    split; [|split].
  - apply (proj1 (proj2 (C10_trailing_slash_redirect urlsafe_id
                           is_exclusion_default str notfound_page
                           accept_host book_store
                           patterns page_handler c)));
      try reflexivity.
    intros readable [= <-]; reflexivity.
  - apply (proj2 (proj2 (C10_trailing_slash_redirect urlsafe_id
                           is_exclusion_default str notfound_page
                           accept_host book_store
                           patterns page_handler
                           (request "/" "?x=1" "GET" None))));
      reflexivity.
  - apply (proj1 (proj2 (C10_trailing_slash_redirect urlsafe_id
                           is_exclusion_default str notfound_page
                           accept_host book_store
                           patterns page_handler
                           (request "//[x/" [] "GET" None))));
      try reflexivity.
    intros readable H; discriminate H.
Defined.

(** C10 as the claim words it fails in two ways.  A GET of [//[x/] has a
    path that ends in a slash and differs from the readable path computed,
    [//[x]; percent-encoding that path raises [ValueError], whatever
    [_check_bracketed_host] accepts, and no redirect is issued.  And the
    readable path may end in a slash after percent-encoding: when the
    store holds, under [/books/ia:x], a record of another type whose own
    key is [/books/ia:x/#], [urlparse] takes the final [#] as an empty
    fragment and [geturl] drops it, so the readable path of a GET of
    [/books/ia:x/] is [/books/ia%3Ax/].  It differs from the request path
    but equals the percent-encoded request path: no redirect is raised and
    the handler runs. *)
Lemma C10_counterexample :
  (forall check : str -> bool,
     let c := request "//[x/" [] "GET" None in
     ctx_method c = "GET"
     /\ Py.endswith (ctx_path c) "/" = true
     /\ snd (fst (resolutions urlsafe_id is_exclusion_default empty_store
                    patterns c))
        = ("//[x" : str)
     /\ ("//[x" : str) <> ctx_path c
     /\ fst (__call__ urlsafe_id is_exclusion_default str notfound_page
               check empty_store patterns page_handler c)
        = inl ValueError)
  /\ (let c := request "/books/ia:x/" [] "GET" None in
      let readable :=
        request_readable urlsafe_id is_exclusion_default accept_host
          odd_key_store patterns c
      in
      ctx_method c = "GET"
      /\ Py.endswith (ctx_path c) "/" = true
      /\ readable = Some ("/books/ia%3Ax/" : str)
      /\ readable <> Some (ctx_path c)
      /\ fst (__call__ urlsafe_id is_exclusion_default str notfound_page
                accept_host odd_key_store patterns page_handler c)
         = inr ("/books/ia%3Ax/" : str)).
Proof.
  split; [intros check|];
    repeat split; try reflexivity; vm_compute; discriminate.
Qed.

(** ** Resolution of related paths *)

Section LegacyPrefix.

Variable urlsafe : str -> str.
Variable is_exclusion : option Thing -> bool.

Local Abbreviation resolve := (get_readable_path urlsafe is_exclusion).

(** Two rule-matching paths that differ in the spelling of their first
    segment and whose fallback lookups return the same record have the
    same real path: the record's key followed by the suffix (or by the
    extension, in the extension branch). *)
Lemma first_segment_same_real_path (site : Site) (enc : option str)
    (c : Ctx) (w1 w2 tl k1 k2 : str) (t : Thing) :
  is_name w1 = true ->
  is_name w2 = true ->
  lookup_key patterns enc ("/" ++ w1 ++ "/" ++ tl) = Some k1 ->
  lookup_key patterns enc ("/" ++ w2 ++ "/" ++ tl) = Some k2 ->
  fst (_get_object site k1 c) = Some t ->
  fst (_get_object site k2 c) = Some t ->
  (exists x, k1 = "/" ++ w1 ++ "/" ++ x /\ k2 = "/" ++ w2 ++ "/" ++ x)
  /\ fst (fst (resolve site ("/" ++ w1 ++ "/" ++ tl) patterns enc c))
     = thing_key t ++ real_tail patterns enc ("/" ++ w1 ++ "/" ++ tl)
  /\ fst (fst (resolve site ("/" ++ w2 ++ "/" ++ tl) patterns enc c))
     = thing_key t ++ real_tail patterns enc ("/" ++ w1 ++ "/" ++ tl).
Proof.
  intros H1 H2 K1 K2 T1 T2.
  rewrite get_object_run in T1, T2; cbn [fst] in T1, T2.
  unfold lookup_key, real_tail in *.
  destruct (match_ patterns ("/" ++ w1 ++ "/" ++ tl)) as [m1|] eqn:M1;
    [|discriminate].
  destruct (match_swap patterns w1 w2 tl m1 patterns_segment_rules H1 H2 M1)
    as (x & P1 & M2).
  rewrite M2 in K2; cbn [m_prefix] in K2.
  assert (B : Py.endswith_any ("/" ++ w2 ++ "/" ++ tl) known_exts
              = Py.endswith_any ("/" ++ w1 ++ "/" ++ tl) known_exts)
    by (now rewrite !path_regroup, !endswith_any_after_sep).
  rewrite B in K2.
  destruct (negb (is_none enc)
            || Py.endswith_any ("/" ++ w1 ++ "/" ++ tl) known_exts) eqn:Eb.
  - apply some_inj in K1, K2; subst k1 k2.
    rewrite (resolve_ext urlsafe is_exclusion site _ patterns enc c m1 M1 Eb).
    rewrite (resolve_ext urlsafe is_exclusion site _ patterns enc c _ M2)
      by (now rewrite B).
    cbn [fst]; rewrite T1, T2.
    rewrite !path_regroup, !splitext_after_sep; cbn [fst snd].
    split; [|split; reflexivity].
    exists (fst (OsPath.splitext tl)); now rewrite <- !app_assoc.
  - apply some_inj in K1, K2; subst k1 k2.
    rewrite (resolve_slug urlsafe is_exclusion site _ patterns enc c m1 M1 Eb).
    rewrite (resolve_slug urlsafe is_exclusion site _ patterns enc c _ M2)
      by (now rewrite B).
    cbn [fst m_prefix m_suffix]; rewrite T1, T2.
    split; [|split; reflexivity].
    exists x; split; [exact P1|reflexivity].
Qed.

(** C7.  Take a path under a legacy first segment ([a], [b], [user]) and
    the path that differs from it only in having the modern segment
    ([authors], [books], [people]) instead.  When both match a rule and
    the fallback lookups of their keys return the same record, the keys
    looked up differ in that first segment only and both real paths are
    the record's own key followed by the same suffix or extension: the
    same real path. *)
Theorem C7_legacy_prefix_same_real_path (site : Site) (enc : option str)
    (c : Ctx) (old new tl k1 k2 : str) (t : Thing) :
  In (old, new) legacy_prefixes ->
  lookup_key patterns enc ("/" ++ old ++ "/" ++ tl) = Some k1 ->
  lookup_key patterns enc ("/" ++ new ++ "/" ++ tl) = Some k2 ->
  fst (_get_object site k1 c) = Some t ->
  fst (_get_object site k2 c) = Some t ->
  (exists x, k1 = "/" ++ old ++ "/" ++ x /\ k2 = "/" ++ new ++ "/" ++ x)
  /\ fst (fst (resolve site ("/" ++ old ++ "/" ++ tl) patterns enc c))
     = fst (fst (resolve site ("/" ++ new ++ "/" ++ tl) patterns enc c))
  /\ fst (fst (resolve site ("/" ++ new ++ "/" ++ tl) patterns enc c))
     = thing_key t ++ real_tail patterns enc ("/" ++ new ++ "/" ++ tl).
Proof.
  intros Hl K1 K2 T1 T2.
  destruct (legacy_names old new Hl) as [H1 H2].
  destruct (first_segment_same_real_path site enc c old new tl k1 k2 t
              H1 H2 K1 K2 T1 T2) as (Hx & R1 & R2).
  destruct (first_segment_same_real_path site enc c new new tl k2 k2 t
              H2 H2 K2 K2 T2 T2) as (_ & R3 & _).
  split; [exact Hx|]; split; [congruence|exact R3].
Qed.

End LegacyPrefix.

Lemma C7_witness :
  In ("a" : str, "authors" : str) legacy_prefixes
  /\ lookup_key patterns None ("/" ++ "a" ++ "/" ++ "OL1A/x/edit")
     = Some ("/a/OL1A" : str)
  /\ lookup_key patterns None ("/" ++ "authors" ++ "/" ++ "OL1A/x/edit")
     = Some ("/authors/OL1A" : str)
  /\ fst (_get_object author_store "/a/OL1A" (request "/" [] "GET" None))
     = author_store "/authors/OL1A"
  /\ fst (_get_object author_store "/authors/OL1A" (request "/" [] "GET" None))
     = author_store "/authors/OL1A"
  /\ fst (fst (get_readable_path urlsafe_id is_exclusion_default author_store
                 ("/" ++ "a" ++ "/" ++ "OL1A/x/edit") patterns None
                 (request "/" [] "GET" None)))
     = fst (fst (get_readable_path urlsafe_id is_exclusion_default
                   author_store ("/" ++ "authors" ++ "/" ++ "OL1A/x/edit")
                   patterns None (request "/" [] "GET" None)))
  /\ fst (fst (get_readable_path urlsafe_id is_exclusion_default author_store
                 ("/" ++ "authors" ++ "/" ++ "OL1A/x/edit") patterns None
                 (request "/" [] "GET" None)))
     = ("/authors/OL1A/edit" : str).
Proof.
  split; [now left|]; split; [reflexivity|]; split; [reflexivity|].
  split; [reflexivity|]; split; [reflexivity|].
  apply (C7_legacy_prefix_same_real_path urlsafe_id is_exclusion_default
           author_store None (request "/" [] "GET" None)
           "a" "authors" "OL1A/x/edit" "/a/OL1A" "/authors/OL1A"
           (record "/authors/OL1A" "/type/author" "name" "Jane Austen"));
    solve [now left | reflexivity].
Defined.

Lemma store_canonical (entries : list (str * Thing)) :
  Forall (fun e => thing_key (snd e) = fst e) entries ->
  canonical (store entries).
Proof.
  induction 1 as [|[k0 t0] entries H0 _ IH]; intros k t; cbn [store];
    [discriminate|].
  destruct (str_eqb_spec k k0) as [->|_]; [|apply IH].
  now intros [= <-].
Qed.

(** A path is a directory part, empty or ending in a slash, followed by
    its last segment; [os.path.splitext] and the test of the known
    extensions look at the last segment only. *)
Lemma dir_and_segment (x : str) :
  exists D,
    x = D ++ Py.last_segment "/" x
    /\ forall s,
         OsPath.splitext (D ++ s)
         = (D ++ fst (OsPath.splitext s), snd (OsPath.splitext s))
         /\ Py.endswith_any (D ++ s) known_exts
            = Py.endswith_any s known_exts
         /\ (~ In "/"%char s -> Py.last_segment "/" (D ++ s) = s).
Proof.
  unfold Py.last_segment at 1.
  destruct (Py.rcut "/" x) as [[b a]|] eqn:E.
  - apply rcut_some in E; subst x.
    exists (b ++ ["/"%char]); split; [now rewrite <- app_assoc|].
    intros s; rewrite <- !app_assoc; cbn [app].
    rewrite splitext_after_sep, endswith_any_after_sep.
    rewrite last_segment_app_sep.
    split; [now rewrite <- ?app_assoc|].
    split; [reflexivity|apply last_segment_plain].
  - exists []; split; [reflexivity|].
    intros s; cbn [app].
    split; [now destruct (OsPath.splitext s)|].
    split; [reflexivity|apply last_segment_plain].
Qed.

(** A key with the last segment of the key split off a path takes the
    extension of that path back. *)
Lemma splitext_same_segment (p k : str) :
  Py.last_segment "/" k = Py.last_segment "/" (fst (OsPath.splitext p)) ->
  OsPath.splitext (k ++ snd (OsPath.splitext p))
  = (k, snd (OsPath.splitext p))
  /\ Py.endswith_any (k ++ snd (OsPath.splitext p)) known_exts
     = Py.endswith_any p known_exts.
Proof.
  destruct (dir_and_segment p) as (Dp & Ep & Hp).
  destruct (dir_and_segment k) as (Dk & Ek & Hk).
  pose proof (last_segment_no_sep "/" p) as Hns.
  set (Bp := Py.last_segment "/" p) in *; clearbody Bp; subst p.
  destruct (Hp Bp) as (Sp & Xp & _); rewrite Sp, Xp; cbn [fst snd].
  pose proof (splitext_recombine Bp) as Rb.
  assert (Hs1 : ~ In "/"%char (fst (OsPath.splitext Bp))).
  { intros H; apply Hns; rewrite <- Rb; apply in_or_app; now left. }
  destruct (Hp (fst (OsPath.splitext Bp))) as (_ & _ & Lp).
  rewrite (Lp Hs1); intros Hseg; rewrite Hseg in Ek.
  rewrite Ek, <- app_assoc, Rb.
  destruct (Hk Bp) as (Sk & Xk & _); rewrite Sk, Xk; split; reflexivity.
Qed.

Section TrailingSlash.

Variable urlsafe : str -> str.
Variable is_exclusion : option Thing -> bool.
Variable Out : Type.
Variable render_notfound : str -> Out.
Variable check_bracketed_host : str -> bool.

Local Abbreviation resolve := (get_readable_path urlsafe is_exclusion).
Local Abbreviation call :=
  (__call__ urlsafe is_exclusion Out render_notfound check_bracketed_host).
Local Abbreviation readable_of :=
  (request_readable urlsafe is_exclusion check_bracketed_host).
Local Abbreviation real_of :=
  (request_real urlsafe is_exclusion check_bracketed_host).
Local Abbreviation handler_ctx_of :=
  (handler_ctx urlsafe is_exclusion check_bracketed_host).

(** C8, as the code has it.  With no encoding requested, a rule-matching
    path that has no final slash, no known extension and an empty suffix
    (so at most one segment after the identifier, as in [/books/OL1M]) is
    resolved in the same way with one more slash at its end: the same pair
    of paths, the same lookups, the same exclusion flag.  And the
    processor takes the real and the readable path from the resolution of
    the request path without its trailing slashes: for two requests that
    differ in one slash at the end of the path, for every path, rule list
    and encoding, it computes the same real and readable paths, raises the
    [ValueError] of [urlparse] on both or on neither, and, when the method
    is not GET and no legacy check applies, answers with what follows the
    handler, run in contexts with the same path, readable path and full
    path. *)
Theorem C8_trailing_slash_insensitive (site : Site) (path : str) (c : Ctx)
    (m : MatchResult) :
  (match_ patterns path = Some m ->
   m_suffix m = [] ->
   Py.endswith path "/" = false ->
   Py.endswith_any path known_exts = false ->
   resolve site (path ++ "/") patterns None c
   = resolve site path patterns None c)
  /\ (forall (pats : list Rule) (handler : M Out) (c0 c1 : Ctx),
        ctx_path c1 = ctx_path c0 ++ "/" ->
        ctx_encoding c1 = ctx_encoding c0 ->
        ctx_query c1 = ctx_query c0 ->
        readable_of site pats c1 = readable_of site pats c0
        /\ real_of site pats c1 = real_of site pats c0
        /\ (handler_ctx_of site pats c1 = None
            <-> handler_ctx_of site pats c0 = None)
        /\ forall d0 d1,
             handler_ctx_of site pats c0 = Some d0 ->
             handler_ctx_of site pats c1 = Some d1 ->
             ctx_path d1 = ctx_path d0
             /\ ctx_readable_path d1 = ctx_readable_path d0
             /\ ctx_fullpath d1 = ctx_fullpath d0
             /\ (ctx_method c0 <> "GET" ->
                 legacy_redirect site (ctx_path c0) = None ->
                 call site pats handler c0
                 = after_handler render_notfound (handler d0))
             /\ (ctx_method c1 <> "GET" ->
                 legacy_redirect site (ctx_path c1) = None ->
                 call site pats handler c1
                 = after_handler render_notfound (handler d1))).
Proof.
  split.
  - intros Hm Hs He Hx.
    pose proof (match_snoc_slash patterns path m patterns_no_final_slash
                  Hm Hs He) as Hm'.
    rewrite (resolve_slug urlsafe is_exclusion site (path ++ "/") patterns
               None c m Hm')
      by (cbn [is_none negb orb]; apply endswith_any_slash).
    rewrite (resolve_slug urlsafe is_exclusion site path patterns
               None c m Hm)
      by (cbn [is_none negb orb]; exact Hx).
    reflexivity.
  - intros pats handler c0 c1 Hp He Hq.
    assert (Hres : fst (resolutions urlsafe is_exclusion site pats c1)
                   = fst (resolutions urlsafe is_exclusion site pats c0)).
    { unfold resolutions; rewrite Hp, He.
      change (s2l "/") with ["/"%char]; rewrite rstrip_snoc.
      apply resolve_value. }
    assert (Hread : readable_of site pats c1 = readable_of site pats c0)
      by (unfold request_readable; now rewrite Hres).
    assert (Hreal : real_of site pats c1 = real_of site pats c0)
      by (unfold request_real; now rewrite Hres).
    split; [exact Hread|]; split; [exact Hreal|]; split.
    { unfold handler_ctx; rewrite Hread, Hreal.
      destruct (readable_of site pats c0); [|tauto].
      destruct (real_of site pats c0); [|tauto].
      split; discriminate. }
    intros d0 d1 H0 H1.
    assert (Hcall : forall c2 d2,
               handler_ctx_of site pats c2 = Some d2 ->
               ctx_method c2 <> "GET" ->
               legacy_redirect site (ctx_path c2) = None ->
               call site pats handler c2
               = after_handler render_notfound (handler d2)).
    { intros c2 d2 H2 Hm Hl; rewrite call_run, Hl; cbv zeta.
      apply handler_ctx_some in H2 as (readable & real & -> & -> & ->).
      apply str_eqb_neq in Hm.
      unfold must_redirect; now rewrite Hm, andb_false_r. }
    pose proof (Hcall c0 d0 H0) as Hc0; pose proof (Hcall c1 d1 H1) as Hc1.
    apply handler_ctx_some in H0 as (readable0 & real0 & R0 & L0 & ->).
    apply handler_ctx_some in H1 as (readable1 & real1 & R1 & L1 & ->).
    rewrite Hread, R0 in R1; rewrite Hreal, L0 in L1.
    injection R1 as <-; injection L1 as <-.
    cbn [with_paths ctx_path ctx_readable_path ctx_fullpath ctx_query].
    assert (Hqq : ctx_query (snd (resolutions urlsafe is_exclusion site
                                    pats c1))
                  = ctx_query (snd (resolutions urlsafe is_exclusion site
                                      pats c0))).
    { unfold resolutions.
      destruct (resolve_keeps urlsafe is_exclusion site
                  (Py.rstrip "/" (ctx_path c1)) pats (ctx_encoding c1)
                  (snd (resolve site (ctx_path c1) pats (ctx_encoding c1)
                          (after_legacy c1)))) as (_ & -> & _).
      destruct (resolve_keeps urlsafe is_exclusion site
                  (ctx_path c1) pats (ctx_encoding c1)
                  (after_legacy c1)) as (_ & -> & _).
      destruct (resolve_keeps urlsafe is_exclusion site
                  (Py.rstrip "/" (ctx_path c0)) pats (ctx_encoding c0)
                  (snd (resolve site (ctx_path c0) pats (ctx_encoding c0)
                          (after_legacy c0)))) as (_ & -> & _).
      destruct (resolve_keeps urlsafe is_exclusion site
                  (ctx_path c0) pats (ctx_encoding c0)
                  (after_legacy c0)) as (_ & -> & _).
      destruct (after_legacy_keeps c0) as (_ & -> & _).
      destruct (after_legacy_keeps c1) as (_ & -> & _).
      exact Hq. }
    rewrite Hqq; repeat split; assumption.
Qed.

End TrailingSlash.

Lemma C8_witness :
  match_ patterns "/books/OL1M"
    = Some (mkMatch "/type/edition" "title" "untitled" "/books/OL1M" [] [])
  /\ Py.endswith "/books/OL1M" "/" = false
  /\ Py.endswith_any "/books/OL1M" known_exts = false
  /\ get_readable_path urlsafe_id is_exclusion_default book_store
       ("/books/OL1M" ++ "/") patterns None (request "/" [] "GET" None)
     = get_readable_path urlsafe_id is_exclusion_default book_store
         "/books/OL1M" patterns None (request "/" [] "GET" None)
  /\ request_readable urlsafe_id is_exclusion_default accept_host
       book_store patterns (request "/books/OL1M/x/edit/" [] "POST" None)
     = Some ("/books/OL1M/Moby%2BDick/edit" : str)
  /\ request_readable urlsafe_id is_exclusion_default accept_host
       book_store patterns (request "/books/OL1M/x/edit" [] "POST" None)
     = Some ("/books/OL1M/Moby%2BDick/edit" : str)
  /\ __call__ urlsafe_id is_exclusion_default str notfound_page accept_host
       book_store patterns page_handler
       (request "/books/OL1M/x/edit/" [] "POST" None)
     = (inr ("/books/OL1M/edit" : str),
        mkCtx "/books/OL1M/edit" [] "POST" None false
              (Some ("/books/OL1M/Moby%2BDick/edit" : str))
              (Some ("/books/OL1M/edit" : str)) None
              [ "/books/OL1M" : str; "/books/OL1M" : str ])
  /\ __call__ urlsafe_id is_exclusion_default str notfound_page accept_host
       book_store patterns page_handler
       (request "/books/OL1M/x/edit" [] "POST" None)
     = (inr ("/books/OL1M/edit" : str),
        mkCtx "/books/OL1M/edit" [] "POST" None false
              (Some ("/books/OL1M/Moby%2BDick/edit" : str))
              (Some ("/books/OL1M/edit" : str)) None
              [ "/books/OL1M" : str; "/books/OL1M" : str ]).
Proof.
  split; [reflexivity|]; split; [reflexivity|]; split; [reflexivity|].
  pose proof (C8_trailing_slash_insensitive urlsafe_id is_exclusion_default
                str notfound_page accept_host
                book_store "/books/OL1M" (request "/" [] "GET" None)
                (mkMatch "/type/edition" "title" "untitled" "/books/OL1M"
                         [] [])) as [H1 H2].
  split; [apply H1; reflexivity|].
  destruct (H2 patterns page_handler
               (request "/books/OL1M/x/edit" [] "POST" None)
               (request "/books/OL1M/x/edit/" [] "POST" None)
               eq_refl eq_refl eq_refl) as (Hr & _ & _ & Hd).
  split; [rewrite Hr; reflexivity|]; split; [reflexivity|].
  destruct (Hd _ _ eq_refl eq_refl) as (_ & _ & _ & Hc0 & Hc1).
  split.
  - rewrite Hc1; [reflexivity|vm_compute; discriminate|reflexivity].
  - rewrite Hc0; [reflexivity|vm_compute; discriminate|reflexivity].
Defined.

(** C8 as the claim words it fails in two ways.  When an encoding is
    requested, the path goes through the extension branch, where the whole
    path is the key: [/books/OL1M/] is not found and is returned as it is,
    while [/books/OL1M] is found.  And with no encoding requested, a final
    slash after a suffix stays in the suffix.  Nor does the processor
    answer alike after it has stripped the slash, since it first resolves
    the path as received and keeps the exclusion flag of that resolution:
    under a policy that flags every record, a POST of [/books/OL1M.json/]
    is answered with the not-found page and a POST of [/books/OL1M.json]
    with the output of the handler. *)
Lemma C8_counterexample :
  fst (get_readable_path urlsafe_id is_exclusion_default book_store
         "/books/OL1M/" patterns (Some ("json" : str))
         (request "/" [] "GET" None))
    <> fst (get_readable_path urlsafe_id is_exclusion_default book_store
              "/books/OL1M" patterns (Some ("json" : str))
              (request "/" [] "GET" None))
  /\ fst (get_readable_path urlsafe_id is_exclusion_default book_store
            "/books/OL1M/Moby+Dick/edit/" patterns None
            (request "/" [] "GET" None))
     <> fst (get_readable_path urlsafe_id is_exclusion_default book_store
               "/books/OL1M/Moby+Dick/edit" patterns None
               (request "/" [] "GET" None))
  /\ fst (get_readable_path urlsafe_id is_exclusion_default book_store
            "/books/OL1M/" patterns (Some ("json" : str))
            (request "/" [] "GET" None))
     = ("/books/OL1M/" : str, "/books/OL1M/" : str)
  /\ fst (get_readable_path urlsafe_id is_exclusion_default book_store
            "/books/OL1M" patterns (Some ("json" : str))
            (request "/" [] "GET" None))
     = ("/books/OL1M" : str, "/books/OL1M" : str)
  /\ fst (get_readable_path urlsafe_id is_exclusion_default book_store
            "/books/OL1M/Moby+Dick/edit/" patterns None
            (request "/" [] "GET" None))
     = ("/books/OL1M/edit/" : str, "/books/OL1M/Moby+Dick/edit/" : str)
  /\ fst (get_readable_path urlsafe_id is_exclusion_default book_store
            "/books/OL1M/Moby+Dick/edit" patterns None
            (request "/" [] "GET" None))
     = ("/books/OL1M/edit" : str, "/books/OL1M/Moby+Dick/edit" : str)
  /\ fst (__call__ urlsafe_id exclude_all str notfound_page accept_host
            book_store patterns page_handler
            (request "/books/OL1M.json/" [] "POST" None))
     = inr (notfound_page "/books/OL1M.json")
  /\ fst (__call__ urlsafe_id exclude_all str notfound_page accept_host
            book_store patterns page_handler
            (request "/books/OL1M.json" [] "POST" None))
     = inr ("/books/OL1M.json" : str).
Proof. repeat split; try reflexivity; vm_compute; discriminate. Qed.

Section Idempotence.

Variable urlsafe : str -> str.
Variable is_exclusion : option Thing -> bool.

Local Abbreviation resolve := (get_readable_path urlsafe is_exclusion).

(** Outside the slug branch: unmatched paths, requests with an encoding
    and paths with a known extension. *)
Lemma idempotent_structured (site : Site) (p : str) (pats : list Rule)
    (enc : option str) (c c' : Ctx) :
  canonical site ->
  match_ pats p = None
  \/ enc <> None \/ Py.endswith_any p known_exts = true ->
  fst (resolve site (snd (fst (resolve site p pats enc c))) pats enc c')
  = fst (resolve site p pats enc c).
Proof.
  intros Hcan H.
  destruct (match_ pats p) as [m|] eqn:Em;
    [|rewrite (resolve_no_match urlsafe is_exclusion site p pats enc c Em);
      cbn [fst snd];
      now rewrite (resolve_no_match urlsafe is_exclusion site p pats enc c'
                     Em)].
  assert (Eb : negb (is_none enc) || Py.endswith_any p known_exts = true).
  { destruct H as [H|[H|H]]; [discriminate H| |].
    - destruct enc; [reflexivity|congruence].
    - rewrite H; apply orb_true_r. }
  rewrite (resolve_ext urlsafe is_exclusion site p pats enc c m Em Eb).
  cbn [fst snd].
  destruct (first_found site (candidates (fst (OsPath.splitext p))))
    as [t|] eqn:Ef.
  - destruct (first_found_in site _ t Ef) as (k & Hk & Hs).
    rewrite (Hcan k t Hs).
    destruct (splitext_same_segment p k (candidates_segment _ k Hk))
      as [Sk Xk].
    destruct (match_ pats (k ++ snd (OsPath.splitext p))) as [m'|] eqn:Em';
      [|now rewrite (resolve_no_match urlsafe is_exclusion site _ pats enc c'
                       Em')].
    rewrite (resolve_ext urlsafe is_exclusion site _ pats enc c' m' Em')
      by (now rewrite Xk).
    cbn [fst]; rewrite Sk; cbn [fst snd].
    unfold candidates; cbn [first_found]; rewrite Hs.
    now rewrite (Hcan k t Hs).
  - rewrite (resolve_ext urlsafe is_exclusion site p pats enc c' m Em Eb).
    cbn [fst]; now rewrite Ef.
Qed.

(** C4, as the code has it.  In a store that holds every record under its
    own key, resolving the readable path of a path gives the same real and
    readable paths again in each of these cases: the path matches no rule;
    an encoding is requested or the path ends in a known extension; or,
    with no encoding requested, the path is matched by an edition, author
    or work rule, has no known extension, its readable path does not end
    in a known extension either, and either the suffix is empty or the
    fallback lookup finds a record of the rule's type, so that the
    readable path carries the slug. *)
Theorem C4_idempotent_resolution (site : Site) (p : str) (c c' : Ctx) :
  canonical site ->
  (forall (pats : list Rule) (enc : option str),
     match_ pats p = None
     \/ enc <> None \/ Py.endswith_any p known_exts = true ->
     let r := snd (fst (resolve site p pats enc c)) in
     fst (resolve site r pats enc c') = fst (resolve site p pats enc c))
  /\ (forall m : MatchResult,
        match_ patterns p = Some m ->
        m_type m <> ("/type/list" : str) ->
        Py.endswith_any p known_exts = false ->
        m_suffix m = []
        \/ (exists t, fst (_get_object site (m_prefix m) c) = Some t
                      /\ thing_type_key t = m_type m) ->
        let r := snd (fst (resolve site p patterns None c)) in
        Py.endswith_any r known_exts = false ->
        fst (resolve site r patterns None c')
        = fst (resolve site p patterns None c)).
Proof.
  intros Hcan; split;
    [intros pats enc H; now apply idempotent_structured|].
  intros m Hm Hty Hext Hcase.
  rewrite get_object_run in Hcase; cbn [fst] in Hcase.
  rewrite (resolve_slug urlsafe is_exclusion site p patterns None c m Hm)
    by exact Hext.
  cbn [fst snd].
  (* the matched prefix is a first segment and an identifier *)
  destruct (match_prefix patterns p m Hm) as (rule & rem & Hr1 & Ep & Em).
  destruct rule as [[[pat ty] prop] dflt].
  assert (Ety : m_type m = ty) by (now rewrite Em).
  assert (Eprop : m_property m = prop) by (now rewrite Em).
  assert (Edflt : m_default_title m = dflt) by (now rewrite Em).
  destruct (first_rule_identifier p _ rem Hr1)
    as (n & w & id & Hn & Hid & Hw & Ep');
    [cbn [fst snd]; congruence|].
  assert (Epre : m_prefix m = "/" ++ w ++ "/" ++ id).
  { rewrite Ep in Ep'.
    replace ("/" ++ w ++ "/" ++ id ++ rem)
      with (("/" ++ w ++ "/" ++ id) ++ rem) in Ep'
      by (now rewrite <- !app_assoc).
    now apply app_inv_tail in Ep'. }
  assert (Hsuf : suffix_form (m_suffix m))
    by (rewrite Em; apply tail_parts_suffix_form).
  (* a key of that form, when it is followed by nothing, is matched by
     the same rule *)
  assert (Hbare : forall w', run_of Re.word w' ->
             match_ patterns ("/" ++ w' ++ "/" ++ id)
             = Some (mkMatch ty prop dflt ("/" ++ w' ++ "/" ++ id) [] [])).
  { intros w' Hw'; rewrite match_first_rule.
    pose proof (first_rule_identifier_tail n id w' [] _ Hid Hw' Hn
                  (fun _ => I)) as Hf.
    rewrite app_nil_r in Hf; rewrite Hf; cbn [option_map]; f_equal.
    pose proof (match_of_app ("/" ++ w' ++ "/" ++ id) [] pat ty prop dflt)
      as Ho.
    rewrite app_nil_r in Ho; exact Ho. }
  destruct (first_found site (candidates (m_prefix m))) as [t|] eqn:Ht.
  - (* the record is held under a key of the same form *)
    destruct (first_found_in site _ t Ht) as (k & Hk & Hsite).
    rewrite Epre in Hk.
    destruct (candidates_identifier n w id k Hid Hw Hk) as (w' & Hw' & Ek).
    assert (Hfound : first_found site (candidates k) = Some t)
      by (unfold candidates; cbn [first_found]; now rewrite Hsite).
    unfold resolved_prefix, resolved_middle; rewrite (Hcan k t Hsite).
    destruct (str_eqb_spec (thing_type_key t) (m_type m)) as [Htype|Htype].
    + (* the slug is inserted *)
      unfold slug.
      set (q := Urllib.quote_plus
                  (urlsafe (Py.strip (or_default (thing_get t (m_property m))
                                                 (m_default_title m))))).
      intros Hr.
      assert (Hm' : match_ patterns (k ++ ("/"%char :: q) ++ m_suffix m)
                    = Some (mkMatch ty prop dflt k q (m_suffix m))).
      { rewrite match_first_rule, Ek.
        replace (("/" ++ w' ++ "/" ++ id) ++ ("/"%char :: q) ++ m_suffix m)
          with ("/" ++ w' ++ "/" ++ id ++ "/"%char :: q ++ m_suffix m)
          by (now rewrite <- !app_assoc).
        rewrite (first_rule_of_identifier n id w' (q ++ m_suffix m) _
                   Hid Hw' Hn).
        cbn [option_map]; f_equal.
        replace ("/" ++ w' ++ "/" ++ id ++ "/"%char :: q ++ m_suffix m)
          with (("/" ++ w' ++ "/" ++ id) ++ "/"%char :: q ++ m_suffix m)
          by (now rewrite <- !app_assoc).
        rewrite match_of_app, tail_parts_slug; auto.
        apply quote_plus_no_slash. }
      rewrite (resolve_slug urlsafe is_exclusion site _ patterns None c' _
                 Hm') by exact Hr.
      cbn [fst m_prefix m_suffix m_type m_property m_default_title].
      rewrite Hfound; unfold resolved_prefix, resolved_middle.
      cbn [m_type m_property m_default_title].
      rewrite (Hcan k t Hsite), Htype, Ety, str_eqb_refl; unfold slug.
      subst q; now rewrite Eprop, Edflt.
    + (* a record of another type: no slug, and the suffix is empty *)
      assert (Es : m_suffix m = []).
      { destruct Hcase as [Es|(t' & [= <-] & Ht')];
          [exact Es|contradiction]. }
      rewrite Es, !app_nil_r; intros Hr.
      rewrite Ek in *.
      rewrite (resolve_slug urlsafe is_exclusion site _ patterns None c' _
                 (Hbare w' Hw')) by exact Hr.
      cbn [fst m_prefix m_suffix m_type m_property m_default_title].
      rewrite Hfound; unfold resolved_prefix, resolved_middle.
      cbn [m_type].
      rewrite (Hcan _ t Hsite), <- Ety.
      destruct (str_eqb_spec (thing_type_key t) (m_type m));
        [contradiction|now rewrite !app_nil_r].
  - (* no record: no slug, and the suffix is empty *)
    assert (Es : m_suffix m = []).
    { destruct Hcase as [Es|(t' & Ht' & _)]; [exact Es|discriminate]. }
    unfold resolved_prefix, resolved_middle.
    rewrite Es, !app_nil_r; intros Hr.
    rewrite Epre in *.
    rewrite (resolve_slug urlsafe is_exclusion site _ patterns None c' _
               (Hbare w Hw)) by exact Hr.
    cbn [fst m_prefix m_suffix]; rewrite Ht.
    unfold resolved_prefix, resolved_middle; cbn [m_prefix].
    now rewrite !app_nil_r.
Qed.

End Idempotence.

Lemma book_store_canonical : canonical book_store.
Proof.
  intros k t; unfold book_store; cbn [store].
  destruct (str_eqb_spec k "/books/OL1M") as [->|_]; [|discriminate].
  now intros [= <-].
Qed.

Lemma C4_witness :
  canonical book_store
  /\ match_ patterns "/b/OL1M/x/edit"
     = Some (mkMatch "/type/edition" "title" "untitled" "/b/OL1M" "x" "/edit")
  /\ Py.endswith_any "/b/OL1M/x/edit" known_exts = false
  /\ fst (_get_object book_store "/b/OL1M" (request "/" [] "GET" None))
     = Some (record "/books/OL1M" "/type/edition" "title" "Moby Dick")
  /\ snd (fst (get_readable_path urlsafe_id is_exclusion_default book_store
                 "/b/OL1M/x/edit" patterns None (request "/" [] "GET" None)))
     = ("/books/OL1M/Moby+Dick/edit" : str)
  /\ fst (get_readable_path urlsafe_id is_exclusion_default book_store
            "/books/OL1M/Moby+Dick/edit" patterns None
            (request "/" [] "GET" None))
     = fst (get_readable_path urlsafe_id is_exclusion_default book_store
              "/b/OL1M/x/edit" patterns None (request "/" [] "GET" None))
  /\ snd (fst (get_readable_path urlsafe_id is_exclusion_default book_store
                 "/b/OL1M.json" patterns None (request "/" [] "GET" None)))
     = ("/books/OL1M.json" : str)
  /\ fst (get_readable_path urlsafe_id is_exclusion_default book_store
            "/books/OL1M.json" patterns None (request "/" [] "GET" None))
     = fst (get_readable_path urlsafe_id is_exclusion_default book_store
              "/b/OL1M.json" patterns None (request "/" [] "GET" None))
  /\ snd (fst (get_readable_path urlsafe_id is_exclusion_default book_store
                 "/b/OL2M/x" patterns None (request "/" [] "GET" None)))
     = ("/b/OL2M" : str)
  /\ fst (get_readable_path urlsafe_id is_exclusion_default book_store
            "/b/OL2M" patterns None (request "/" [] "GET" None))
     = fst (get_readable_path urlsafe_id is_exclusion_default book_store
              "/b/OL2M/x" patterns None (request "/" [] "GET" None)).
Proof.
  split; [exact book_store_canonical|].
  split; [reflexivity|]; split; [reflexivity|]; split; [reflexivity|].
  split; [reflexivity|]; split; [|split; [reflexivity|split;
                                   [|split; [reflexivity|]]]].
  - apply (proj2 (C4_idempotent_resolution urlsafe_id is_exclusion_default
                    book_store "/b/OL1M/x/edit" (request "/" [] "GET" None)
                    (request "/" [] "GET" None) book_store_canonical)
             (mkMatch "/type/edition" "title" "untitled" "/b/OL1M" "x"
                      "/edit"));
      try reflexivity; [vm_compute; discriminate|].
    right; eexists; split; reflexivity.
  - apply (proj1 (C4_idempotent_resolution urlsafe_id is_exclusion_default
                    book_store "/b/OL1M.json" (request "/" [] "GET" None)
                    (request "/" [] "GET" None) book_store_canonical)
             patterns None).
    right; right; reflexivity.
  - apply (proj2 (C4_idempotent_resolution urlsafe_id is_exclusion_default
                    book_store "/b/OL2M/x" (request "/" [] "GET" None)
                    (request "/" [] "GET" None) book_store_canonical)
             (mkMatch "/type/edition" "title" "untitled" "/b/OL2M" "x" []));
      try reflexivity; [vm_compute; discriminate|].
    left; reflexivity.
Defined.

(** C4 as the claim words it fails when no slug is inserted and a suffix
    is there: the store has no record for [OL2M], so the middle segment of
    [/books/OL2M/x/edit] is dropped and the readable path is
    [/books/OL2M/edit]; in that path [edit] is the middle segment, and it
    is dropped in turn.  It fails as well in a store that holds a record
    under a key that is not its own, when that key holds nothing; under
    the list rule, whose pattern takes a slug that reads as a list
    identifier into the prefix; and when the readable path ends in a known
    extension, which sends it through the other branch. *)
Lemma C4_counterexample :
  (snd (fst (get_readable_path urlsafe_id is_exclusion_default book_store
               "/books/OL2M/x/edit" patterns None
               (request "/" [] "GET" None)))
     = ("/books/OL2M/edit" : str)
   /\ snd (fst (get_readable_path urlsafe_id is_exclusion_default book_store
                  "/books/OL2M/edit" patterns None
                  (request "/" [] "GET" None)))
      = ("/books/OL2M" : str)
   /\ snd (fst (get_readable_path urlsafe_id is_exclusion_default book_store
                  (snd (fst (get_readable_path urlsafe_id
                               is_exclusion_default
                               book_store "/books/OL2M/x/edit" patterns None
                               (request "/" [] "GET" None))))
                  patterns None (request "/" [] "GET" None)))
      <> snd (fst (get_readable_path urlsafe_id is_exclusion_default
                     book_store
                     "/books/OL2M/x/edit" patterns None
                     (request "/" [] "GET" None))))
  /\ (snd (fst (get_readable_path urlsafe_id is_exclusion_default
                  moved_store "/books/OL1M" patterns None
                  (request "/" [] "GET" None)))
      = ("/books/OL2M/Emma" : str)
      /\ snd (fst (get_readable_path urlsafe_id is_exclusion_default
                     moved_store "/books/OL2M/Emma" patterns None
                     (request "/" [] "GET" None)))
         = ("/books/OL2M" : str))
  /\ (canonical list_store
      /\ snd (fst (get_readable_path urlsafe_id is_exclusion_default
                     list_store "/people/x/lists/OL1L" patterns None
                     (request "/" [] "GET" None)))
         = ("/people/x/lists/OL1L/OL5L" : str)
      /\ snd (fst (get_readable_path urlsafe_id is_exclusion_default
                     list_store "/people/x/lists/OL1L/OL5L" patterns None
                     (request "/" [] "GET" None)))
         = ("/people/x/lists/OL1L/OL5L/best" : str))
  /\ (canonical archive_store
      /\ match_ patterns "/b/ia:foo.json/"
         = Some (mkMatch "/type/edition" "title" "untitled"
                         "/b/ia:foo.json" [] [])
      /\ snd (fst (get_readable_path urlsafe_id is_exclusion_default
                     archive_store "/b/ia:foo.json/" patterns None
                     (request "/" [] "GET" None)))
         = ("/b/ia:foo.json" : str)
      /\ snd (fst (get_readable_path urlsafe_id is_exclusion_default
                     archive_store "/b/ia:foo.json" patterns None
                     (request "/" [] "GET" None)))
         = ("/books/ia:foo.json" : str)).
Proof.
  split; [repeat split; try reflexivity; vm_compute; discriminate|].
  split; [split; reflexivity|].
  split; split; try (apply store_canonical; repeat constructor);
    repeat split; reflexivity.
Qed.

(** * Further properties *)

(** ** Percent-encoding of paths *)

Lemma split_nonempty (c : ascii) (s : str) : Py.split c s <> [].
Proof.
  induction s as [|x s IH]; simpl; [discriminate|].
  destruct (Ascii.eqb x c); [discriminate|].
  destruct (Py.split c s); [contradiction|discriminate].
Qed.

Lemma quote_cons (x : ascii) (s : str) :
  Urllib.quote (x :: s) = Urllib.quote_char (Ascii.eqb "/") x ++ Urllib.quote s.
Proof. reflexivity. Qed.

(** Quoting segment by segment is quoting the path. *)
Lemma join_quote_split (s : str) :
  Py.join "/" (map Urllib.quote (Py.split "/" s)) = Urllib.quote s.
Proof.
  induction s as [|x s IH]; [reflexivity|].
  rewrite quote_cons; cbn [Py.split].
  pose proof (split_nonempty "/" s) as Hne.
  destruct (Ascii.eqb_spec x "/") as [->|Hx].
  - destruct (Py.split "/" s) as [|h t]; [contradiction|].
    cbn [map Py.join] in *; rewrite IH; reflexivity.
  - destruct (Py.split "/" s) as [|h t]; [contradiction|].
    cbn [map] in *; rewrite quote_cons.
    destruct t as [|h' t]; cbn [map Py.join] in *.
    + now rewrite IH.
    + rewrite <- IH, <- app_assoc; reflexivity.
Qed.

Lemma filter_all {A} (f : A -> bool) (l : list A) :
  forallb f l = true -> filter f l = l.
Proof.
  induction l as [|x l IH]; simpl; [reflexivity|].
  destruct (f x); [|discriminate]; intros H; now rewrite IH.
Qed.

Lemma forallb_imp {A} (f g : A -> bool) (l : list A) :
  (forall x, f x = true -> g x = true) ->
  forallb f l = true -> forallb g l = true.
Proof.
  intros H; rewrite !forallb_forall; auto.
Qed.

Lemma forallb_notin (f : ascii -> bool) (c : ascii) (l : str) :
  f c = false -> forallb f l = true -> ~ In c l.
Proof.
  intros Hc H Hin; rewrite forallb_forall in H.
  specialize (H c Hin); congruence.
Qed.

Lemma contains_notin (c : ascii) (s : str) :
  ~ In c s -> Py.contains c s = false.
Proof.
  induction s as [|x s IH]; simpl; [reflexivity|]; intros H.
  destruct (Ascii.eqb_spec c x) as [->|_]; [exfalso; apply H; now left|].
  apply IH; intros Hin; apply H; now right.
Qed.

(** The scheme test of [urlsplit] fails on a text that starts with a
    slash. *)
Lemma no_scheme (u : str) :
  match Py.cut ":" ("/"%char :: u) with
  | (c :: before, Some after) =>
      if Urllib.ascii_alpha c && forallb Urllib.scheme_char (c :: before)
      then (map Py.lower_char (c :: before), after)
      else ([], "/"%char :: u)
  | _ => ([], "/"%char :: u)
  end = ([], "/"%char :: u).
Proof.
  cbn [Py.cut Ascii.eqb Bool.eqb].
  destruct (Py.cut ":" u) as [a [r|]]; reflexivity.
Qed.

Lemma plain_path_inv (p : str) :
  plain_path p = true ->
  exists u, p = "/"%char :: u
            /\ Py.startswith u "/" = false
            /\ forallb (fun c => negb (url_special c)) u = true.
Proof.
  unfold plain_path; intros H.
  apply andb_prop in H as [H H3]; apply andb_prop in H as [H1 H2].
  destruct p as [|x u]; [discriminate|].
  cbn [Py.startswith s2l list_ascii_of_string] in H1, H2.
  rewrite andb_true_r in H1.
  apply Ascii.eqb_eq in H1; subst x.
  exists u; split; [reflexivity|]; split.
  - rewrite Ascii.eqb_refl in H2; cbn [andb] in H2.
    now apply negb_true_iff in H2.
  - cbn [forallb] in H3; now apply andb_prop in H3 as [_ H3].
Qed.

(** [urlsplit] on an absolute path followed by what [cut] splits off. *)
Lemma urlsplit_path (check : str -> bool) (u tl : str) :
  Py.startswith (u ++ tl) "/" = false ->
  forallb (fun c => negb ((Py.code c =? 9) || (Py.code c =? 10)
                          || (Py.code c =? 13))) (u ++ tl) = true ->
  Urllib.urlsplit check ("/"%char :: u ++ tl) =
  (let url := "/"%char :: u ++ tl in
   let '(url, fragment) :=
     match Py.cut "#" url with
     | (a, Some f) => (a, f)
     | (a, None) => (a, [])
     end in
   let '(url, query) :=
     match Py.cut "?" url with
     | (a, Some q) => (a, q)
     | (a, None) => (a, [])
     end in
   Some ([], [], url, query, fragment)).
Proof.
  intros Hs Hf; unfold Urllib.urlsplit.
  cbn [Py.lstrip_by]; change (Py.code "/" <=? 32) with false; cbv iota.
  cbn [filter]; change (negb _) with true at 1; cbv iota.
  rewrite (filter_all _ _ Hf).
  rewrite no_scheme.
  assert (E : Py.startswith ("/"%char :: u ++ tl) "//" = false).
  { cbn [Py.startswith s2l list_ascii_of_string Ascii.eqb Bool.eqb andb].
    exact Hs. }
  rewrite E.
  change (Urllib.netloc_accepted check []) with true; cbv iota.
  destruct (Py.cut "#" ("/"%char :: u ++ tl)) as [a [f|]];
    destruct (Py.cut "?" a) as [a' [q|]]; reflexivity.
Qed.

Lemma no_ctrl_of_special (l : str) :
  forallb (fun c => negb (url_special c)) l = true ->
  forallb (fun c => negb ((Py.code c =? 9) || (Py.code c =? 10)
                          || (Py.code c =? 13))) l = true.
Proof.
  apply forallb_imp; intros x; unfold url_special.
  destruct (Ascii.eqb x "?"), (Ascii.eqb x "#"), (Ascii.eqb x ";");
    cbn [orb negb]; auto; discriminate.
Qed.

Lemma no_ctrl_of_query (l : str) :
  plain_query l = true ->
  forallb (fun c => negb ((Py.code c =? 9) || (Py.code c =? 10)
                          || (Py.code c =? 13))) l = true.
Proof.
  apply forallb_imp; intros x.
  destruct (Ascii.eqb x "#"); cbn [orb negb]; auto; discriminate.
Qed.

(** [geturl] on a result that has only a path and a query. *)
Lemma geturl_path_query (p q : str) :
  Urllib.geturl (Urllib.mkParseResult [] [] p [] q [])
  = p ++ (if Py.truthy q then "?"%char :: q else []).
Proof.
  unfold Urllib.geturl; cbn.
  destruct q; cbn; [now rewrite app_nil_r|reflexivity].
Qed.

Lemma encode_plain_query (check : str -> bool) (p q : str)
    (has_query : bool) :
  plain_path p = true ->
  plain_query q = true ->
  (has_query = false -> q = []) ->
  encode_url_path check (p ++ if has_query then "?"%char :: q else [])
  = Some (Urllib.quote p ++ (if Py.truthy q then "?"%char :: q else [])).
Proof.
  intros Hp Hq Hn.
  destruct (plain_path_inv p Hp) as (u & -> & Hs & Hu).
  set (tl := if has_query then "?"%char :: q else []).
  assert (Hsp : ~ In "?"%char u /\ ~ In "#"%char u /\ ~ In ";"%char u).
  { repeat split; eapply forallb_notin; try exact Hu; reflexivity. }
  destruct Hsp as (Hu1 & Hu2 & Hu3).
  assert (Hq2 : ~ In "#"%char q)
    by (eapply forallb_notin; [|exact Hq]; reflexivity).
  assert (Hst : Py.startswith (u ++ tl) "/" = false).
  { destruct u as [|x u]; [|exact Hs].
    subst tl; destruct has_query; reflexivity. }
  assert (Hf : forallb (fun c => negb ((Py.code c =? 9) || (Py.code c =? 10)
                                       || (Py.code c =? 13))) (u ++ tl) = true).
  { rewrite forallb_app, (no_ctrl_of_special u Hu); subst tl.
    destruct has_query; [|reflexivity].
    cbn [forallb andb]; rewrite (no_ctrl_of_query q Hq); reflexivity. }
  unfold encode_url_path, Urllib.urlparse.
  change (("/"%char :: u) ++ tl) with ("/"%char :: u ++ tl).
  rewrite (urlsplit_path check u tl Hst Hf); cbv zeta.
  assert (Ec : Py.cut "#" ("/"%char :: u ++ tl) = ("/"%char :: u ++ tl, None)).
  { apply cut_notin; intros [H|H]; [discriminate|].
    apply in_app_or in H as [H|H]; [contradiction|].
    subst tl; destruct has_query; [|contradiction].
    destruct H as [H|H]; [discriminate|contradiction]. }
  rewrite Ec.
  assert (Eq : match Py.cut "?" ("/"%char :: u ++ tl) with
               | (a, Some q0) => (a, q0)
               | (a, None) => (a, [])
               end = ("/"%char :: u, q)).
  { subst tl; destruct has_query.
    - change ("/"%char :: u ++ "?"%char :: q)
        with (("/"%char :: u) ++ "?"%char :: q).
      rewrite cut_first; [reflexivity|].
      intros [H|H]; [discriminate|contradiction].
    - rewrite app_nil_r, cut_notin, (Hn eq_refl); [reflexivity|].
      intros [H|H]; [discriminate|contradiction]. }
  rewrite Eq.
  assert (Em : Urllib.mem [] Urllib.uses_params = true) by reflexivity.
  rewrite Em; cbn [andb].
  rewrite contains_notin
    by (intros [H|H]; [discriminate|contradiction]).
  unfold Urllib.replace_path; cbn [Urllib.path Urllib.scheme Urllib.netloc
    Urllib.params Urllib.query Urllib.fragment].
  rewrite join_quote_split.
  f_equal; apply geturl_path_query.
Qed.

Lemma encode_plain (check : str -> bool) (p : str) :
  plain_path p = true -> encode_url_path check p = Some (Urllib.quote p).
Proof.
  intros Hp.
  pose proof (encode_plain_query check p [] false Hp eq_refl
                (fun _ => eq_refl)) as H.
  cbn [Py.truthy] in H; now rewrite !app_nil_r in H.
Qed.

(** X1.  On an absolute path with no query, fragment or parameters,
    [encode_url_path] is [quote]: every character is percent-encoded but the
    unreserved characters and the slash, and encoding the segments one by
    one changes nothing to that. A query string after the path is kept as it
    is, not encoded; a question mark with nothing after it is dropped. *)
Theorem encode_url_path_plain (check : str -> bool) (p : str) :
  plain_path p = true ->
  encode_url_path check p = Some (Urllib.quote p)
  /\ forall q, plain_query q = true ->
               encode_url_path check (p ++ "?"%char :: q)
               = Some (Urllib.quote p
                       ++ (if Py.truthy q then "?"%char :: q else [])).
Proof.
  intros Hp; split.
  - pose proof (encode_plain_query check p [] false Hp eq_refl
                  (fun _ => eq_refl)) as H.
    cbn [Py.truthy] in H; now rewrite !app_nil_r in H.
  - intros q Hq.
    apply (encode_plain_query check p q true Hp Hq).
    intros H; discriminate H.
Qed.

Lemma quote_char_cases (c : ascii) :
  (if path_safe c
   then Py.str_eqb (Urllib.quote_char (Ascii.eqb "/") c) [c]
   else 3 <=? length (Urllib.quote_char (Ascii.eqb "/") c)) = true.
Proof. by_cases_on_char c. Qed.

Lemma quote_char_url (c : ascii) :
  forallb url_char (Urllib.quote_char (Ascii.eqb "/") c) = true.
Proof. by_cases_on_char c. Qed.

Lemma quote_char_safe_iff (c : ascii) :
  forallb path_safe (Urllib.quote_char (Ascii.eqb "/") c) = path_safe c.
Proof. by_cases_on_char c. Qed.

Lemma quote_char_not_slash (c : ascii) :
  Ascii.eqb c "/" = false ->
  Py.startswith (Urllib.quote_char (Ascii.eqb "/") c) "/" = false.
Proof. by_cases_on_char c. Qed.

Lemma url_char_not_special (c : ascii) :
  url_char c = true -> negb (url_special c) = true.
Proof. by_cases_on_char c. Qed.

Lemma quote_length (s : str) : length s <= length (Urllib.quote s).
Proof.
  induction s as [|x s IH]; [apply le_n|].
  rewrite quote_cons, length_app; cbn [length].
  pose proof (quote_char_cases x) as H.
  destruct (path_safe x).
  - apply str_eqb_eq in H; rewrite H; cbn [length]; lia.
  - apply Nat.leb_le in H; lia.
Qed.

(** [quote] leaves a text as it is exactly when all its characters are
    unreserved characters or slashes. *)
Lemma quote_fixed (s : str) :
  Urllib.quote s = s <-> forallb path_safe s = true.
Proof.
  induction s as [|x s IH]; [split; reflexivity|].
  rewrite quote_cons; cbn [forallb].
  pose proof (quote_char_cases x) as H.
  pose proof (quote_length s) as L.
  destruct (path_safe x); cbn [andb].
  - apply str_eqb_eq in H; rewrite H; cbn [app].
    rewrite <- IH; split; [intros [= E]; exact E|intros ->; reflexivity].
  - apply Nat.leb_le in H; split; [|discriminate].
    intros E; apply (f_equal (@length ascii)) in E.
    rewrite length_app in E; cbn [length] in E; lia.
Qed.

Lemma quote_url_chars (s : str) : forallb url_char (Urllib.quote s) = true.
Proof.
  induction s as [|x s IH]; [reflexivity|].
  now rewrite quote_cons, forallb_app, quote_char_url, IH.
Qed.

Lemma quote_safe_iff (s : str) :
  forallb path_safe (Urllib.quote s) = forallb path_safe s.
Proof.
  induction s as [|x s IH]; [reflexivity|].
  rewrite quote_cons, forallb_app, quote_char_safe_iff, IH; reflexivity.
Qed.

Lemma startswith_two_slashes (u : str) :
  Py.startswith ("/"%char :: u) "//" = Py.startswith u "/".
Proof. reflexivity. Qed.

(** The encoding of a plain path is a plain path. *)
Lemma quote_plain (p : str) :
  plain_path p = true -> plain_path (Urllib.quote p) = true.
Proof.
  intros Hp; destruct (plain_path_inv p Hp) as (u & -> & Hs & Hu).
  unfold plain_path.
  change (Urllib.quote ("/"%char :: u)) with ("/"%char :: Urllib.quote u).
  rewrite startswith_two_slashes.
  assert (E : Py.startswith (Urllib.quote u) "/" = false).
  { destruct u as [|x u]; [reflexivity|].
    rewrite quote_cons.
    cbn [Py.startswith s2l list_ascii_of_string] in Hs.
    rewrite andb_true_r in Hs.
    rewrite Ascii.eqb_sym in Hs.
    pose proof (quote_char_not_slash x Hs) as Hq.
    pose proof (quote_char_cases x) as Hc.
    destruct (Urllib.quote_char (Ascii.eqb "/") x) as [|y l]; [|exact Hq].
    destruct (path_safe x); discriminate. }
  rewrite E; cbn [negb andb forallb].
  change (Py.startswith ("/"%char :: Urllib.quote u) "/") with true.
  change (negb (url_special "/")) with true; cbn [andb].
  apply (forallb_imp url_char); [apply url_char_not_special|].
  apply quote_url_chars.
Qed.

Lemma url_char_ascii (c : ascii) :
  url_char c = true -> (Py.code c <? 128) = true.
Proof. by_cases_on_char c. Qed.

(** X2.  The encoded path is made of unreserved characters, slashes and
    percent signs: it is plain ASCII. *)
Theorem encode_url_path_ascii (check : str -> bool) (p : str) :
  plain_path p = true ->
  exists e,
    encode_url_path check p = Some e
    /\ forall x, In x e -> url_char x = true /\ Py.code x < 128.
Proof.
  intros Hp; exists (Urllib.quote p); split; [now apply encode_plain|].
  intros x Hx.
  pose proof (quote_url_chars p) as H; rewrite forallb_forall in H.
  specialize (H x Hx); split; [exact H|].
  apply Nat.ltb_lt; now apply url_char_ascii.
Qed.

(** X3.  A plain path is left unchanged exactly when it needs no encoding. *)
Theorem encode_url_path_fixed (check : str -> bool) (p : str) :
  plain_path p = true ->
  (encode_url_path check p = Some p <-> forallb path_safe p = true).
Proof.
  intros Hp; rewrite (encode_plain check p Hp), <- quote_fixed.
  split; [intros [= E]; exact E|intros ->; reflexivity].
Qed.

(** X4.  Encoding is not idempotent: applied to its own result it encodes
    the percent signs again, unless the path needed no encoding at all. *)
Theorem encode_url_path_twice (check : str -> bool) (p : str) :
  plain_path p = true ->
  exists e e',
    encode_url_path check p = Some e
    /\ encode_url_path check e = Some e'
    /\ (e' = e <-> e = p).
Proof.
  intros Hp; exists (Urllib.quote p), (Urllib.quote (Urllib.quote p)).
  split; [now apply encode_plain|].
  split; [apply encode_plain; now apply quote_plain|].
  now rewrite !quote_fixed, quote_safe_iff.
Qed.

Lemma rcut_last (c : ascii) (a b : str) :
  ~ In c b -> Py.rcut c (a ++ c :: b) = Some (a, b).
Proof.
  intros H; rewrite rcut_app_sep.
  now rewrite (proj2 (rcut_none c b) H).
Qed.

Lemma contains_in (c : ascii) (s : str) :
  In c s -> Py.contains c s = true.
Proof.
  unfold Py.contains; intros H; apply existsb_exists.
  exists c; split; [exact H|apply Ascii.eqb_refl].
Qed.

(** X5.  [urlparse] takes what follows the first semicolon of the last
    segment as the parameters of the URL: [encode_url_path] encodes the path
    in front of that semicolon, keeps the parameters as they are, and drops
    the semicolon when nothing follows it. *)
Theorem encode_url_path_params (check : str -> bool) (dir base prm : str) :
  Py.startswith (dir ++ "/"%char :: base) "/" = true ->
  Py.startswith (dir ++ "/"%char :: base) "//" = false ->
  forallb (fun c => negb (Ascii.eqb c "?" || Ascii.eqb c "#"
                          || (Py.code c =? 9) || (Py.code c =? 10)
                          || (Py.code c =? 13)))
          (dir ++ "/"%char :: base ++ ";"%char :: prm) = true ->
  ~ In "/"%char base -> ~ In ";"%char base -> ~ In "/"%char prm ->
  encode_url_path check (dir ++ "/"%char :: base ++ ";"%char :: prm)
  = Some (Urllib.quote (dir ++ "/"%char :: base)
          ++ (if Py.truthy prm then ";"%char :: prm else [])).
Proof.
  intros Hs1 Hs2 Hf Hb1 Hb2 Hp.
  set (url := dir ++ "/"%char :: base ++ ";"%char :: prm) in *.
  assert (Hurl : exists u, url = "/"%char :: u
                           /\ Py.startswith u "/" = false).
  { subst url; destruct dir as [|x dir]; cbn [app] in *.
    - eexists; split; [reflexivity|].
      rewrite startswith_two_slashes in Hs2.
      destruct base as [|y base]; [reflexivity|exact Hs2].
    - cbn [Py.startswith s2l list_ascii_of_string] in Hs1.
      rewrite andb_true_r in Hs1; apply Ascii.eqb_eq in Hs1; subst x.
      eexists; split; [reflexivity|].
      rewrite startswith_two_slashes in Hs2.
      destruct dir as [|y dir]; [discriminate Hs2|exact Hs2]. }
  destruct Hurl as (u & Eu & Hu).
  assert (Hctrl : forallb (fun c => negb ((Py.code c =? 9) || (Py.code c =? 10)
                                          || (Py.code c =? 13))) u = true).
  { rewrite Eu in Hf; cbn [forallb] in Hf.
    apply andb_prop in Hf as [_ Hf]; revert Hf; apply forallb_imp.
    intros x; destruct (Ascii.eqb x "?"), (Ascii.eqb x "#");
      cbn [orb negb]; auto; discriminate. }
  assert (Hq : ~ In "?"%char url /\ ~ In "#"%char url).
  { split; eapply forallb_notin; try exact Hf; reflexivity. }
  destruct Hq as [Hq1 Hq2].
  unfold encode_url_path, Urllib.urlparse.
  rewrite Eu, <- (app_nil_r u).
  rewrite (urlsplit_path check u []) by (rewrite app_nil_r; assumption).
  rewrite app_nil_r, <- Eu; cbv zeta.
  rewrite (cut_notin "#" url Hq2), (cut_notin "?" url Hq1).
  assert (Em : Urllib.mem [] Urllib.uses_params = true) by reflexivity.
  rewrite Em; cbn [andb].
  rewrite contains_in
    by (subst url; apply in_or_app; right; right; apply in_or_app; right;
        now left).
  unfold Urllib._splitparams.
  assert (Er : Py.rcut "/" url = Some (dir, base ++ ";"%char :: prm)).
  { subst url; apply rcut_last.
    intros H; apply in_app_or in H as [H|[H|H]];
      [contradiction|discriminate|contradiction]. }
  rewrite Er, (cut_first ";" base prm Hb2).
  unfold Urllib.replace_path; cbn [Urllib.path Urllib.scheme Urllib.netloc
    Urllib.params Urllib.query Urllib.fragment].
  rewrite join_quote_split.
  unfold Urllib.geturl; cbn [Urllib.path Urllib.scheme Urllib.netloc
    Urllib.params Urllib.query Urllib.fragment Py.truthy orb andb].
  destruct prm; cbn [Py.truthy]; now rewrite ?app_nil_r.
Qed.

(** ** The fallback lookup: counting and invariants *)

Lemma legacy_candidates_length (key : str) :
  length (legacy_candidates key) <= 1.
Proof.
  unfold legacy_candidates.
  repeat match goal with
         | |- context [if ?x then _ else _] => destruct x
         end; cbn [length]; lia.
Qed.

Lemma tried_length (site : Site) (ks : list str) :
  length (tried site ks) <= length ks.
Proof.
  induction ks as [|k ks IH]; cbn [tried length]; [lia|].
  destruct (site k); cbn [length]; lia.
Qed.

Lemma tried_head (site : Site) (k : str) (ks : list str) :
  exists l, tried site (k :: ks) = k :: l /\ length l <= length ks.
Proof.
  cbn [tried]; destruct (site k).
  - exists []; split; [reflexivity|cbn; lia].
  - exists (tried site ks); split; [reflexivity|apply tried_length].
Qed.

(** X6.  [_get_object] asks the store for the key itself first and makes at
    most two more lookups. *)
Theorem get_object_lookup_count (site : Site) (key : str) (c : Ctx) :
  exists ks,
    ctx_lookups (snd (_get_object site key c)) = ctx_lookups c ++ key :: ks
    /\ length ks <= 2.
Proof.
  rewrite get_object_run; unfold candidates; cbn [snd].
  destruct (tried_head site key
              (legacy_candidates key
               ++ basename_candidates (Py.last_segment "/" key)))
    as (l & -> & Hl).
  exists l; split; [reflexivity|].
  rewrite length_app, basename_candidates_home in Hl.
  pose proof (legacy_candidates_length key).
  destruct (home_dir _); cbn [length] in Hl; lia.
Qed.

Lemma home_key_not_legacy (b d : str) :
  home_dir b = Some d -> legacy_candidates (d ++ b) = [].
Proof.
  intros Hd; destruct (home_dir_cases b d Hd) as [-> | [-> | ->]]; reflexivity.
Qed.

(** X7.  A record missing under the key the retries would build is asked for
    twice under that same key. *)
Theorem get_object_repeats_lookup (site : Site) (b d : str) (c : Ctx) :
  home_dir b = Some d ->
  ~ In "/"%char b ->
  site (d ++ b) = None ->
  _get_object site (d ++ b) c = (None, log_all [d ++ b; d ++ b] c).
Proof.
  intros Hd Hb Hs; rewrite get_object_run; unfold candidates.
  rewrite (home_key_not_legacy b d Hd), (home_key_segment b d Hd Hb).
  rewrite basename_candidates_home, Hd.
  cbn [app first_found tried]; now rewrite Hs.
Qed.

(** X8.  Once the key itself and its modern form have failed, what
    [_get_object] returns depends on the last segment of the key only. *)
Theorem get_object_by_last_segment (site : Site) (dir b : str) (c : Ctx) :
  ~ In "/"%char b ->
  site (dir ++ "/"%char :: b) = None ->
  (forall k, In k (legacy_candidates (dir ++ "/"%char :: b)) ->
             site k = None) ->
  fst (_get_object site (dir ++ "/"%char :: b) c) =
  match home_dir b with
  | Some d => site (d ++ b)
  | None => None
  end.
Proof.
  intros Hb Hs Hl; rewrite get_object_run; unfold candidates; cbn [fst].
  cbn [first_found]; rewrite Hs, first_found_app.
  rewrite (proj2 (first_found_none site _) Hl).
  rewrite last_segment_app_sep, last_segment_plain by assumption.
  rewrite basename_candidates_home.
  destruct (home_dir b) as [d|]; [|reflexivity].
  cbn [first_found]; destruct (site (d ++ b)); reflexivity.
Qed.

(** X9.  In a store that holds every record under its own key, the record
    [_get_object] returns has the last segment of the key asked for: the
    retries change the directory, never the identifier. *)
Theorem get_object_keeps_last_segment (site : Site) (key : str) (c : Ctx)
    (t : Thing) :
  canonical site ->
  fst (_get_object site key c) = Some t ->
  Py.last_segment "/" (thing_key t) = Py.last_segment "/" key.
Proof.
  intros Hcan; rewrite get_object_run; cbn [fst]; intros H.
  destruct (first_found_in site _ t H) as (k & Hk & Hs).
  rewrite (Hcan k t Hs); now apply candidates_segment.
Qed.

(** ** The decomposition of a matched path *)

Lemma cut_fst_notin (c : ascii) (s : str) : ~ In c (fst (Py.cut c s)).
Proof.
  induction s as [|x s IH]; cbn [Py.cut]; [intros []|].
  destruct (Ascii.eqb_spec x c) as [->|Hx]; [intros []|].
  destruct (Py.cut c s) as [a r]; cbn [fst] in *.
  intros [H|H]; [congruence|contradiction].
Qed.

Lemma tail_parts_middle (extra : str) :
  ~ In "/"%char (fst (tail_parts extra)).
Proof.
  unfold tail_parts, Web.listget; cbn [fst Py.splitn].
  destruct (Py.cut "/" extra) as [a [r|]]; [|intros []].
  pose proof (cut_fst_notin "/" r) as H.
  destruct (Py.cut "/" r) as [a' [r'|]]; exact H.
Qed.

Lemma tail_parts_plain (junk : str) :
  ~ In "/"%char junk -> tail_parts junk = ([], []).
Proof.
  intros H; unfold tail_parts, Web.listget; cbn [Py.splitn].
  now rewrite cut_notin.
Qed.

(** X10.  What [match] returns for a path a rule applies to: the matched
    prefix is an initial part of the path; the middle is the text between
    the first and the second slash of what follows, and has no slash; the
    suffix is empty, or a slash and at least one more character. *)
Theorem match_shape (pats : list Rule) (path : str) (m : MatchResult) :
  match_ pats path = Some m ->
  exists extra,
    path = m_prefix m ++ extra
    /\ (m_middle m, m_suffix m) = tail_parts extra
    /\ ~ In "/"%char (m_middle m)
    /\ suffix_form (m_suffix m).
Proof.
  intros H; destruct (match_prefix pats path m H) as (rule & rem & _ & E & Em).
  exists rem; split; [exact E|].
  destruct rule as [[[pat ty] prop] dflt].
  rewrite Em; cbn [match_of m_middle m_suffix].
  split; [now destruct (tail_parts rem)|].
  split; [apply tail_parts_middle|apply tail_parts_suffix_form].
Qed.

(** ** Identifiers followed by any text *)

Lemma match_identifier_tail (n : nat) (id w t : str) (pat : Re.re)
    (ty prop dflt : str) :
  identifies n id ->
  run_of Re.word w ->
  nth_error patterns n = Some (pat, ty, prop, dflt) ->
  (n = 1 -> stops Re.ia_char t) ->
  match_ patterns (id_path w id ++ t) =
  Some (mkMatch ty prop dflt (id_path w id)
                (fst (tail_parts t)) (snd (tail_parts t))).
Proof.
  intros Hid Hw Hn Ht; rewrite match_first_rule.
  replace (id_path w id ++ t) with ("/" ++ w ++ "/" ++ id ++ t)
    by (unfold id_path; now rewrite <- !app_assoc).
  rewrite (first_rule_identifier_tail n id w t _ Hid Hw Hn Ht).
  cbn [option_map]; f_equal.
  replace ("/" ++ w ++ "/" ++ id ++ t) with (id_path w id ++ t)
    by (unfold id_path; now rewrite <- !app_assoc).
  apply match_of_app.
Qed.

(** ** The rules of the identifiers *)

Lemma identifies_rule (n : nat) (id : str) :
  identifies n id ->
  exists pat ty prop dflt, nth_error patterns n = Some (pat, ty, prop, dflt).
Proof. intros [d _|i _|d _|d _]; do 4 eexists; reflexivity. Qed.

Lemma re_match_some (r : Re.re) (p : str) :
  Re.re_match r p <> None -> exists rem, In rem (Re.match_re r p).
Proof.
  unfold Re.re_match; destruct (Re.match_re r p) as [|rem l];
    [contradiction|].
  intros _; exists rem; now left.
Qed.

Lemma re_match_none (r : Re.re) (p : str) :
  Re.match_re r p = [] -> Re.re_match r p = None.
Proof. unfold Re.re_match; now intros ->. Qed.

(** X11.  A path that one of the edition, archive, author and work rules
    matches is matched by none of the other three. *)
Theorem identifier_rules_exclusive (p : str) (i j : nat) (ri rj : Rule) :
  i < 4 -> j < 4 -> i <> j ->
  nth_error patterns i = Some ri ->
  nth_error patterns j = Some rj ->
  Re.re_match (rule_pattern ri) p <> None ->
  Re.re_match (rule_pattern rj) p = None.
Proof.
  intros Hi Hj Hij Eri Erj Hm.
  apply re_match_some in Hm as (rem & Hin).
  apply re_match_none.
  rewrite patterns_eq in Eri, Erj.
  assert (Dl : Re.digit "M" = false /\ Re.digit "A" = false
               /\ Re.digit "W" = false) by (repeat split).
  destruct Dl as (DM & DA & DW).
  destruct i as [|[|[|[|i]]]]; [| | | |lia]; injection Eri as <-;
    cbn [rule_pattern fst] in Hin;
    [destruct (olid_inv "M" p rem Hin) as (w & d & Hw & Hd & ->)
    |destruct (ia_inv p rem Hin) as (w & d & Hw & Hd & ->)
    |destruct (olid_inv "A" p rem Hin) as (w & d & Hw & Hd & ->)
    |destruct (olid_inv "W" p rem Hin) as (w & d & Hw & Hd & ->)];
    (destruct j as [|[|[|[|j]]]]; [| | | |lia]; try contradiction;
     injection Erj as <-; cbn [rule_pattern fst]);
    try (rewrite olid_match by assumption; reflexivity);
    try (apply (olid_on_ia _ w (d ++ rem) Hw));
    apply (ia_on_olid w ((d ++ [_]) ++ rem) Hw).
Qed.

Section ResolutionExtras.

Variable urlsafe : str -> str.
Variable is_exclusion : option Thing -> bool.

Local Abbreviation resolve := (get_readable_path urlsafe is_exclusion).

Lemma app_middle_neq (pre mid suf : str) :
  mid <> [] -> pre ++ suf <> pre ++ mid ++ suf.
Proof.
  intros Hm E; apply app_inv_head in E.
  apply (f_equal (@length ascii)) in E; rewrite length_app in E.
  destruct mid; [contradiction|cbn in E; lia].
Qed.

(** X12.  The two paths of a resolution differ exactly when a slug is
    inserted: a rule matches, the path has no extension to serve and no
    encoding is requested, and the fallback lookup returns a record of the
    rule's type. *)
Theorem paths_differ_iff_slug (site : Site) (path : str) (pats : list Rule)
    (enc : option str) (c : Ctx) :
  fst (fst (resolve site path pats enc c))
    <> snd (fst (resolve site path pats enc c))
  <-> exists m t,
        match_ pats path = Some m
        /\ enc = None
        /\ Py.endswith_any path known_exts = false
        /\ fst (_get_object site (m_prefix m) c) = Some t
        /\ thing_type_key t = m_type m.
Proof.
  destruct (match_ pats path) as [m|] eqn:Em.
  2:{ rewrite (resolve_no_match urlsafe is_exclusion) by assumption.
      cbn [fst snd]; split; [intros H; now contradiction H|].
      intros (m & t & H & _); discriminate. }
  destruct (negb (is_none enc) || Py.endswith_any path known_exts) eqn:Eb.
  { rewrite (resolve_ext urlsafe is_exclusion site path pats enc c m Em Eb).
    cbn [fst snd]; split; [intros H; now contradiction H|].
    intros (m' & t & _ & -> & He & _); cbn [is_none negb orb] in Eb; congruence. }
  rewrite (resolve_slug urlsafe is_exclusion site path pats enc c m Em Eb).
  cbn [fst snd].
  apply orb_false_elim in Eb as [Ee Ex].
  assert (Enc : enc = None) by (destruct enc; [discriminate|reflexivity]).
  assert (Eo : fst (_get_object site (m_prefix m) c)
               = first_found site (candidates (m_prefix m)))
    by (now rewrite get_object_run).
  unfold resolved_middle.
  destruct (first_found site (candidates (m_prefix m))) as [t|].
  - destruct (str_eqb_spec (thing_type_key t) (m_type m)) as [Ety|Ety].
    + split; [intros _; exists m, t; auto|].
      intros _; apply app_middle_neq; discriminate.
    + split; [intros H; now contradiction H|].
      intros (m' & t' & Hm' & _ & _ & Ht' & H).
      apply some_inj in Hm'; subst m'; rewrite Eo in Ht'.
      apply some_inj in Ht'; subst t'; contradiction.
  - split; [intros H; now contradiction H|].
    intros (m' & t' & Hm' & _ & _ & Ht' & _).
    apply some_inj in Hm'; subst m'; rewrite Eo in Ht'; discriminate.
Qed.

(** X13.  The text in the place of the slug is not read: two requests that
    differ only there resolve alike, lookups included. *)
Theorem resolve_ignores_request_slug (site : Site) (n : nat)
    (w id q1 q2 suffix : str) (c : Ctx) :
  identifies n id ->
  run_of Re.word w ->
  ~ In "/"%char q1 ->
  ~ In "/"%char q2 ->
  suffix_form suffix ->
  Py.endswith_any (id_path w id ++ "/"%char :: q1 ++ suffix) known_exts
    = false ->
  Py.endswith_any (id_path w id ++ "/"%char :: q2 ++ suffix) known_exts
    = false ->
  resolve site (id_path w id ++ "/"%char :: q1 ++ suffix) patterns None c
  = resolve site (id_path w id ++ "/"%char :: q2 ++ suffix) patterns None c.
Proof.
  intros Hid Hw H1 H2 Hs E1 E2.
  destruct (identifies_rule n id Hid) as (pat & ty & prop & dflt & Hn).
  pose proof (match_identifier_tail n id w ("/"%char :: q1 ++ suffix)
                pat ty prop dflt Hid Hw Hn (fun _ => eq_refl)) as M1.
  pose proof (match_identifier_tail n id w ("/"%char :: q2 ++ suffix)
                pat ty prop dflt Hid Hw Hn (fun _ => eq_refl)) as M2.
  rewrite tail_parts_slug in M1, M2 by assumption.
  cbn [fst snd] in M1, M2.
  rewrite (resolve_slug urlsafe is_exclusion site _ patterns None c _ M1 E1).
  rewrite (resolve_slug urlsafe is_exclusion site _ patterns None c _ M2 E2).
  reflexivity.
Qed.

(** X14.  Text glued to an identifier is dropped: the path resolves as if it
    ended with the identifier. *)
Theorem resolve_drops_glued_text (site : Site) (n : nat)
    (w id junk : str) (c : Ctx) :
  identifies n id ->
  run_of Re.word w ->
  (n = 1 -> stops Re.ia_char junk) ->
  ~ In "/"%char junk ->
  Py.endswith_any (id_path w id ++ junk) known_exts = false ->
  Py.endswith_any (id_path w id) known_exts = false ->
  resolve site (id_path w id ++ junk) patterns None c
  = resolve site (id_path w id) patterns None c.
Proof.
  intros Hid Hw Hst Hj E1 E2.
  destruct (identifies_rule n id Hid) as (pat & ty & prop & dflt & Hn).
  pose proof (match_identifier_tail n id w junk
                pat ty prop dflt Hid Hw Hn Hst) as M1.
  pose proof (match_identifier_tail n id w []
                pat ty prop dflt Hid Hw Hn (fun _ => I)) as M2.
  rewrite app_nil_r in M2.
  rewrite tail_parts_plain in M1 by assumption.
  cbn [fst snd tail_parts] in M1, M2.
  rewrite (resolve_slug urlsafe is_exclusion site _ patterns None c _ M1 E1).
  rewrite (resolve_slug urlsafe is_exclusion site _ patterns None c _ M2 E2).
  reflexivity.
Qed.

End ResolutionExtras.

(** ** The processor: guards, lookups and what the handler receives *)

Lemma rstrip_last (c x : ascii) (s : str) :
  x <> c -> Py.rstrip c (s ++ [x]) = s ++ [x].
Proof.
  intros Hx; induction s as [|y s IH]; cbn [app Py.rstrip].
  - destruct (Ascii.eqb_spec x c); [contradiction|reflexivity].
  - rewrite IH; destruct s; reflexivity.
Qed.

Lemma rstrip_noop (c : ascii) (s : str) :
  Py.endswith s [c] = false -> Py.rstrip c s = s.
Proof.
  destruct s as [|y s _] using rev_ind; [reflexivity|].
  unfold Py.endswith; rewrite rev_app_distr; cbn [rev app Py.startswith].
  rewrite andb_true_r; intros H; apply rstrip_last.
  intros ->; now rewrite Ascii.eqb_refl in H.
Qed.

Lemma candidates_length (key : str) : length (candidates key) <= 3.
Proof.
  unfold candidates; cbn [length]; rewrite length_app.
  pose proof (legacy_candidates_length key).
  rewrite basename_candidates_home.
  destruct (home_dir _); cbn [length]; lia.
Qed.

Lemma user_not_language (p : str) :
  Py.startswith p "/user/" = true -> Py.startswith p "/l/" = false.
Proof. intros H; apply startswith_inv in H; rewrite H; reflexivity. Qed.

Section ProcessorExtras.

Variable urlsafe : str -> str.
Variable is_exclusion : option Thing -> bool.
Variable Out : Type.
Variable render_notfound : str -> Out.
Variable check_bracketed_host : str -> bool.

Local Abbreviation resolve := (get_readable_path urlsafe is_exclusion).
Local Abbreviation call :=
  (__call__ urlsafe is_exclusion Out render_notfound check_bracketed_host).
Local Abbreviation readable_of :=
  (request_readable urlsafe is_exclusion check_bracketed_host).
Local Abbreviation real_of :=
  (request_real urlsafe is_exclusion check_bracketed_host).
Local Abbreviation handler_ctx_of :=
  (handler_ctx urlsafe is_exclusion check_bracketed_host).

(** Past the legacy checks the processor raises no see-other. *)
Lemma no_see_other (site : Site) (pats : list Rule) (handler : M Out)
    (c : Ctx) (url : str) :
  legacy_redirect site (ctx_path c) = None ->
  fst (call site pats handler c) <> inl (SeeOther url).
Proof.
  intros Hl; rewrite call_run, Hl; cbv zeta.
  destruct (readable_of site pats c); [|discriminate].
  destruct (real_of site pats c); [|discriminate].
  destruct (must_redirect _ _ _); [discriminate|].
  unfold after_handler; destruct (ctx_exclude _); discriminate.
Qed.

(** X15.  The two legacy guards. A path under [/l/] is answered with a
    see-other to the same path under [/languages/], whatever the method, the
    store and the rules, with the request context untouched and the query
    string not carried over. A path under [/user/] for which the store has
    no record is answered with a see-other to the same path under
    [/people/], after that single lookup. No other request is answered with
    a see-other. *)
Theorem legacy_guards (site : Site) (pats : list Rule) (handler : M Out)
    (c : Ctx) :
  (Py.startswith (ctx_path c) "/l/" = true ->
   call site pats handler c =
   (inl (SeeOther ("/languages/" ++ skipn 3 (ctx_path c))), c))
  /\ (Py.startswith (ctx_path c) "/user/" = true ->
      site (ctx_path c) = None ->
      call site pats handler c =
      (inl (SeeOther ("/people/" ++ skipn 6 (ctx_path c))),
       log_lookup (ctx_path c) c))
  /\ (forall url,
        fst (call site pats handler c) = inl (SeeOther url) ->
        Py.startswith (ctx_path c) "/l/" = true
        \/ (Py.startswith (ctx_path c) "/user/" = true
            /\ site (ctx_path c) = None)).
Proof.
  split; [|split].
  - rewrite call_run; unfold legacy_redirect, after_legacy; now intros ->.
  - rewrite call_run; unfold legacy_redirect, after_legacy.
    intros Hu Hs; rewrite (user_not_language _ Hu), Hu, Hs; reflexivity.
  - intros url H.
    destruct (legacy_redirect site (ctx_path c)) as [u|] eqn:Hl;
      [|now destruct (no_see_other site pats handler c url Hl)].
    revert Hl; unfold legacy_redirect.
    destruct (Py.startswith (ctx_path c) "/l/"); [now left|].
    destruct (Py.startswith (ctx_path c) "/user/"); [|discriminate].
    destruct (site (ctx_path c)); [discriminate|now right].
Qed.

(** The lookups of a resolution do not depend on the context it starts
    from, and there are at most three. *)
Lemma resolve_lookups (site : Site) (path : str) (pats : list Rule)
    (enc : option str) :
  exists L,
    length L <= 3
    /\ forall c0, ctx_lookups (snd (resolve site path pats enc c0))
                  = ctx_lookups c0 ++ L.
Proof.
  destruct (match_ pats path) as [m|] eqn:Em.
  - destruct (negb (is_none enc) || Py.endswith_any path known_exts) eqn:Eb.
    + exists (tried site (candidates (fst (OsPath.splitext path)))); split.
      * etransitivity; [apply tried_length|apply candidates_length].
      * intros c0.
        now rewrite (resolve_ext urlsafe is_exclusion site path pats enc c0
                       m Em Eb).
    + exists (tried site (candidates (m_prefix m))); split.
      * etransitivity; [apply tried_length|apply candidates_length].
      * intros c0.
        rewrite (resolve_slug urlsafe is_exclusion site path pats enc c0
                   m Em Eb).
        cbn [snd]; destruct (is_exclusion _); reflexivity.
  - exists []; split; [cbn; lia|]; intros c0.
    rewrite (resolve_no_match urlsafe is_exclusion) by assumption.
    cbn [snd]; now rewrite app_nil_r.
Qed.

(** X16.  The processor resolves the request twice and keeps the second
    result only. For a path with no final slash both resolutions are of the
    same path: every lookup of the store is made twice, and at most six are
    made, before the redirect is raised, the [ValueError] of
    [encode_url_path] leaves the processor, or the handler runs. *)
Theorem request_resolved_twice (site : Site) (pats : list Rule) (c : Ctx) :
  Py.endswith (ctx_path c) "/" = false ->
  exists L,
    length L <= 3
    /\ (forall c0,
          ctx_lookups (snd (resolve site (ctx_path c) pats (ctx_encoding c)
                              c0))
          = ctx_lookups c0 ++ L)
    /\ ctx_lookups (snd (resolutions urlsafe is_exclusion site pats c))
       = ctx_lookups (after_legacy c) ++ L ++ L
    /\ (forall d,
          handler_ctx_of site pats c = Some d ->
          ctx_lookups d = ctx_lookups (after_legacy c) ++ L ++ L)
    /\ (forall handler url,
          fst (call site pats handler c) = inl (Redirect url) ->
          ctx_lookups (snd (call site pats handler c))
          = ctx_lookups (after_legacy c) ++ L ++ L)
    /\ (forall handler,
          fst (call site pats handler c) = inl ValueError ->
          ctx_lookups (snd (call site pats handler c))
          = ctx_lookups (after_legacy c) ++ L ++ L).
Proof.
  intros He.
  destruct (resolve_lookups site (ctx_path c) pats (ctx_encoding c))
    as (L & HL & Hr).
  assert (Hres : ctx_lookups (snd (resolutions urlsafe is_exclusion site
                                     pats c))
                 = ctx_lookups (after_legacy c) ++ L ++ L).
  { unfold resolutions.
    rewrite (rstrip_noop "/" (ctx_path c) He), !Hr.
    now rewrite <- app_assoc. }
  exists L; split; [exact HL|]; split; [exact Hr|]; split;
    [exact Hres|]; split; [|split].
  - intros d Hd.
    apply handler_ctx_some in Hd as (readable & real & _ & _ & ->).
    exact Hres.
  - intros handler url; rewrite call_run.
    destruct (legacy_redirect site (ctx_path c)); [discriminate|].
    cbv zeta.
    destruct (readable_of site pats c); [|discriminate].
    destruct (real_of site pats c); [|discriminate].
    destruct (must_redirect _ _ _); [intros _; exact Hres|].
    unfold after_handler; destruct (ctx_exclude _); discriminate.
  - intros handler; rewrite call_run.
    destruct (legacy_redirect site (ctx_path c)); [discriminate|].
    cbv zeta.
    destruct (readable_of site pats c); [|intros _; exact Hres].
    destruct (real_of site pats c); [|intros _; exact Hres].
    destruct (must_redirect _ _ _); [discriminate|].
    unfold after_handler; destruct (ctx_exclude _); discriminate.
Qed.

(** X17.  A request that no rule matches: for a plain path with no final
    slash and outside the legacy guards, nothing is raised whatever the
    method, no lookup is made by the resolutions, and the handler runs with
    the percent-encoded request path as its path and readable path. *)
Theorem unmatched_request_passthrough (site : Site) (pats : list Rule)
    (handler : M Out) (c : Ctx) :
  legacy_redirect site (ctx_path c) = None ->
  plain_path (ctx_path c) = true ->
  Py.endswith (ctx_path c) "/" = false ->
  match_ pats (ctx_path c) = None ->
  (forall e, fst (call site pats handler c) <> inl e)
  /\ handler_ctx_of site pats c
     = Some (with_paths (Urllib.quote (ctx_path c))
                        (Urllib.quote (ctx_path c)) (after_legacy c)).
Proof.
  intros Hl Hp He Hm.
  assert (Hres : resolutions urlsafe is_exclusion site pats c
                 = ((ctx_path c, ctx_path c), after_legacy c)).
  { unfold resolutions.
    rewrite (rstrip_noop "/" (ctx_path c) He).
    now rewrite !(resolve_no_match urlsafe is_exclusion) by assumption. }
  assert (Hread : readable_of site pats c = Some (Urllib.quote (ctx_path c))).
  { unfold request_readable, final_readable; rewrite Hres; cbn [fst snd].
    rewrite He.
    now apply encode_plain. }
  assert (Hreal : real_of site pats c = Some (Urllib.quote (ctx_path c))).
  { unfold request_real; rewrite Hres; cbn [fst snd].
    now apply encode_plain. }
  split.
  - intros e; rewrite call_run, Hl; cbv zeta.
    rewrite Hread, Hreal; unfold must_redirect, Web.safestr.
    rewrite str_eqb_refl; cbn [negb andb]; rewrite andb_false_r.
    unfold after_handler; destruct (ctx_exclude _); discriminate.
  - unfold handler_ctx; now rewrite Hread, Hreal, Hres.
Qed.

End ProcessorExtras.

(** ** Requests for identifier paths *)

Lemma slashes_app (a b : str) : slashes (a ++ b) = slashes a + slashes b.
Proof. apply count_occ_app. Qed.

Lemma slashes_none (s : str) : ~ In "/"%char s -> slashes s = 0.
Proof. intros H; now apply count_occ_not_In. Qed.

Lemma quote_char_slashes (c : ascii) :
  slashes (Urllib.quote_char (Ascii.eqb "/") c) = slashes [c].
Proof. by_cases_on_char c. Qed.

Lemma quote_slashes (s : str) : slashes (Urllib.quote s) = slashes s.
Proof.
  induction s as [|x s IH]; [reflexivity|].
  rewrite quote_cons, slashes_app, quote_char_slashes, IH.
  change (x :: s) with ([x] ++ s); now rewrite slashes_app.
Qed.

Lemma id_path_slashes (n : nat) (w id : str) :
  identifies n id -> run_of Re.word w -> slashes (id_path w id) = 2.
Proof.
  intros Hid Hw; unfold id_path.
  rewrite !slashes_app.
  rewrite (slashes_none id (identifies_no_slash n id Hid)).
  rewrite (slashes_none w); [reflexivity|].
  intros H; exact (run_word_no_slash w Hw _ H eq_refl).
Qed.

Lemma word_not_special (c : ascii) :
  Re.word c = true -> negb (url_special c) = true.
Proof. by_cases_on_char c. Qed.

Lemma digit_not_special (c : ascii) :
  Re.digit c = true -> negb (url_special c) = true.
Proof. by_cases_on_char c. Qed.

Lemma ia_char_not_special (c : ascii) :
  Re.ia_char c = true -> negb (url_special c) = true.
Proof. by_cases_on_char c. Qed.

Lemma run_not_special (cls : ascii -> bool) (s : str) :
  (forall c, cls c = true -> negb (url_special c) = true) ->
  run_of cls s ->
  forallb (fun c => negb (url_special c)) s = true.
Proof.
  intros H [_ Hr]; apply forallb_forall; intros x Hx; auto.
Qed.

Lemma identifier_not_special (n : nat) (id : str) :
  identifies n id -> forallb (fun c => negb (url_special c)) id = true.
Proof.
  intros [d Hd|i Hi|d Hd|d Hd];
    rewrite ?forallb_app;
    rewrite ?(run_not_special _ d digit_not_special Hd);
    rewrite ?(run_not_special _ i ia_char_not_special Hi);
    reflexivity.
Qed.

Lemma quote_plus_char_not_special (c : ascii) :
  forallb (fun x => negb (url_special x))
          (map (fun x => if Ascii.eqb x " " then "+"%char else x)
               (Urllib.quote_char (Ascii.eqb " ") c)) = true
  /\ forallb (fun x => negb (url_special x))
             (Urllib.quote_char (fun _ => false) c) = true.
Proof. by_cases_on_char c. Qed.

Lemma quote_plus_not_special (s : str) :
  forallb (fun c => negb (url_special c)) (Urllib.quote_plus s) = true.
Proof.
  unfold Urllib.quote_plus, Urllib.quote_with, Py.replace.
  destruct (Py.contains " " s).
  - induction s as [|x s IH]; [reflexivity|].
    cbn [flat_map]; rewrite map_app, forallb_app, IH.
    now rewrite (proj1 (quote_plus_char_not_special x)).
  - induction s as [|x s IH]; [reflexivity|].
    cbn [flat_map]; rewrite forallb_app, IH.
    now rewrite (proj2 (quote_plus_char_not_special x)).
Qed.

(** A record's key of the usual form followed by text without special
    characters is a plain path. *)
Lemma id_path_plain (n : nat) (w id tl : str) :
  identifies n id ->
  run_of Re.word w ->
  forallb (fun c => negb (url_special c)) tl = true ->
  plain_path (id_path w id ++ tl) = true.
Proof.
  intros Hid Hw Ht.
  pose proof (run_not_special _ w word_not_special Hw) as Hws.
  pose proof (identifier_not_special n id Hid) as His.
  assert (E : id_path w id ++ tl = "/"%char :: w ++ "/"%char :: id ++ tl).
  { unfold id_path; cbn [s2l list_ascii_of_string app].
    now rewrite <- !app_assoc. }
  unfold plain_path; rewrite E, startswith_two_slashes.
  assert (E1 : Py.startswith ("/"%char :: w ++ "/"%char :: id ++ tl) "/"
               = true) by reflexivity.
  assert (E2 : Py.startswith (w ++ "/"%char :: id ++ tl) "/" = false).
  { destruct Hw as [Hne Hw]; destruct w as [|x w]; [contradiction|].
    pose proof (word_not_slash x (Hw x (or_introl eq_refl))) as Hx.
    cbn [s2l list_ascii_of_string app Py.startswith].
    destruct (Ascii.eqb_spec "/"%char x) as [H|_]; [|reflexivity].
    now contradiction Hx. }
  rewrite E1, E2; cbn [negb andb forallb].
  rewrite forallb_app, Hws; cbn [forallb].
  rewrite forallb_app, His, Ht; reflexivity.
Qed.

Lemma endswith_last (s : str) (x c : ascii) :
  x <> c -> Py.endswith (s ++ [x]) [c] = false.
Proof.
  intros H; unfold Py.endswith; rewrite rev_app_distr.
  cbn [rev app Py.startswith]; rewrite andb_true_r.
  destruct (Ascii.eqb_spec c x); [congruence|reflexivity].
Qed.

Lemma endswith_no_slash (pre q : str) :
  q <> [] -> ~ In "/"%char q -> Py.endswith (pre ++ q) "/" = false.
Proof.
  intros Hne Hq.
  destruct q as [|y q _] using rev_ind; [contradiction|].
  rewrite app_assoc; apply endswith_last.
  intros ->; apply Hq, in_or_app; right; now left.
Qed.

Section IdentifierRequests.

Variable urlsafe : str -> str.
Variable is_exclusion : option Thing -> bool.
Variable Out : Type.
Variable render_notfound : str -> Out.
Variable check_bracketed_host : str -> bool.

Local Abbreviation resolve := (get_readable_path urlsafe is_exclusion).
Local Abbreviation call :=
  (__call__ urlsafe is_exclusion Out render_notfound check_bracketed_host).
Local Abbreviation readable_of :=
  (request_readable urlsafe is_exclusion check_bracketed_host).
Local Abbreviation real_of :=
  (request_real urlsafe is_exclusion check_bracketed_host).
Local Abbreviation handler_ctx_of :=
  (handler_ctx urlsafe is_exclusion check_bracketed_host).

(** The resolution of a first segment and an identifier, followed by a
    middle segment and a suffix, when the fallback lookup finds a record of
    the type of the identifier's rule. *)
Lemma resolve_identifier_found (site : Site) (n : nat)
    (w id q suffix : str) (pat : Re.re) (ty prop dflt : str)
    (t : Thing) (c : Ctx) :
  identifies n id ->
  run_of Re.word w ->
  nth_error patterns n = Some (pat, ty, prop, dflt) ->
  first_found site (candidates (id_path w id)) = Some t ->
  thing_type_key t = ty ->
  ~ In "/"%char q ->
  suffix_form suffix ->
  Py.endswith_any (id_path w id ++ "/"%char :: q ++ suffix) known_exts
    = false ->
  fst (resolve site (id_path w id ++ "/"%char :: q ++ suffix) patterns
         None c)
  = (thing_key t ++ suffix,
     thing_key t ++ ("/"%char :: slug_text urlsafe t prop dflt) ++ suffix).
Proof.
  intros Hid Hw Hn Hf Hty Hq Hs He.
  pose proof (match_identifier_tail n id w ("/"%char :: q ++ suffix)
                pat ty prop dflt Hid Hw Hn (fun _ => eq_refl)) as Hm.
  rewrite tail_parts_slug in Hm by assumption; cbn [fst snd] in Hm.
  rewrite (resolve_slug urlsafe is_exclusion site _ patterns None c _ Hm He).
  cbn [fst m_prefix m_suffix]; rewrite Hf.
  unfold resolved_prefix, resolved_middle.
  cbn [m_type m_property m_default_title].
  now rewrite Hty, str_eqb_refl.
Qed.

Lemma resolve_identifier_bare (site : Site) (n : nat)
    (w id : str) (pat : Re.re) (ty prop dflt : str) (t : Thing) (c : Ctx) :
  identifies n id ->
  run_of Re.word w ->
  nth_error patterns n = Some (pat, ty, prop, dflt) ->
  first_found site (candidates (id_path w id)) = Some t ->
  thing_type_key t = ty ->
  Py.endswith_any (id_path w id) known_exts = false ->
  fst (resolve site (id_path w id) patterns None c)
  = (thing_key t,
     thing_key t ++ "/"%char :: slug_text urlsafe t prop dflt).
Proof.
  intros Hid Hw Hn Hf Hty He.
  pose proof (match_identifier_tail n id w [] pat ty prop dflt Hid Hw Hn
                (fun _ => I)) as Hm.
  rewrite app_nil_r in Hm; cbn [fst snd tail_parts] in Hm.
  rewrite (resolve_slug urlsafe is_exclusion site _ patterns None c _ Hm He).
  cbn [fst m_prefix m_suffix]; rewrite Hf.
  unfold resolved_prefix, resolved_middle.
  cbn [m_type m_property m_default_title].
  rewrite Hty, str_eqb_refl, !app_nil_r; reflexivity.
Qed.

(** X18.  A request for the readable path of a record is served, not
    redirected, whatever its method: nothing is raised and the handler
    runs, with the percent-encoded real path (the slug removed) as its path
    and the percent-encoded request path as its readable path. *)
Theorem readable_request_served (site : Site) (n : nat)
    (w id suffix : str) (pat : Re.re) (ty prop dflt : str) (t : Thing)
    (handler : M Out) (c : Ctx) :
  identifies n id ->
  run_of Re.word w ->
  nth_error patterns n = Some (pat, ty, prop, dflt) ->
  site (id_path w id) = Some t ->
  thing_key t = id_path w id ->
  thing_type_key t = ty ->
  suffix_form suffix ->
  let path :=
    id_path w id ++ ("/"%char :: slug_text urlsafe t prop dflt) ++ suffix in
  ctx_path c = path ->
  ctx_encoding c = None ->
  Py.endswith_any path known_exts = false ->
  Py.endswith path "/" = false ->
  plain_path path = true ->
  legacy_redirect site path = None ->
  (forall e, fst (call site patterns handler c) <> inl e)
  /\ exists d,
       handler_ctx_of site patterns c = Some d
       /\ encode_url_path check_bracketed_host (id_path w id ++ suffix)
          = Some (ctx_path d)
       /\ ctx_path d = Urllib.quote (id_path w id ++ suffix)
       /\ ctx_readable_path d = Some (Urllib.quote path).
Proof.
  intros Hid Hw Hn Hs Hk Hty Hsf path Hc Henc Hext Hend Hpl Hleg.
  assert (Hf : first_found site (candidates (id_path w id)) = Some t)
    by (unfold candidates; cbn [first_found]; now rewrite Hs).
  assert (Hres : fst (resolutions urlsafe is_exclusion site patterns c)
                 = (id_path w id ++ suffix, path)).
  { unfold resolutions; rewrite Hc, Henc, (rstrip_noop "/" path Hend).
    subst path; cbn [app] in *.
    rewrite (resolve_identifier_found site n w id _ suffix pat ty prop dflt t
               _ Hid Hw Hn Hf Hty (quote_plus_no_slash _) Hsf Hext).
    now rewrite Hk. }
  assert (Hread : readable_of site patterns c = Some (Urllib.quote path)).
  { unfold request_readable, final_readable; rewrite Hres; cbn [snd].
    rewrite Hend; now apply encode_plain. }
  assert (Hpr : plain_path (id_path w id ++ suffix) = true).
  { apply (id_path_plain n); auto.
    unfold plain_path in Hpl; apply andb_prop in Hpl as [_ Hpl].
    subst path; rewrite !forallb_app in Hpl.
    apply andb_prop in Hpl as [_ Hpl]; now apply andb_prop in Hpl as [_ Hpl]. }
  assert (Hreal : real_of site patterns c
                  = Some (Urllib.quote (id_path w id ++ suffix))).
  { unfold request_real; rewrite Hres; cbn [fst]; now apply encode_plain. }
  split.
  - intros e; rewrite call_run, Hc, Hleg; cbv zeta.
    rewrite Hread, Hreal; unfold must_redirect, Web.safestr.
    rewrite str_eqb_refl; cbn [negb andb]; rewrite andb_false_r.
    unfold after_handler; destruct (ctx_exclude _); discriminate.
  - eexists; split; [unfold handler_ctx; now rewrite Hread, Hreal|].
    cbn [with_paths ctx_path ctx_readable_path].
    split; [now apply encode_plain|]; split; reflexivity.
Qed.

(** X19.  A GET of a first segment and an identifier, with nothing after it,
    for which the fallback lookup finds a record of the rule's type held
    under a key of that form, is redirected to the percent-encoded key and
    slug followed by the query string, provided the slug is not empty. *)
Theorem bare_identifier_redirect (site : Site) (n : nat)
    (w w' id : str) (pat : Re.re) (ty prop dflt : str) (t : Thing)
    (handler : M Out) (c : Ctx) :
  identifies n id ->
  run_of Re.word w ->
  run_of Re.word w' ->
  nth_error patterns n = Some (pat, ty, prop, dflt) ->
  fst (_get_object site (id_path w id) c) = Some t ->
  thing_key t = id_path w' id ->
  thing_type_key t = ty ->
  slug_text urlsafe t prop dflt <> [] ->
  ctx_path c = id_path w id ->
  ctx_encoding c = None ->
  ctx_method c = "GET" ->
  Py.endswith_any (id_path w id) known_exts = false ->
  legacy_redirect site (id_path w id) = None ->
  fst (call site patterns handler c)
  = inl (Redirect
           (Urllib.quote (id_path w' id
                          ++ "/"%char :: slug_text urlsafe t prop dflt)
            ++ ctx_query c)).
Proof.
  intros Hid Hw Hw' Hn Ho Hk Hty Hq Hc Henc Hget Hext Hleg.
  rewrite get_object_run in Ho; cbn [fst] in Ho.
  set (q := slug_text urlsafe t prop dflt) in *.
  assert (Hqs : ~ In "/"%char q) by apply quote_plus_no_slash.
  assert (Hend : Py.endswith (id_path w id) "/" = false).
  { replace (id_path w id) with (("/" ++ w ++ "/") ++ id)
      by (unfold id_path; now rewrite <- !app_assoc).
    apply endswith_no_slash; [|exact (identifies_no_slash n id Hid)].
    intros ->; inversion Hid. }
  assert (Hres : fst (resolutions urlsafe is_exclusion site patterns c)
                 = (id_path w' id, id_path w' id ++ "/"%char :: q)).
  { unfold resolutions; rewrite Hc, Henc, (rstrip_noop "/" _ Hend).
    rewrite (resolve_identifier_bare site n w id pat ty prop dflt t
               _ Hid Hw Hn Ho Hty Hext).
    now rewrite Hk. }
  assert (Hpl : plain_path (id_path w' id ++ "/"%char :: q) = true).
  { apply (id_path_plain n); auto.
    cbn [forallb]; change (negb (url_special "/")) with true; cbn [andb].
    apply quote_plus_not_special. }
  assert (Hread : readable_of site patterns c
                  = Some (Urllib.quote (id_path w' id ++ "/"%char :: q))).
  { unfold request_readable, final_readable; rewrite Hres; cbn [snd].
    replace (id_path w' id ++ "/"%char :: q)
      with ((id_path w' id ++ ["/"%char]) ++ q)
      by (now rewrite <- app_assoc).
    rewrite (endswith_no_slash _ q Hq Hqs).
    now apply encode_plain; rewrite <- app_assoc. }
  assert (Hreal : real_of site patterns c
                  = Some (Urllib.quote (id_path w' id))).
  { unfold request_real; rewrite Hres; cbn [fst].
    apply encode_plain.
    rewrite <- (app_nil_r (id_path w' id)).
    now apply (id_path_plain n). }
  assert (Hcount : slashes (Urllib.quote (id_path w' id ++ "/"%char :: q))
                   = 3).
  { rewrite quote_slashes, slashes_app, (id_path_slashes n) by assumption.
    change ("/"%char :: q) with (["/"%char] ++ q).
    now rewrite slashes_app, (slashes_none q Hqs). }
  rewrite call_run, Hc, Hleg; cbv zeta.
  rewrite Hread, Hreal; unfold must_redirect, Web.safestr.
  rewrite Hget, str_eqb_refl, andb_true_r.
  destruct (str_eqb_spec (Urllib.quote (id_path w' id ++ "/"%char :: q))
              (id_path w id)) as [E|_].
  { rewrite E, (id_path_slashes n) in Hcount by assumption; discriminate. }
  destruct (str_eqb_spec (Urllib.quote (id_path w' id ++ "/"%char :: q))
              (Urllib.quote (id_path w id))) as [E|_].
  { rewrite E, quote_slashes, (id_path_slashes n) in Hcount by assumption.
    discriminate. }
  reflexivity.
Qed.

End IdentifierRequests.

Section DefaultPolicy.

Variable urlsafe : str -> str.
Variable Out : Type.
Variable render_notfound : str -> Out.
Variable check_bracketed_host : str -> bool.

(** X20.  With the [is_exclusion] of the file, which flags nothing, the
    processor never answers with the not-found page of its own accord: for a
    request that comes in with the exclusion flag down and a handler that
    does not raise it, the resolutions leave the flag down, and the
    processor either raises an exception (a redirect, or the [ValueError]
    of [urlparse]) or invokes the handler with the flag down and returns
    what the handler returned, leaving the status alone. *)
Theorem default_policy_never_excludes (site : Site) (pats : list Rule)
    (handler : M Out) (c : Ctx) :
  ctx_exclude c = false ->
  (forall x, ctx_exclude x = false -> ctx_exclude (snd (handler x)) = false) ->
  ctx_exclude (snd (resolutions urlsafe is_exclusion_default site pats c))
  = false
  /\ ((exists e, fst (__call__ urlsafe is_exclusion_default Out
                        render_notfound check_bracketed_host
                        site pats handler c) = inl e)
      \/ exists d,
           handler_ctx urlsafe is_exclusion_default check_bracketed_host
             site pats c = Some d
           /\ ctx_exclude d = false
           /\ __call__ urlsafe is_exclusion_default Out render_notfound
                check_bracketed_host site pats handler c
              = (inr (fst (handler d)), snd (handler d))).
Proof.
  intros Hc Hh.
  assert (Hflag : forall enc path,
             raises_flag is_exclusion_default site pats enc path = false).
  { intros enc path; unfold raises_flag, is_exclusion_default.
    destruct (match_ pats path); [apply andb_false_r|reflexivity]. }
  assert (H1 : ctx_exclude (snd (resolutions urlsafe is_exclusion_default
                                   site pats c)) = false)
    by (rewrite resolutions_flag, Hc, !Hflag; reflexivity).
  split; [exact H1|].
  rewrite call_run.
  destruct (legacy_redirect site (ctx_path c)) as [url|];
    [left; now eexists|].
  cbv zeta.
  destruct (request_readable _ _ _ site pats c) as [readable|] eqn:Er;
    [|left; now eexists].
  destruct (request_real _ _ _ site pats c) as [real|] eqn:El;
    [|left; now eexists].
  destruct (must_redirect _ _ _); [left; now eexists|].
  right; eexists; split; [unfold handler_ctx; now rewrite Er, El|].
  split; [exact H1|].
  unfold after_handler; now rewrite (Hh (with_paths readable real _) H1).
Qed.

End DefaultPolicy.

(** ** The slug *)

Lemma quote_plus_char_slug (c : ascii) :
  forallb slug_char
          (map (fun x => if Ascii.eqb x " " then "+"%char else x)
               (Urllib.quote_char (Ascii.eqb " ") c)) = true
  /\ forallb slug_char (Urllib.quote_char (fun _ => false) c) = true.
Proof. by_cases_on_char c. Qed.

Lemma quote_plus_slug_chars (s : str) :
  forallb slug_char (Urllib.quote_plus s) = true.
Proof.
  unfold Urllib.quote_plus, Urllib.quote_with, Py.replace.
  destruct (Py.contains " " s).
  - induction s as [|x s IH]; [reflexivity|].
    cbn [flat_map]; rewrite map_app, forallb_app, IH.
    now rewrite (proj1 (quote_plus_char_slug x)).
  - induction s as [|x s IH]; [reflexivity|].
    cbn [flat_map]; rewrite forallb_app, IH.
    now rewrite (proj2 (quote_plus_char_slug x)).
Qed.

Lemma slug_char_ascii (c : ascii) :
  slug_char c = true -> (Py.code c <? 128) = true.
Proof. by_cases_on_char c. Qed.

(** X21.  Whatever the title of the record and whatever [urlsafe] makes of
    it, the slug is a slash followed by unreserved characters, percent signs
    and plus signs only: plain ASCII, with no space, no further slash and
    none of the characters that end the path of a URL. *)
Theorem slug_is_one_ascii_segment (urlsafe : str -> str) (thing : Thing)
    (_property default_title : str) :
  exists q,
    slug urlsafe thing _property default_title = "/"%char :: q
    /\ forall x, In x q ->
                 slug_char x = true /\ Py.code x < 128
                 /\ url_special x = false /\ x <> "/"%char /\ x <> " "%char.
Proof.
  unfold slug; eexists; split; [reflexivity|].
  intros x Hx.
  pose proof (quote_plus_slug_chars
                (urlsafe (Py.strip (or_default (thing_get thing _property)
                                               default_title)))) as H.
  rewrite forallb_forall in H; specialize (H x Hx).
  split; [exact H|]; split; [apply Nat.ltb_lt; now apply slug_char_ascii|].
  revert H; clear; pattern x; apply all_ascii.
  intros [] [] [] [] [] [] [] []; vm_compute; intros H;
    try discriminate H; repeat split; discriminate.
Qed.

Lemma lstrip_by_all (f : ascii -> bool) (s : str) :
  forallb f s = true -> Py.lstrip_by f s = [].
Proof.
  induction s as [|x s IH]; cbn [forallb Py.lstrip_by]; [reflexivity|].
  destruct (f x); [exact IH|discriminate].
Qed.

(** X22.  The default title stands in for a missing or empty title only: the
    test comes before the white space is stripped, so a title made of white
    space gives the slug of the empty text, not that of the default title. *)
Theorem blank_title_not_defaulted (urlsafe : str -> str) (thing : Thing)
    (_property default_title title : str) :
  thing_get thing _property = Some title ->
  title <> [] ->
  forallb Py.isspace title = true ->
  slug urlsafe thing _property default_title
  = "/"%char :: Urllib.quote_plus (urlsafe []).
Proof.
  intros Hg Hne Hsp; unfold slug; rewrite Hg; cbn [or_default].
  destruct title as [|x title]; [contradiction|]; cbn [Py.truthy].
  unfold Py.strip; rewrite (lstrip_by_all _ _ Hsp); reflexivity.
Qed.

(** ** Structured requests and the exclusion policy *)

Lemma known_ext_no_final_slash (path : str) :
  Py.endswith_any path known_exts = true -> Py.endswith path "/" = false.
Proof.
  intros H; destruct (Py.endswith path "/") eqn:E; [|reflexivity].
  apply endswith_inv in E as (t & ->).
  now rewrite endswith_any_slash in H.
Qed.

Section StructuredRequests.

Variable urlsafe : str -> str.
Variable is_exclusion : option Thing -> bool.
Variable Out : Type.
Variable render_notfound : str -> Out.
Variable check_bracketed_host : str -> bool.

Local Abbreviation call :=
  (__call__ urlsafe is_exclusion Out render_notfound check_bracketed_host).

(** X23.  The exclusion policy is not consulted for a request that asks for
    an encoding or whose path ends in a known extension: whatever the policy
    says of the record, the resolutions leave the exclusion flag as the
    request came in with it, and when that flag is down and the handler
    leaves it down, the processor either raises an exception (a redirect,
    or the [ValueError] of [urlparse]) or invokes the handler with the flag
    down and returns what the handler returned. *)
Theorem structured_request_not_excluded (site : Site) (pats : list Rule)
    (handler : M Out) (c : Ctx) :
  ctx_encoding c <> None
  \/ Py.endswith_any (ctx_path c) known_exts = true ->
  ctx_exclude (snd (resolutions urlsafe is_exclusion site pats c))
  = ctx_exclude c
  /\ (forall d,
        handler_ctx urlsafe is_exclusion check_bracketed_host site pats c
        = Some d ->
        ctx_exclude d = ctx_exclude c)
  /\ (ctx_exclude c = false ->
      (forall x, ctx_exclude x = false ->
                 ctx_exclude (snd (handler x)) = false) ->
      (exists e, fst (call site pats handler c) = inl e)
      \/ exists d,
           handler_ctx urlsafe is_exclusion check_bracketed_host site pats c
           = Some d
           /\ call site pats handler c
              = (inr (fst (handler d)), snd (handler d))).
Proof.
  intros Hs.
  assert (Hflag : raises_flag is_exclusion site pats (ctx_encoding c)
                    (ctx_path c) = false
                  /\ raises_flag is_exclusion site pats (ctx_encoding c)
                       (Py.rstrip "/" (ctx_path c)) = false).
  { unfold raises_flag; destruct Hs as [He|He].
    - destruct (ctx_encoding c); [|contradiction]; cbn [is_none negb orb].
      split; [destruct (match_ pats (ctx_path c))|
              destruct (match_ pats (Py.rstrip "/" (ctx_path c)))];
        reflexivity.
    - rewrite (rstrip_noop "/" _ (known_ext_no_final_slash _ He)), He.
      rewrite orb_true_r; cbn [negb andb].
      split; destruct (match_ pats (ctx_path c)); reflexivity. }
  destruct Hflag as [F1 F2].
  assert (H1 : ctx_exclude (snd (resolutions urlsafe is_exclusion site
                                   pats c)) = ctx_exclude c).
  { rewrite resolutions_flag, F1, F2; now rewrite !orb_false_r. }
  split; [exact H1|]; split.
  { intros d Hd.
    apply handler_ctx_some in Hd as (readable & real & _ & _ & ->).
    exact H1. }
  intros Hc Hh; rewrite call_run.
  destruct (legacy_redirect site (ctx_path c)) as [url|];
    [left; now eexists|].
  cbv zeta.
  destruct (request_readable _ _ _ site pats c) as [readable|] eqn:Er;
    [|left; now eexists].
  destruct (request_real _ _ _ site pats c) as [real|] eqn:El;
    [|left; now eexists].
  destruct (must_redirect _ _ _); [left; now eexists|].
  right; eexists; split; [unfold handler_ctx; now rewrite Er, El|].
  unfold after_handler.
  rewrite (Hh (with_paths readable real _) (eq_trans H1 Hc)); reflexivity.
Qed.

End StructuredRequests.

(** ** Instances *)

Ltac not_in_literal :=
  let H := fresh in
  intros H; cbv in H;
  repeat (destruct H as [H|H]; [discriminate H|]); exact H.

Lemma OL1M_identifier : identifies 0 "OL1M".
Proof. exact (olid_M "1" (run_of_literal Re.digit "1" eq_refl)). Qed.

Lemma edit_suffix : suffix_form "/edit".
Proof. right; now exists ("dit" : str), "e"%char. Qed.

Lemma encode_url_path_plain_witness :
  plain_path "/books/OL10M/a b/edit" = true
  /\ encode_url_path accept_host "/books/OL10M/a b/edit"
     = Some ("/books/OL10M/a%20b/edit" : str)
  /\ encode_url_path accept_host "/books/OL10M/a b/edit?mode=add-work"
     = Some ("/books/OL10M/a%20b/edit?mode=add-work" : str).
Proof.
  split; [reflexivity|].
  destruct (encode_url_path_plain accept_host "/books/OL10M/a b/edit"
              eq_refl) as [H1 H2].
  split; [exact (eq_trans H1 eq_refl)|].
  exact (eq_trans (H2 "mode=add-work" eq_refl) eq_refl).
Defined.

Lemma encode_url_path_ascii_witness :
  plain_path "/a b" = true
  /\ encode_url_path accept_host "/a b" = Some ("/a%20b" : str)
  /\ url_char "%" = true
  /\ Py.code "%" < 128.
Proof.
  split; [reflexivity|]; split; [reflexivity|].
  destruct (encode_url_path_ascii accept_host "/a b" eq_refl)
    as (e & He & Hx).
  injection He as <-.
  apply Hx; vm_compute; auto 10.
Defined.

Lemma encode_url_path_fixed_witness :
  plain_path "/books/OL1M" = true
  /\ forallb path_safe "/books/OL1M" = true
  /\ encode_url_path accept_host "/books/OL1M" = Some ("/books/OL1M" : str).
Proof.
  split; [reflexivity|]; split; [reflexivity|].
  exact (proj2 (encode_url_path_fixed accept_host "/books/OL1M" eq_refl)
           eq_refl).
Defined.

Lemma encode_url_path_twice_witness :
  plain_path "/a b" = true
  /\ encode_url_path accept_host "/a b" = Some ("/a%20b" : str)
  /\ encode_url_path accept_host "/a%20b" = Some ("/a%2520b" : str)
  /\ encode_url_path accept_host "/a%20b" <> Some ("/a%20b" : str).
Proof.
  split; [reflexivity|]; split; [reflexivity|]; split; [reflexivity|].
  destruct (encode_url_path_twice accept_host "/a b" eq_refl)
    as (e & e' & He & He' & Hiff).
  assert (Ee : e = ("/a%20b" : str))
    by (vm_compute in He; now injection He as <-).
  subst e; intros H.
  rewrite H in He'; injection He' as <-.
  pose proof (proj1 Hiff eq_refl) as E; vm_compute in E; discriminate E.
Defined.

Lemma encode_url_path_params_witness :
  encode_url_path accept_host "/a;b/c;d" = Some ("/a%3Bb/c;d" : str)
  /\ encode_url_path accept_host "/a;b/c;" = Some ("/a%3Bb/c" : str).
Proof.
  split.
  - refine (eq_trans (encode_url_path_params accept_host "/a;b" "c" "d"
                        eq_refl eq_refl eq_refl _ _ _) eq_refl);
      not_in_literal.
  - refine (eq_trans (encode_url_path_params accept_host "/a;b" "c" []
                        eq_refl eq_refl eq_refl _ _ _) eq_refl);
      not_in_literal.
Defined.

Lemma get_object_repeats_lookup_witness :
  home_dir "OL2M" = Some ("/books/" : str)
  /\ book_store "/books/OL2M" = None
  /\ _get_object book_store "/books/OL2M" (request "/" [] "GET" None)
     = (None,
        log_all [ "/books/OL2M" : str; "/books/OL2M" : str ]
                (request "/" [] "GET" None)).
Proof.
  split; [reflexivity|]; split; [reflexivity|].
  refine (get_object_repeats_lookup book_store "OL2M" "/books/"
            (request "/" [] "GET" None) eq_refl _ eq_refl).
  not_in_literal.
Defined.

Lemma get_object_by_last_segment_witness :
  work_store "/books/OLxW" = None
  /\ legacy_candidates "/books/OLxW" = []
  /\ fst (_get_object work_store "/books/OLxW" (request "/" [] "GET" None))
     = work_store "/works/OLxW".
Proof.
  split; [reflexivity|]; split; [reflexivity|].
  refine (get_object_by_last_segment work_store "/books" "OLxW"
            (request "/" [] "GET" None) _ eq_refl _).
  - not_in_literal.
  - intros k [].
Defined.

Lemma get_object_keeps_last_segment_witness :
  canonical book_store
  /\ fst (_get_object book_store "/b/OL1M" (request "/" [] "GET" None))
     = Some (record "/books/OL1M" "/type/edition" "title" "Moby Dick")
  /\ Py.last_segment "/" ("/books/OL1M" : str)
     = Py.last_segment "/" ("/b/OL1M" : str).
Proof.
  split; [exact book_store_canonical|]; split; [reflexivity|].
  exact (get_object_keeps_last_segment book_store "/b/OL1M"
           (request "/" [] "GET" None)
           (record "/books/OL1M" "/type/edition" "title" "Moby Dick")
           book_store_canonical eq_refl).
Defined.

Lemma match_shape_witness :
  match_ patterns "/b/OL1Mabc/x/edit/history"
  = Some (mkMatch "/type/edition" "title" "untitled" "/b/OL1M" "x"
                  "/edit/history")
  /\ exists extra,
       ("/b/OL1Mabc/x/edit/history" : str) = "/b/OL1M" ++ extra
       /\ ("x" : str, "/edit/history" : str) = tail_parts extra
       /\ ~ In "/"%char ("x" : str)
       /\ suffix_form "/edit/history".
Proof.
  split; [reflexivity|].
  exact (match_shape patterns "/b/OL1Mabc/x/edit/history"
           (mkMatch "/type/edition" "title" "untitled" "/b/OL1M" "x"
                    "/edit/history") eq_refl).
Defined.

Lemma identifier_rules_exclusive_witness :
  Re.re_match (olid_pattern "M") "/books/OL1M/x" = Some ("/books/OL1M" : str)
  /\ Re.re_match (olid_pattern "W") "/books/OL1M/x" = None.
Proof.
  split; [reflexivity|].
  refine (identifier_rules_exclusive "/books/OL1M/x" 0 3
            (olid_pattern "M", "/type/edition" : str, "title" : str,
             "untitled" : str)
            (olid_pattern "W", "/type/work" : str, "title" : str,
             "untitled" : str)
            _ _ _ eq_refl eq_refl _);
    [lia|lia|discriminate|vm_compute; discriminate].
Defined.

Lemma paths_differ_iff_slug_witness :
  match_ patterns "/b/OL1M"
  = Some (mkMatch "/type/edition" "title" "untitled" "/b/OL1M" [] [])
  /\ fst (fst (get_readable_path urlsafe_id is_exclusion_default book_store
                 "/b/OL1M" patterns None (request "/" [] "GET" None)))
     <> snd (fst (get_readable_path urlsafe_id is_exclusion_default
                    book_store "/b/OL1M" patterns None
                    (request "/" [] "GET" None))).
Proof.
  split; [reflexivity|].
  apply (proj2 (paths_differ_iff_slug urlsafe_id is_exclusion_default
                  book_store "/b/OL1M" patterns None
                  (request "/" [] "GET" None))).
  exists (mkMatch "/type/edition" "title" "untitled" "/b/OL1M" [] []),
         (record "/books/OL1M" "/type/edition" "title" "Moby Dick").
  repeat split.
Defined.

Lemma resolve_ignores_request_slug_witness :
  get_readable_path urlsafe_id is_exclusion_default book_store
    "/books/OL1M/x/edit" patterns None (request "/" [] "GET" None)
  = get_readable_path urlsafe_id is_exclusion_default book_store
      "/books/OL1M/Moby+Dick/edit" patterns None (request "/" [] "GET" None).
Proof.
  refine (resolve_ignores_request_slug urlsafe_id is_exclusion_default
            book_store 0 "books" "OL1M" "x" "Moby+Dick" "/edit"
            (request "/" [] "GET" None)
            OL1M_identifier (run_of_literal Re.word "books" eq_refl)
            _ _ edit_suffix eq_refl eq_refl);
    not_in_literal.
Defined.

Lemma resolve_drops_glued_text_witness :
  get_readable_path urlsafe_id is_exclusion_default book_store
    "/books/OL1Mxyz" patterns None (request "/" [] "GET" None)
  = get_readable_path urlsafe_id is_exclusion_default book_store
      "/books/OL1M" patterns None (request "/" [] "GET" None).
Proof.
  refine (resolve_drops_glued_text urlsafe_id is_exclusion_default
            book_store 0 "books" "OL1M" "xyz" (request "/" [] "GET" None)
            OL1M_identifier (run_of_literal Re.word "books" eq_refl)
            _ _ eq_refl eq_refl);
    [discriminate|not_in_literal].
Defined.

Lemma legacy_guards_witness :
  __call__ urlsafe_id is_exclusion_default str notfound_page accept_host
    book_store patterns page_handler (request "/l/eng" "?x=1" "POST" None)
  = (inl (SeeOther "/languages/eng"), request "/l/eng" "?x=1" "POST" None)
  /\ __call__ urlsafe_id is_exclusion_default str notfound_page accept_host
       book_store patterns page_handler (request "/user/bob" [] "GET" None)
     = (inl (SeeOther "/people/bob"),
        log_lookup "/user/bob" (request "/user/bob" [] "GET" None)).
Proof.
  split.
  - exact (proj1 (legacy_guards urlsafe_id is_exclusion_default str
                    notfound_page accept_host book_store patterns
                    page_handler
                    (request "/l/eng" "?x=1" "POST" None)) eq_refl).
  - exact (proj1 (proj2 (legacy_guards urlsafe_id is_exclusion_default str
                           notfound_page accept_host book_store patterns
                           page_handler
                           (request "/user/bob" [] "GET" None)))
             eq_refl eq_refl).
Defined.

Lemma request_resolved_twice_witness :
  Py.endswith "/b/OL1M" "/" = false
  /\ option_map ctx_lookups
       (handler_ctx urlsafe_id is_exclusion_default accept_host book_store
          patterns (request "/b/OL1M" [] "POST" None))
     = Some [ "/b/OL1M" : str; "/books/OL1M" : str;
              "/b/OL1M" : str; "/books/OL1M" : str ].
Proof.
  split; [reflexivity|].
  destruct (request_resolved_twice urlsafe_id is_exclusion_default str
              notfound_page accept_host book_store patterns
              (request "/b/OL1M" [] "POST" None) eq_refl)
    as (L & _ & Hr & _ & Hh & _).
  specialize (Hr (request "/b/OL1M" [] "POST" None)).
  vm_compute in Hr; subst L.
  destruct (handler_ctx urlsafe_id is_exclusion_default accept_host
              book_store patterns (request "/b/OL1M" [] "POST" None))
    as [d|] eqn:Hd; [|discriminate Hd].
  cbn [option_map]; f_equal; exact (Hh d eq_refl).
Defined.

Lemma unmatched_request_passthrough_witness :
  let c := request "/search/a b" "?q=1" "GET" None in
  legacy_redirect book_store "/search/a b" = None
  /\ match_ patterns "/search/a b" = None
  /\ (forall e, fst (__call__ urlsafe_id is_exclusion_default str
                       notfound_page accept_host book_store patterns
                       page_handler c)
                <> inl e)
  /\ handler_ctx urlsafe_id is_exclusion_default accept_host book_store
       patterns c
     = Some (with_paths "/search/a%20b" "/search/a%20b" c).
Proof.
  intros c; split; [reflexivity|]; split; [reflexivity|].
  exact (unmatched_request_passthrough urlsafe_id is_exclusion_default str
           notfound_page accept_host book_store patterns page_handler c
           eq_refl eq_refl eq_refl eq_refl).
Defined.

Lemma readable_request_served_witness :
  let c := request "/books/OL1M/Moby+Dick/edit" [] "GET" None in
  (forall e, fst (__call__ urlsafe_id is_exclusion_default str
                    notfound_page accept_host book_store patterns
                    page_handler c)
             <> inl e)
  /\ option_map ctx_path
       (handler_ctx urlsafe_id is_exclusion_default accept_host book_store
          patterns c)
     = Some ("/books/OL1M/edit" : str)
  /\ option_map ctx_readable_path
       (handler_ctx urlsafe_id is_exclusion_default accept_host book_store
          patterns c)
     = Some (Some ("/books/OL1M/Moby%2BDick/edit" : str)).
Proof.
  intros c.
  destruct (readable_request_served urlsafe_id is_exclusion_default str
              notfound_page accept_host book_store 0 "books" "OL1M" "/edit"
              (olid_pattern "M") "/type/edition" "title" "untitled"
              (record "/books/OL1M" "/type/edition" "title" "Moby Dick")
              page_handler c
              OL1M_identifier (run_of_literal Re.word "books" eq_refl)
              eq_refl eq_refl eq_refl eq_refl edit_suffix
              eq_refl eq_refl eq_refl eq_refl eq_refl eq_refl)
    as (Hrun & d & Hd & _ & Hp & Hr).
  split; [exact Hrun|].
  rewrite Hd; cbn [option_map]; rewrite Hp, Hr; split; reflexivity.
Defined.

Lemma bare_identifier_redirect_witness :
  fst (_get_object book_store "/b/OL1M" (request "/b/OL1M" "?x=1" "GET" None))
  = Some (record "/books/OL1M" "/type/edition" "title" "Moby Dick")
  /\ fst (__call__ urlsafe_id is_exclusion_default str notfound_page
            accept_host book_store patterns page_handler
            (request "/b/OL1M" "?x=1" "GET" None))
     = inl (Redirect "/books/OL1M/Moby%2BDick?x=1").
Proof.
  split; [reflexivity|].
  refine (eq_trans
            (bare_identifier_redirect urlsafe_id is_exclusion_default str
               notfound_page accept_host book_store 0 "b" "books" "OL1M"
               (olid_pattern "M") "/type/edition" "title" "untitled"
               (record "/books/OL1M" "/type/edition" "title" "Moby Dick")
               page_handler (request "/b/OL1M" "?x=1" "GET" None)
               OL1M_identifier (run_of_literal Re.word "b" eq_refl)
               (run_of_literal Re.word "books" eq_refl)
               eq_refl eq_refl eq_refl eq_refl _
               eq_refl eq_refl eq_refl eq_refl eq_refl)
            eq_refl).
  vm_compute; discriminate.
Defined.

Lemma default_policy_never_excludes_witness :
  let c := request "/books/OL1M/Moby+Dick" [] "POST" None in
  ctx_exclude c = false
  /\ (forall e, fst (__call__ urlsafe_id is_exclusion_default str
                       notfound_page accept_host book_store patterns
                       page_handler c) <> inl e)
  /\ __call__ urlsafe_id is_exclusion_default str notfound_page accept_host
       book_store patterns page_handler c
     = (inr ("/books/OL1M" : str),
        mkCtx "/books/OL1M" [] "POST" None false
              (Some ("/books/OL1M/Moby%2BDick" : str))
              (Some ("/books/OL1M" : str)) None
              [ "/books/OL1M" : str; "/books/OL1M" : str ]).
Proof.
  intros c; split; [reflexivity|].
  assert (Hrun : forall e, fst (__call__ urlsafe_id is_exclusion_default str
                                  notfound_page accept_host book_store
                                  patterns page_handler c) <> inl e)
    by (intros e; vm_compute; discriminate).
  split; [exact Hrun|].
  destruct (default_policy_never_excludes urlsafe_id str notfound_page
              accept_host book_store patterns page_handler c eq_refl
              (fun x H => H)) as [_ [[e He]|(d & Hd & _ & Hc)]].
  - destruct (Hrun e He).
  - vm_compute in Hd; injection Hd as <-; exact Hc.
Defined.

Lemma structured_request_not_excluded_witness :
  let c := request "/books/OL1M.json" [] "GET" None in
  Py.endswith_any "/books/OL1M.json" known_exts = true
  /\ exclude_all (book_store "/books/OL1M") = true
  /\ ctx_exclude (snd (resolutions urlsafe_id exclude_all book_store
                         patterns c)) = false
  /\ (forall e, fst (__call__ urlsafe_id exclude_all str notfound_page
                       accept_host book_store patterns page_handler c)
                <> inl e)
  /\ __call__ urlsafe_id exclude_all str notfound_page accept_host
       book_store patterns page_handler c
     = (inr ("/books/OL1M.json" : str),
        mkCtx "/books/OL1M.json" [] "GET" None false
              (Some ("/books/OL1M.json" : str))
              (Some ("/books/OL1M.json" : str)) None
              [ "/books/OL1M" : str; "/books/OL1M" : str ]).
Proof.
  intros c; split; [reflexivity|]; split; [reflexivity|].
  assert (Hrun : forall e, fst (__call__ urlsafe_id exclude_all str
                                  notfound_page accept_host book_store
                                  patterns page_handler c) <> inl e)
    by (intros e; vm_compute; discriminate).
  destruct (structured_request_not_excluded urlsafe_id exclude_all str
              notfound_page accept_host book_store patterns page_handler c
              (or_intror eq_refl)) as (H1 & _ & H2).
  split; [exact H1|]; split; [exact Hrun|].
  destruct (H2 eq_refl (fun x H => H)) as [[e He]|(d & Hd & Hc)].
  - destruct (Hrun e He).
  - vm_compute in Hd; injection Hd as <-; exact Hc.
Defined.

Lemma blank_title_not_defaulted_witness :
  slug urlsafe_id (record "/books/OL1M" "/type/edition" "title" "  ")
       "title" "untitled"
  = ("/" : str).
Proof.
  refine (eq_trans
            (blank_title_not_defaulted urlsafe_id
               (record "/books/OL1M" "/type/edition" "title" "  ")
               "title" "untitled" "  " eq_refl _ eq_refl)
            eq_refl).
  discriminate.
Defined.
